(** * A shallow embedding of the ledger core of the wallet system

    The Go packages [wallet], [blockchain] and [services] are embedded
    as Rocq modules of the same names.  Go strings and byte slices are
    Rocq [string]s (sequences of 8-bit characters), [uint64], [int64]
    and [int] are [Z] with the wrap-around written out, a Go
    [map[string]T] is a [gmap string T], and [float64] is the IEEE-754
    binary64 format of [SpecFloat]. *)

From Stdlib Require Import ZArith Lia List String Ascii DecimalString SpecFloat.
From stdpp Require Import gmap strings list fin_maps sorting.
From Equations Require Import Equations.

Open Scope Z_scope.

(** * The parts of the Go runtime and standard library the core uses *)

Module Go.

(** ** Machine integers *)

Definition uint64 (x : Z) : Z := x mod 2 ^ 64.

Definition int64 (x : Z) : Z := (x + 2 ^ 63) mod 2 ^ 64 - 2 ^ 63.

(** ** Bytes and strings *)

Definition byte (n : Z) : ascii := ascii_of_N (Z.to_N (n mod 256)).

Definition code (c : ascii) : Z := Z.of_N (N_of_ascii c).

Definition bytes (l : list Z) : string := string_of_list_ascii (map byte l).

Definition codes (s : string) : list Z := map code (list_ascii_of_string s).

Definition len (s : string) : Z := Z.of_nat (String.length s).

(** [s[:n]]: the slice expression panics when [n] exceeds the length. *)
Definition slice_to (s : string) (n : nat) : option string :=
  if (n <=? String.length s)%nat then Some (String.substring 0 n s) else None.

(** [strings.HasPrefix]. *)
Definition HasPrefix (s p : string) : bool := String.prefix p s.

(** [strings.Join]. *)
Definition Join (l : list string) (sep : string) : string := String.concat sep l.

(** [sort.Strings]: ascending in the bytewise order of Go strings.  Two
    equal strings cannot be told apart, so the sorted slice is determined
    by its contents; it is computed here by insertion. *)
Fixpoint insert_string (x : string) (l : list string) : list string :=
  match l with
  | [] => [x]
  | y :: l' => if String.leb x y then x :: l else y :: insert_string x l'
  end.

Definition sort_Strings (l : list string) : list string :=
  foldr insert_string [] l.

(** [fmt.Sprintf("%d", n)]. *)
Definition fmt_d (n : Z) : string := NilZero.string_of_int (Z.to_int n).

(** [utf8.EncodeRune]. *)
Definition utf8 (r : Z) : string :=
  if r <? 128 then bytes [r]
  else if r <? 2048 then bytes [192 + r / 64; 128 + r mod 64]
  else if r <? 65536 then
    bytes [224 + r / 4096; 128 + (r / 64) mod 64; 128 + r mod 64]
  else
    bytes [240 + r / 262144; 128 + (r / 4096) mod 64;
           128 + (r / 64) mod 64; 128 + r mod 64].

(** The conversion [string(n)] of an integer [n]: the UTF-8 encoding of
    the code point [n], and of U+FFFD when [n] is not a valid code
    point (negative, a surrogate, or above U+10FFFF). *)
Definition string_of_rune (n : Z) : string :=
  if (0 <=? n) && (n <=? 1114111) && negb ((55296 <=? n) && (n <=? 57343))
  then utf8 n else utf8 65533.

(** ** encoding/hex *)

Definition hexdigit (n : Z) : ascii :=
  if n <? 10 then byte (48 + n) else byte (87 + n).

Fixpoint hex_EncodeToString (s : string) : string :=
  match s with
  | EmptyString => EmptyString
  | String c s' =>
      String (hexdigit (code c / 16))
        (String (hexdigit (code c mod 16)) (hex_EncodeToString s'))
  end.

Definition fromHexChar (c : ascii) : option Z :=
  let n := code c in
  if (48 <=? n) && (n <=? 57) then Some (n - 48)
  else if (97 <=? n) && (n <=? 102) then Some (n - 87)
  else if (65 <=? n) && (n <=? 70) then Some (n - 55)
  else None.

(** [hex.DecodeString]: [None] stands for the error it returns on an odd
    length or on a character that is not a hexadecimal digit. *)
Fixpoint hex_DecodeString (s : string) : option string :=
  match s with
  | EmptyString => Some EmptyString
  | String _ EmptyString => None
  | String a (String b s') =>
      match fromHexChar a, fromHexChar b, hex_DecodeString s' with
      | Some x, Some y, Some r => Some (String (byte (16 * x + y)) r)
      | _, _, _ => None
      end
  end.

(** ** Iteration over maps and sort.Slice

    A [for ... range] loop over a map visits every entry once, in an order
    the language leaves unspecified and that may change from one loop to
    the next.  [sort.Slice] reorders a slice so that no element is [less]
    than an earlier one; it is not stable.  A [Runtime] fixes both
    choices for one call; every call may run under a different one. *)
Record Runtime : Type := {
  range : forall {V : Type}, gmap string V -> list (string * V);
  sort_Slice : forall {A : Type}, (A -> A -> bool) -> list A -> list A
}.

(** [less] is a strict weak order, as [sort.Slice] requires. *)
Definition strict_weak {A : Type} (less : A -> A -> bool) : Prop :=
  (forall a b, less a b = true -> less b a = false) /\
  (forall a b c, less a b = false -> less b c = false -> less a c = false).

Record lawful (rt : Runtime) : Prop := {
  range_Permutation :
    forall (V : Type) (m : gmap string V), range rt m ≡ₚ map_to_list m;
  sort_Slice_Permutation :
    forall (A : Type) (less : A -> A -> bool) (l : list A),
      sort_Slice rt less l ≡ₚ l;
  sort_Slice_sorted :
    forall (A : Type) (less : A -> A -> bool) (l : list A),
      strict_weak less ->
      StronglySorted (fun a b => less b a = false) (sort_Slice rt less l)
}.

(** One runtime that computes: the map is visited in the order of
    [map_to_list], and the slice is sorted by insertion (what [sort.Slice]
    does on at most twelve elements). *)
Fixpoint insert_by {A : Type} (less : A -> A -> bool) (x : A) (l : list A) : list A :=
  match l with
  | [] => [x]
  | y :: l' => if less y x then y :: insert_by less x l' else x :: l
  end.

Definition insertion_sort {A : Type} (less : A -> A -> bool) (l : list A) : list A :=
  foldr (insert_by less) [] l.

Definition runtime0 : Runtime :=
  {| range := fun V m => map_to_list m;
     sort_Slice := fun A less l => insertion_sort less l |}.

(** A second one: the map is visited in the opposite order. *)
Definition runtime1 : Runtime :=
  {| range := fun V m => rev (map_to_list m);
     sort_Slice := fun A less l => insertion_sort less l |}.

(** ** float64: IEEE-754 binary64, rounding to nearest even *)

Definition prec : Z := 53.
Definition emax : Z := 1024.

(** [float64(n)] of an integer [n]. *)
Definition float64 (n : Z) : spec_float := binary_normalize prec emax n 0 false.

Definition fmul : spec_float -> spec_float -> spec_float := SFmul prec emax.
Definition fdiv : spec_float -> spec_float -> spec_float := SFdiv prec emax.
Definition fadd : spec_float -> spec_float -> spec_float := SFadd prec emax.
Definition flt : spec_float -> spec_float -> bool := SFltb.

(** The integer part of a finite float (truncation towards zero). *)
Definition trunc (f : spec_float) : Z :=
  match f with
  | S754_finite s m e =>
      let v := if 0 <=? e then Z.pos m * 2 ^ e else Z.pos m / 2 ^ (- e) in
      if s then - v else v
  | _ => 0
  end.

(** [uint64(f)]: the integer part of [f] when it is in the range of
    [uint64]; the language leaves the result open when it is not, the
    wrap-around here is one choice. *)
Definition uint64_of_float (f : spec_float) : Z := uint64 (trunc f).

(** ** package time

    A [time.Time] is the number of nanoseconds since a fixed instant; a
    [time.Duration] is an [int64] count of nanoseconds. *)

Definition Hour : Z := 3600000000000.

(** [t.Sub(u)]: the difference, saturated to the range of [Duration]. *)
Definition Time_Sub (t u : Z) : Z :=
  Z.max (- 2 ^ 63) (Z.min (2 ^ 63 - 1) (t - u)).

(** [d.Hours()]. *)
Definition Duration_Hours (d : Z) : spec_float :=
  let hour := Z.quot d Hour in
  let nsec := Z.rem d Hour in
  fadd (float64 hour) (fdiv (float64 nsec) (float64 3600000000000)).

End Go.

(** * crypto/sha256 (FIPS 180-4) *)

Module SHA256.

(** The first 64 primes. *)
Definition primes : list Z :=
  [2; 3; 5; 7; 11; 13; 17; 19; 23; 29; 31; 37; 41; 43; 47; 53; 59; 61; 67;
   71; 73; 79; 83; 89; 97; 101; 103; 107; 109; 113; 127; 131; 137; 139;
   149; 151; 157; 163; 167; 173; 179; 181; 191; 193; 197; 199; 211; 223;
   227; 229; 233; 239; 241; 251; 257; 263; 269; 271; 277; 281; 283; 293;
   307; 311].

(** The integer cube root of a number below 2^105, bit by bit. *)
Definition cube_root (x : Z) : Z :=
  fold_left
    (fun r i => let r' := r + 2 ^ Z.of_nat i in if r' * r' * r' <=? x then r' else r)
    (rev (seq 0 35)) 0.

(** The round constants: the first 32 bits of the fractional parts of
    the cube roots of the primes. *)
Definition K : list Z :=
  Eval vm_compute in map (fun p => cube_root (p * 2 ^ 96) mod 2 ^ 32) primes.

(** The initial hash value: the first 32 bits of the fractional parts of
    the square roots of the first eight primes. *)
Definition H0 : list Z :=
  Eval vm_compute in map (fun p => Z.sqrt (p * 2 ^ 64) mod 2 ^ 32) (firstn 8 primes).

Definition w32 (x : Z) : Z := x mod 2 ^ 32.

Definition rotr (n x : Z) : Z :=
  Z.lor (Z.shiftr x n) (w32 (Z.shiftl x (32 - n))).

Definition Ch (x y z : Z) : Z :=
  Z.lxor (Z.land x y) (Z.land (Z.lxor x 0xffffffff) z).

Definition Maj (x y z : Z) : Z :=
  Z.lxor (Z.lxor (Z.land x y) (Z.land x z)) (Z.land y z).

Definition Sigma0 x := Z.lxor (Z.lxor (rotr 2 x) (rotr 13 x)) (rotr 22 x).
Definition Sigma1 x := Z.lxor (Z.lxor (rotr 6 x) (rotr 11 x)) (rotr 25 x).
Definition sigma0 x := Z.lxor (Z.lxor (rotr 7 x) (rotr 18 x)) (Z.shiftr x 3).
Definition sigma1 x := Z.lxor (Z.lxor (rotr 17 x) (rotr 19 x)) (Z.shiftr x 10).

(** The padded message: the bytes, 0x80, zeros up to 56 modulo 64, and
    the bit length as a 64-bit big-endian integer. *)
Definition be_bytes (n : nat) (x : Z) : list Z :=
  map (fun i => (x / 2 ^ (8 * Z.of_nat i)) mod 256) (rev (seq 0 n)).

Definition pad (m : list Z) : list Z :=
  let l := Z.of_nat (length m) in
  m ++ [128] ++ repeat 0 (Z.to_nat ((55 - l) mod 64)) ++ be_bytes 8 (8 * l).

Fixpoint be_words (bs : list Z) : list Z :=
  match bs with
  | a :: b :: c :: d :: r => (((a * 256 + b) * 256 + c) * 256 + d) :: be_words r
  | _ => []
  end.

(** The message schedule, most recent word first. *)
Fixpoint schedule (n : nat) (w : list Z) : list Z :=
  match n with
  | O => w
  | S n' =>
      let x := w32 (sigma1 (nth 1 w 0) + nth 6 w 0 + sigma0 (nth 14 w 0) + nth 15 w 0) in
      schedule n' (x :: w)
  end.

Definition round (st : list Z) (kw : Z * Z) : list Z :=
  match st with
  | [a; b; c; d; e; f; g; h] =>
      let t1 := w32 (h + Sigma1 e + Ch e f g + fst kw + snd kw) in
      let t2 := w32 (Sigma0 a + Maj a b c) in
      [w32 (t1 + t2); a; b; c; w32 (d + t1); e; f; g]
  | _ => st
  end.

Definition compress (st : list Z) (block : list Z) : list Z :=
  let w := rev (schedule 48 (rev (be_words block))) in
  let st' := fold_left round (combine K w) st in
  map (fun p => w32 (fst p + snd p)) (combine st st').

Fixpoint blocks (n : nat) (st : list Z) (bs : list Z) : list Z :=
  match n with
  | O => st
  | S n' => blocks n' (compress st (firstn 64 bs)) (skipn 64 bs)
  end.

(** [sha256.Sum256], as the 32 bytes of the digest. *)
Definition Sum256 (s : string) : string :=
  let p := pad (Go.codes s) in
  Go.bytes (flat_map (be_bytes 4) (blocks (length p / 64) H0 p)).

(** [hex.EncodeToString(h[:])] of the digest, the form every caller uses. *)
Definition hexdigest (s : string) : string := Go.hex_EncodeToString (Sum256 s).

End SHA256.

(** * Results of fallible Go functions *)

(** The [error] values the core returns.  A constructor stands for one
    [errors.New] or [fmt.Errorf] site; the arguments are the values the
    message is formatted from. *)
Inductive error : Type :=
| ErrHexDecode                       (* the error of hex.DecodeString *)
| ErrInvalidPrivateKeySize           (* "invalid private key size" *)
| ErrInsufficientBalance             (* "insufficient balance" *)
| ErrSenderMissing                   (* "sender wallet does not exist" *)
| ErrReceiverMissing                 (* "receiver wallet does not exist" *)
| ErrSign (e : error)                (* "failed to sign transaction: %v" *)
| ErrSignatureVerification (e : error) (* "signature verification error: %v" *)
| ErrInvalidSignature                (* "invalid signature" *)
| ErrPubKeyMismatch                  (* "public key does not match sender wallet ID" *)
| ErrUTXONotFound (key : string)     (* "UTXO %s not found" *)
| ErrUTXOSpent (key : string)        (* "UTXO %s already spent (double-spend attempt)" *)
| ErrUTXONotOwned (key : string)     (* "UTXO %s not owned by sender" *)
| ErrTotalMismatch (inputTotal outputTotal : Z).
                                     (* "input total (%d) does not match output total (%d)" *)

(** A call returns a value, returns an error, or panics. *)
Inductive result (A : Type) : Type :=
| Ok (a : A)
| Err (e : error)
| Panic.
Arguments Ok {A} a.
Arguments Err {A} e.
Arguments Panic {A}.

#[global] Instance result_ret : MRet result := fun A a => Ok a.

#[global] Instance result_bind : MBind result := fun A B k r =>
  match r with
  | Ok a => k a
  | Err e => Err e
  | Panic => Panic
  end.

(** * Functions of other packages: crypto/ed25519 and encoding/json

    They are not part of the repository; the embedding is parametric in
    them.  [ed25519_Sign priv msg] and [ed25519_Verify pub msg sig] are
    the library functions on keys of the right size (the size checks,
    and the panics of the library on a wrong size, are written out where
    they are called); [json_Marshal_string] is the encoding of a string
    value by [json.Marshal]. *)
Class External : Type := {
  ed25519_Sign : string -> string -> string;
  ed25519_Verify : string -> string -> string -> bool;
  json_Marshal_string : string -> string
}.

(** * Package wallet *)

Module wallet.

Record Wallet : Type := {
  WalletID : string;
  PublicKey : string;
  PrivateKey : string;
  FullName : string;
  Email : string;
  CNIC : string
}.

(** [Store.wallets]; the mutex protects single calls and is not modelled. *)
Definition Store : Type := gmap string Wallet.

Definition NewStore : Store := ∅.

Definition Save (w : Wallet) (s : Store) : Store := <[WalletID w := w]> s.

Definition Get (walletID : string) (s : Store) : option Wallet := s !! walletID.

(** [GetAll] ranges over the map: it returns the wallets in an order the
    language leaves unspecified, and which may differ from call to call. *)
Definition GetAll (s : Store) (wallets : list Wallet) : Prop :=
  wallets ≡ₚ (map_to_list s).*2.

Definition PublicKeySize : Z := 32.
Definition PrivateKeySize : Z := 64.

Definition WalletIDFromPub (pubHex : string) : result string :=
  match Go.hex_DecodeString pubHex with
  | None => Err ErrHexDecode
  | Some b => Ok (String.substring 0 40 (SHA256.hexdigest b))
  end.

Section WithExternal.
Context {ext : External}.

(** [ed25519.Verify] panics when the public key does not have
    [PublicKeySize] bytes. *)
Definition VerifySignature (pubHex message sigHex : string) : result bool :=
  match Go.hex_DecodeString pubHex with
  | None => Err ErrHexDecode
  | Some pub =>
      match Go.hex_DecodeString sigHex with
      | None => Err ErrHexDecode
      | Some sig =>
          if Go.len pub =? PublicKeySize
          then Ok (ed25519_Verify pub message sig)
          else Panic
      end
  end.

Definition SignWithPriv (privHex payload : string) : result string :=
  match Go.hex_DecodeString privHex with
  | None => Err ErrHexDecode
  | Some priv =>
      if negb (Go.len priv =? PrivateKeySize) then Err ErrInvalidPrivateKeySize
      else Ok (Go.hex_EncodeToString (ed25519_Sign priv payload))
  end.

(** [json.Marshal] of a map writes the keys in sorted order; [key k]
    is a quoted key with its colon. *)
Definition key (k : string) : string :=
  Go.bytes [34] +:+ k +:+ Go.bytes [34] +:+ ":".

Definition MarshalPayload (sender receiver : string) (amount timestamp : Z)
    (note : string) : string :=
  "{" +:+ key "amount" +:+ Go.fmt_d amount +:+
  "," +:+ key "note" +:+ json_Marshal_string note +:+
  "," +:+ key "receiver" +:+ json_Marshal_string receiver +:+
  "," +:+ key "sender" +:+ json_Marshal_string sender +:+
  "," +:+ key "timestamp" +:+ Go.fmt_d timestamp +:+ "}".

End WithExternal.

End wallet.

(** * Package blockchain *)

Module blockchain.

Definition MiningReward : Z := 50.   (* Coins rewarded for mining a block *)
Definition FaucetAmount : Z := 1000. (* Initial coins for new wallets *)

(** Modelled from the spec: the constants [ZakatNisab], [ZakatRate] and
    [ZakatIntervalDays] of blockchain/blockchain.go, whose declaration is
    not in the sources at hand; the values are those of the configuration
    guide (500, 0.025 and 30).  [ZakatRate] is used at type [float64]:
    the constant 0.025 becomes the nearest float,
    7205759403792794 * 2^-58. *)
Definition ZakatNisab : Z := 500.
Definition ZakatRate : spec_float := S754_finite false 7205759403792794 (-58).
Definition ZakatIntervalDays : spec_float := Go.float64 30.

Module UTXORef.
Record t : Type := mk {
  TxID : string;
  Index : Z
}.
End UTXORef.

Module UTXO.
Record t : Type := mk {
  ID : string;
  Owner : string;
  Amount : Z;
  OriginTx : string;
  Index : Z;
  Spent : bool
}.

Definition with_ID (id : string) (u : t) : t :=
  mk id (Owner u) (Amount u) (OriginTx u) (Index u) (Spent u).

Definition with_Spent (b : bool) (u : t) : t :=
  mk (ID u) (Owner u) (Amount u) (OriginTx u) (Index u) b.
End UTXO.

Module Transaction.
Record t : Type := mk {
  ID : string;
  SenderID : string;
  ReceiverID : string;
  Amount : Z;
  Note : string;
  Timestamp : Z;
  PubKey : string;
  Signature : string;
  Inputs : list UTXORef.t;
  Outputs : list UTXO.t;
  Type_ : string
}.
End Transaction.

Module Block.
Record t : Type := mk {
  Index : Z;
  Timestamp : Z;
  Transactions : list Transaction.t;
  PreviousHash : string;
  Nonce : Z;
  Hash : string;
  MerkleRoot : string
}.

Definition with_Nonce (n : Z) (b : t) : t :=
  mk (Index b) (Timestamp b) (Transactions b) (PreviousHash b) n (Hash b)
     (MerkleRoot b).

Definition with_Hash (h : string) (b : t) : t :=
  mk (Index b) (Timestamp b) (Transactions b) (PreviousHash b) (Nonce b) h
     (MerkleRoot b).

Definition with_MerkleRoot (r : string) (b : t) : t :=
  mk (Index b) (Timestamp b) (Transactions b) (PreviousHash b) (Nonce b)
     (Hash b) r.
End Block.

(** The lock [mu] serialises the calls; a call is one state transition. *)
Record Blockchain : Type := mkBlockchain {
  Chain : list Block.t;
  Pending : list Transaction.t;
  UTXOs : gmap string UTXO.t;
  DifficultyPref : string
}.

Definition GetPending (bc : Blockchain) : list Transaction.t := Pending bc.

(** One pass of the inner loop of [computeMerkle]: neighbours are hashed
    together, a last hash without neighbour is carried over. *)
Fixpoint merkle_level (hashes : list string) : list string :=
  match hashes with
  | a :: b :: rest => SHA256.hexdigest (a +:+ b) :: merkle_level rest
  | [a] => [a]
  | [] => []
  end.

(** The outer loop, [for len(hashes) > 1]. *)
Equations? merkle_loop (hashes : list string) : list string
  by wf (length hashes) lt :=
  merkle_loop hashes with decide (1 < length hashes)%nat := {
    | left _ => merkle_loop (merkle_level hashes)
    | right _ => hashes
  }.
Proof.
  assert (Hle : forall l : list string, (length (merkle_level l) <= length l)%nat).
  { fix IH 1. intros [|a [|b rest]]; simpl; try lia. specialize (IH rest). lia. }
  destruct hashes as [|a [|b rest]]; simpl in *; try lia.
  specialize (Hle rest). lia.
Qed.

Definition computeMerkle (txs : list Transaction.t) : string :=
  if decide (length txs = 0%nat) then ""
  else
    let hashes := map (fun t => SHA256.hexdigest (Transaction.ID t)) txs in
    hd "" (merkle_loop hashes).

(** [string(b.Index)], [string(b.Timestamp)] and [string(b.Nonce)] are
    conversions of an integer to a string, not decimal formatting. *)
Definition hashBlock (b : Block.t) : string :=
  let txs := map Transaction.ID (Block.Transactions b) in
  let parts :=
    [Go.string_of_rune (Block.Index b);
     Go.string_of_rune (Block.Timestamp b);
     Go.Join (Go.sort_Strings txs) ",";
     Block.PreviousHash b;
     Go.string_of_rune (Block.Nonce b)] in
  SHA256.hexdigest (Go.Join parts "|").

(** [now] is the reading of [time.Now().Unix()]. *)
Definition NewBlockchain (now : Z) : Blockchain :=
  let genesis := Block.mk 0 now [] "0" 0 "" "" in
  let genesis := Block.with_MerkleRoot (computeMerkle (Block.Transactions genesis)) genesis in
  let genesis := Block.with_Hash (hashBlock genesis) genesis in
  mkBlockchain [genesis] [] ∅ "00000".

Definition AddPending (tx : Transaction.t) (bc : Blockchain) : Blockchain :=
  mkBlockchain (Chain bc) (Pending bc ++ [tx]) (UTXOs bc) (DifficultyPref bc).

(** [fmt.Sprintf("%s:%d", txid, index)]. *)
Definition utxoKey (txid : string) (index : Z) : string :=
  txid +:+ ":" +:+ Go.fmt_d index.

Definition coinbaseID (index timestamp : Z) : string :=
  "coinbase-" +:+ Go.fmt_d index +:+ "-" +:+ Go.fmt_d timestamp.

Definition coinbaseTx (index timestamp : Z) (minerWalletID : string) : Transaction.t :=
  Transaction.mk
    (coinbaseID index timestamp)
    "COINBASE"
    minerWalletID
    MiningReward
    ("Mining reward for block #" +:+ Go.fmt_d index)
    timestamp
    "SYSTEM"
    "COINBASE"
    []
    [UTXO.mk "" minerWalletID MiningReward (coinbaseID index timestamp) 0 false]
    "mining_reward".

Definition maxIterations : Z := 10000000.

(** The nonce search: [fuel] counts the iterations that are left. *)
Fixpoint search (fuel : nat) (difficulty : string) (nonce : Z) (b : Block.t) : Block.t :=
  match fuel with
  | O => b
  | S fuel' =>
      let b := Block.with_Nonce nonce b in
      let h := hashBlock b in
      if Go.HasPrefix h difficulty then Block.with_Hash h b
      else search fuel' difficulty (Go.int64 (nonce + 1)) b
  end.

(** The commit of one input: [if ut, ok := bc.UTXOs[key]; ok]. *)
Definition spend (m : gmap string UTXO.t) (input : UTXORef.t) : gmap string UTXO.t :=
  let key := utxoKey (UTXORef.TxID input) (UTXORef.Index input) in
  match m !! key with
  | Some ut => <[key := UTXO.with_Spent true ut]> m
  | None => m
  end.

(** The commit of the outputs of a transaction, from index [idx] on. *)
Fixpoint store (txid : string) (idx : Z) (outs : list UTXO.t)
    (m : gmap string UTXO.t) : gmap string UTXO.t :=
  match outs with
  | [] => m
  | out :: outs' =>
      let key := utxoKey txid idx in
      store txid (idx + 1) outs' (<[key := UTXO.with_ID key out]> m)
  end.

Definition commit_tx (m : gmap string UTXO.t) (tx : Transaction.t) : gmap string UTXO.t :=
  store (Transaction.ID tx) 0 (Transaction.Outputs tx)
    (fold_left spend (Transaction.Inputs tx) m).

Definition commit (txs : list Transaction.t) (m : gmap string UTXO.t) : gmap string UTXO.t :=
  fold_left commit_tx txs m.

(** [Mine]; [now] is the reading of [time.Now().Unix()].  The index
    expression [bc.Chain[len(bc.Chain)-1]] panics on an empty chain. *)
Definition Mine (nonceStart : Z) (minerWalletID : string) (now : Z)
    (bc : Blockchain) : result (Block.t * Blockchain) :=
  let index := Z.of_nat (length (Chain bc)) in
  let transactions := coinbaseTx index now minerWalletID :: Pending bc in
  match last (Chain bc) with
  | None => Panic
  | Some prev =>
      let b := Block.mk index now transactions (Block.Hash prev) 0 ""
                 (computeMerkle transactions) in
      let b := search (Z.to_nat maxIterations) (DifficultyPref bc) nonceStart b in
      let b := if String.eqb (Block.Hash b) "" then Block.with_Hash (hashBlock b) b else b in
      Ok (b, mkBlockchain (Chain bc ++ [b]) []
               (commit (Block.Transactions b) (UTXOs bc)) (DifficultyPref bc))
  end.

(** [GetBalance] ranges over the map; [balance_over] is the loop for one
    order of visit.  The sum does not depend on the order
    ([balance_over_Permutation] below). *)
Definition balance_over (walletID : string) (visit : list (string * UTXO.t)) : Z :=
  fold_left
    (fun sum kv =>
       if String.eqb (UTXO.Owner kv.2) walletID && negb (UTXO.Spent kv.2)
       then Go.uint64 (sum + UTXO.Amount kv.2) else sum)
    visit 0.

Definition GetBalance (walletID : string) (bc : Blockchain) : Z :=
  balance_over walletID (map_to_list (UTXOs bc)).

Definition faucetOrigin (walletID : string) (timestamp : Z) : string :=
  "faucet-" +:+ walletID +:+ "-" +:+ Go.fmt_d timestamp.

(** [CreateFaucetUTXO]; [now] is the reading of [time.Now().Unix()]. *)
Definition CreateFaucetUTXO (walletID : string) (now : Z) (bc : Blockchain)
    : UTXO.t * Blockchain :=
  let utxoID := faucetOrigin walletID now +:+ ":0" in
  let faucetUTXO :=
    UTXO.mk utxoID walletID FaucetAmount (faucetOrigin walletID now) 0 false in
  (faucetUTXO,
   mkBlockchain (Chain bc) (Pending bc) (<[utxoID := faucetUTXO]> (UTXOs bc))
     (DifficultyPref bc)).

End blockchain.

(** * Package services *)

Module services.

Import blockchain.

(** What one call takes from its environment: the choices of the runtime
    and the readings of the clock, [time.Now().UnixNano()] and
    [time.Now().Unix()]. *)
Record Env : Type := {
  runtime : Go.Runtime;
  UnixNano : Z;
  Unix : Z
}.

(** ** TransactionService; its fields [bc] and [ws] are passed to the
    methods. *)

(** [available[i].Amount > available[j].Amount]. *)
Definition less (a b : UTXO.t) : bool := UTXO.Amount b <? UTXO.Amount a.

(** The selection loop. *)
Fixpoint accumulate (amount : Z) (available selected : list UTXO.t) (total : Z)
    : list UTXO.t * Z :=
  match available with
  | [] => (selected, total)
  | utxo :: available' =>
      if amount <=? total then (selected, total)
      else accumulate amount available' (selected ++ [utxo])
             (Go.uint64 (total + UTXO.Amount utxo))
  end.

Definition SelectUTXOs (rt : Go.Runtime) (bc : Blockchain) (walletID : string)
    (amount : Z) : result (list UTXO.t * Z) :=
  let available :=
    List.filter
      (fun utxo => String.eqb (UTXO.Owner utxo) walletID && negb (UTXO.Spent utxo))
      (Go.range rt (UTXOs bc)).*2 in
  let available := Go.sort_Slice rt less available in
  let '(selected, total) := accumulate amount available [] 0 in
  if total <? amount then Err ErrInsufficientBalance
  else Ok (selected, total).

Definition inputs_of (selectedUTXOs : list UTXO.t) : list UTXORef.t :=
  map (fun utxo => UTXORef.mk (UTXO.OriginTx utxo) (UTXO.Index utxo)) selectedUTXOs.

(** The outputs of a transfer or of a levy: [amount] to [receiver] and the
    change, when there is some, back to [sender]. *)
Definition outputs_of (txID receiver sender : string) (amount total : Z) : list UTXO.t :=
  let outputs := [UTXO.mk "" receiver amount txID 0 false] in
  let change := Go.uint64 (total - amount) in
  if 0 <? change then outputs ++ [UTXO.mk "" sender change txID 1 false]
  else outputs.

Section WithExternal.
Context {ext : External}.

Definition CreateTransaction (env : Env) (bc : Blockchain) (ws : wallet.Store)
    (senderID receiverID : string) (amount : Z) (note pubKey privKey : string)
    : result Transaction.t :=
  match wallet.Get senderID ws with
  | None => Err ErrSenderMissing
  | Some _ =>
      match wallet.Get receiverID ws with
      | None => Err ErrReceiverMissing
      | Some _ =>
          sel ← SelectUTXOs (runtime env) bc senderID amount;
          let '(selectedUTXOs, total) := sel in
          let txID := "tx-" +:+ Go.fmt_d (UnixNano env) in
          let timestamp := Unix env in
          let inputs := inputs_of selectedUTXOs in
          let outputs := outputs_of txID receiverID senderID amount total in
          let payload := wallet.MarshalPayload senderID receiverID amount timestamp note in
          match wallet.SignWithPriv privKey payload with
          | Err e => Err (ErrSign e)
          | Panic => Panic
          | Ok signature =>
              Ok (Transaction.mk txID senderID receiverID amount note timestamp
                    pubKey signature inputs outputs "transfer")
          end
      end
  end.

(** The first loop of [ValidateTransaction]. *)
Fixpoint check_inputs (m : gmap string UTXO.t) (senderID : string)
    (inputs : list UTXORef.t) : result unit :=
  match inputs with
  | [] => Ok tt
  | input :: inputs' =>
      let key := utxoKey (UTXORef.TxID input) (UTXORef.Index input) in
      match m !! key with
      | None => Err (ErrUTXONotFound key)
      | Some utxo =>
          if UTXO.Spent utxo then Err (ErrUTXOSpent key)
          else if negb (String.eqb (UTXO.Owner utxo) senderID) then Err (ErrUTXONotOwned key)
          else check_inputs m senderID inputs'
      end
  end.

(** The second loop; a key that is not in the map reads as the zero
    [UTXO]. *)
Definition input_total (m : gmap string UTXO.t) (inputs : list UTXORef.t) : Z :=
  fold_left
    (fun total input =>
       let key := utxoKey (UTXORef.TxID input) (UTXORef.Index input) in
       Go.uint64 (total + default 0 (UTXO.Amount <$> m !! key)))
    inputs 0.

Definition output_total (outputs : list UTXO.t) : Z :=
  fold_left (fun total output => Go.uint64 (total + UTXO.Amount output)) outputs 0.

(** [ValidateTransaction] reads the ledger and returns [nil] ([Ok tt])
    or an error; it writes nothing. *)
Definition ValidateTransaction (bc : Blockchain) (tx : Transaction.t) : result unit :=
  let payload :=
    wallet.MarshalPayload (Transaction.SenderID tx) (Transaction.ReceiverID tx)
      (Transaction.Amount tx) (Transaction.Timestamp tx) (Transaction.Note tx) in
  match wallet.VerifySignature (Transaction.PubKey tx) payload (Transaction.Signature tx) with
  | Err e => Err (ErrSignatureVerification e)
  | Panic => Panic
  | Ok false => Err ErrInvalidSignature
  | Ok true =>
      expectedWalletID ← wallet.WalletIDFromPub (Transaction.PubKey tx);
      if negb (String.eqb expectedWalletID (Transaction.SenderID tx))
      then Err ErrPubKeyMismatch
      else
        _ ← check_inputs (UTXOs bc) (Transaction.SenderID tx) (Transaction.Inputs tx);
        let inputTotal := input_total (UTXOs bc) (Transaction.Inputs tx) in
        let outputTotal := output_total (Transaction.Outputs tx) in
        if negb (inputTotal =? outputTotal)
        then Err (ErrTotalMismatch inputTotal outputTotal)
        else Ok tt
  end.

End WithExternal.

Definition zakatPoolWallet : string := "ZAKAT_POOL".

Definition CreateZakatTransaction (env : Env) (bc : Blockchain) (walletID : string)
    (zakatAmount : Z) : result Transaction.t :=
  sel ← SelectUTXOs (runtime env) bc walletID zakatAmount;
  let '(selectedUTXOs, total) := sel in
  let txID := "zakat-" +:+ Go.fmt_d (UnixNano env) in
  let timestamp := Unix env in
  let inputs := inputs_of selectedUTXOs in
  let outputs := outputs_of txID zakatPoolWallet walletID zakatAmount total in
  Ok (Transaction.mk txID walletID zakatPoolWallet zakatAmount
        "Monthly Zakat Deduction (2.5%)" timestamp "system" "system"
        inputs outputs "zakat_deduction").

(** ** ZakatService (the version with the Nisab threshold); the database
    is absent ([db == nil]), the ticker is not modelled. *)

Record ZakatService : Type := mkZakatService {
  bc : Blockchain;
  ws : wallet.Store;
  lastProcessed : gmap string Z;
  nisabThreshold : Z
}.

Definition NewZakatService (bc : Blockchain) (ws : wallet.Store) : ZakatService :=
  mkZakatService bc ws ∅ ZakatNisab.

(** [now.Sub(lastProcessed).Hours() / 24 < blockchain.ZakatIntervalDays]. *)
Definition within_interval (now last : Z) : bool :=
  let daysSinceLastDeduction :=
    Go.fdiv (Go.Duration_Hours (Go.Time_Sub now last)) (Go.float64 24) in
  Go.flt daysSinceLastDeduction ZakatIntervalDays.

(** [uint64(float64(balance) * blockchain.ZakatRate)]. *)
Definition zakat_of (balance : Z) : Z :=
  Go.uint64_of_float (Go.fmul (Go.float64 balance) ZakatRate).

(** A log line that prints [w.WalletID[:16]]: the slice expression panics
    on an identifier shorter than 16 bytes. *)
Definition logged {A : Type} (walletID : string) (a : A) : result A :=
  match Go.slice_to walletID 16 with
  | Some _ => Ok a
  | None => Panic
  end.

(** The body of the loop of [ProcessMonthlyZakat] for one wallet. *)
Definition process_wallet (now : Z) (env : Env) (w : wallet.Wallet)
    (zs : ZakatService) : result ZakatService :=
  let id := wallet.WalletID w in
  if String.eqb id "ZAKAT_POOL" || String.eqb id "COINBASE" then Ok zs
  else
    let recent :=
      match lastProcessed zs !! id with
      | Some last => within_interval now last
      | None => false
      end in
    if recent then Ok zs
    else
      let balance := GetBalance id (bc zs) in
      if balance <? nisabThreshold zs then logged id zs
      else
        let zakatAmount := zakat_of balance in
        if zakatAmount =? 0 then Ok zs
        else
          match CreateZakatTransaction env (bc zs) id zakatAmount with
          | Err _ => logged id zs
          | Panic => Panic
          | Ok tx =>
              logged id
                (mkZakatService (AddPending tx (bc zs)) (ws zs)
                   (<[id := now]> (lastProcessed zs)) (nisabThreshold zs))
          end.

(** The loop over the wallets; the [i]-th iteration runs in [envs i]. *)
Fixpoint process_wallets (now : Z) (envs : nat -> Env) (i : nat)
    (wallets : list wallet.Wallet) (zs : ZakatService) : result ZakatService :=
  match wallets with
  | [] => Ok zs
  | w :: wallets' =>
      zs' ← process_wallet now (envs i) w zs;
      process_wallets now envs (S i) wallets' zs'
  end.

(** [ProcessMonthlyZakat]: [rt] orders the wallets of [GetAll], [now] is
    the reading of [time.Now()] at the start and [mineNow] the reading
    taken by [Mine]. *)
Definition ProcessMonthlyZakat (rt : Go.Runtime) (now : Z) (envs : nat -> Env)
    (mineNow : Z) (zs : ZakatService) : result ZakatService :=
  let wallets := (Go.range rt (ws zs)).*2 in
  zs' ← process_wallets now envs 0 wallets zs;
  if (0 <? length (GetPending (bc zs')))%nat then
    mined ← Mine 0 "ZAKAT_POOL" mineNow (bc zs');
    Ok (mkZakatService mined.2 (ws zs') (lastProcessed zs') (nisabThreshold zs'))
  else Ok zs'.

End services.

(** * Notions used in the statements *)

Import blockchain services.

(** The ledgers that the operations of [Blockchain] build from a new one. *)
Inductive reachable : Blockchain -> Prop :=
| reachable_New (now : Z) :
    reachable (NewBlockchain now)
| reachable_AddPending (tx : Transaction.t) (bc : Blockchain) :
    reachable bc -> reachable (AddPending tx bc)
| reachable_Mine (nonceStart : Z) (miner : string) (now : Z) (bc : Blockchain)
    (b : Block.t) (bc' : Blockchain) :
    reachable bc -> Mine nonceStart miner now bc = Ok (b, bc') -> reachable bc'
| reachable_Faucet (walletID : string) (now : Z) (bc : Blockchain) :
    reachable bc -> reachable (CreateFaucetUTXO walletID now bc).2.

(** The transactions of the sealed blocks. *)
Definition sealed (bc : Blockchain) : list Transaction.t :=
  flat_map Block.Transactions (Chain bc).

(** No pair [(TxID, Index)] is an input of two different sealed
    transactions. *)
Definition no_double_spend (bc : Blockchain) : Prop :=
  forall (tx1 tx2 : Transaction.t) (input : UTXORef.t),
    tx1 ∈ sealed bc -> tx2 ∈ sealed bc ->
    input ∈ Transaction.Inputs tx1 -> input ∈ Transaction.Inputs tx2 ->
    tx1 = tx2.

Definition key_of (input : UTXORef.t) : string :=
  utxoKey (UTXORef.TxID input) (UTXORef.Index input).

(** The keys under which [store] writes the outputs of a transaction, and
    those the commit of a list of transactions writes and marks. *)
Fixpoint store_keys (txid : string) (idx : Z) (outs : list UTXO.t) : list string :=
  match outs with
  | [] => []
  | _ :: outs' => utxoKey txid idx :: store_keys txid (idx + 1) outs'
  end.

Definition output_keys (txs : list Transaction.t) : list string :=
  flat_map (fun tx => store_keys (Transaction.ID tx) 0 (Transaction.Outputs tx)) txs.

Definition input_keys (txs : list Transaction.t) : list string :=
  flat_map (fun tx => map key_of (Transaction.Inputs tx)) txs.

(** The nonce of the [k]-th iteration of the search. *)
Definition nonce_at (nonceStart : Z) (k : nat) : Z :=
  Nat.iter k (fun n => Go.int64 (n + 1)) nonceStart.

(** Whether the block [b] with nonce [n] meets the difficulty. *)
Definition conforming (difficulty : string) (b : Block.t) (n : Z) : bool :=
  Go.HasPrefix (hashBlock (Block.with_Nonce n b)) difficulty.

(** The block [Mine] starts the search from. *)
Definition candidate (minerWalletID : string) (now : Z) (bc : Blockchain) : Block.t :=
  let index := Z.of_nat (length (Chain bc)) in
  let transactions := coinbaseTx index now minerWalletID :: Pending bc in
  Block.mk index now transactions
    (default "" (Block.Hash <$> last (Chain bc))) 0 "" (computeMerkle transactions).

(** A transaction that is nothing but an identifier. *)
Definition tx_with_id (id : string) : Transaction.t :=
  Transaction.mk id "" "" 0 "" 0 "" "" [] [] "".

(** A ledger in which one faucet output is spent twice: two transfers of
    the same output wait in the pool when a block is sealed. *)
Definition spend_twice_tx1 : Transaction.t :=
  Transaction.mk "tx-1" "alice" "bob" 1000 "" 1 "" ""
    [UTXORef.mk "faucet-alice-0" 0] [UTXO.mk "" "bob" 1000 "tx-1" 0 false] "transfer".

Definition spend_twice_tx2 : Transaction.t :=
  Transaction.mk "tx-2" "alice" "carol" 1000 "" 2 "" ""
    [UTXORef.mk "faucet-alice-0" 0] [UTXO.mk "" "carol" 1000 "tx-2" 0 false] "transfer".

Definition spend_twice_pool : Blockchain :=
  AddPending spend_twice_tx2
    (AddPending spend_twice_tx1 (CreateFaucetUTXO "alice" 0 (NewBlockchain 0)).2).

(** Whether an output counts for [walletID]: the test of [GetBalance] and
    of [SelectUTXOs]. *)
Definition owned (walletID : string) (utxo : UTXO.t) : bool :=
  String.eqb (UTXO.Owner utxo) walletID && negb (UTXO.Spent utxo).

(** The unspent outputs of [walletID], in the order of [map_to_list]. *)
Definition unspent_of (walletID : string) (bc : Blockchain) : list UTXO.t :=
  List.filter (owned walletID) (map_to_list (UTXOs bc)).*2.

(** The exact sum of the amounts of a list of outputs. *)
Definition total_of (l : list UTXO.t) : Z :=
  foldr Z.add 0 (map UTXO.Amount l).

(** The [uint64] running total of the loops, from [start]. *)
Definition running_total (start : Z) (l : list UTXO.t) : Z :=
  fold_left (fun total utxo => Go.uint64 (total + UTXO.Amount utxo)) l start.

(** A ledger on which the faucet is called twice for one wallet within
    one second. *)
Definition faucet_once : Blockchain :=
  (CreateFaucetUTXO "alice" 0 (NewBlockchain 0)).2.

Definition faucet_twice : Blockchain :=
  (CreateFaucetUTXO "alice" 0 faucet_once).2.

(** The amounts of a selection, and its total. *)
#[global] Instance result_fmap : FMap result := fun A B f r =>
  match r with
  | Ok a => Ok (f a)
  | Err e => Err e
  | Panic => Panic
  end.

Definition amounts_of (r : result (list UTXO.t * Z)) : result (list Z * Z) :=
  (fun sel => (map UTXO.Amount sel.1, sel.2)) <$> r.

(** A ledger in which a wallet owns two outputs of the same amount. *)
Definition ties_utxos : gmap string UTXO.t :=
  <["coinbase-1-1:0" := UTXO.mk "coinbase-1-1:0" "alice" 50 "coinbase-1-1" 0 false]>
    (<["coinbase-2-2:0" := UTXO.mk "coinbase-2-2:0" "alice" 50 "coinbase-2-2" 0 false]> ∅).

Definition ties : Blockchain := mkBlockchain [] [] ties_utxos "00000".

(** The slice [SelectUTXOs] selects from: the unspent outputs of the wallet
    in the order the runtime visits the map, sorted by [sort.Slice]. *)
Definition available (rt : Go.Runtime) (bc : Blockchain) (walletID : string) : list UTXO.t :=
  Go.sort_Slice rt less
    (List.filter (owned walletID) (Go.range rt (UTXOs bc)).*2).

(** Descending by amount. *)
Definition descending (a b : UTXO.t) : Prop := UTXO.Amount b <= UTXO.Amount a.

(** A wallet with outputs of 70, 30 and 10, and a second wallet. *)
Definition scenario_utxos : gmap string UTXO.t :=
  <["t1:0" := UTXO.mk "t1:0" "alice" 30 "t1" 0 false]>
    (<["t2:0" := UTXO.mk "t2:0" "alice" 70 "t2" 0 false]>
       (<["t3:0" := UTXO.mk "t3:0" "alice" 10 "t3" 0 false]>
          (<["t4:0" := UTXO.mk "t4:0" "bob" 100 "t4" 0 false]> ∅))).

Definition scenario : Blockchain := mkBlockchain [] [] scenario_utxos "00000".

Definition scenario_wallets : wallet.Store :=
  wallet.Save (wallet.Build_Wallet "alice" "" "" "" "" "")
    (wallet.Save (wallet.Build_Wallet "bob" "" "" "" "" "") wallet.NewStore).

(** An instance of the external functions on which the model computes:
    it signs with the empty signature and accepts every signature. *)
Definition external0 : External :=
  {| ed25519_Sign := fun _ _ => "";
     ed25519_Verify := fun _ _ _ => true;
     json_Marshal_string := fun s => s |}.

Definition env0 : Env := {| runtime := Go.runtime0; UnixNano := 1; Unix := 1 |}.

(** A private key of the right size: 64 zero bytes in hexadecimal. *)
Definition zero_key : string :=
  Go.hex_EncodeToString (Go.bytes (repeat 0 64)).

(** [tx] with two more outputs of 2^63 each. *)
Definition inflate (tx : Transaction.t) : Transaction.t :=
  Transaction.mk (Transaction.ID tx) (Transaction.SenderID tx) (Transaction.ReceiverID tx)
    (Transaction.Amount tx) (Transaction.Note tx) (Transaction.Timestamp tx)
    (Transaction.PubKey tx) (Transaction.Signature tx) (Transaction.Inputs tx)
    (Transaction.Outputs tx ++
       [UTXO.mk "" (Transaction.SenderID tx) (2 ^ 63) (Transaction.ID tx) 1 false;
        UTXO.mk "" (Transaction.SenderID tx) (2 ^ 63) (Transaction.ID tx) 2 false])
    (Transaction.Type_ tx).

(** A public key of the right size, 32 zero bytes in hexadecimal, the
    wallet it identifies, a ledger in which that wallet owns one output of
    10, and a transfer of that output. *)
Definition zero_pub : string :=
  Go.hex_EncodeToString (Go.bytes (repeat 0 32)).

Definition zero_wallet : string := "66687aadf862bd776c8fc18b8e9f8e2008971485".

Definition ten : Blockchain :=
  mkBlockchain [] []
    (<["t:0" := UTXO.mk "t:0" zero_wallet 10 "t" 0 false]> ∅) "00000".

Definition spend_ten : Transaction.t :=
  Transaction.mk "tx-1" zero_wallet "bob" 10 "" 1 zero_pub ""
    [UTXORef.mk "t" 0] [UTXO.mk "" "bob" 10 "tx-1" 0 false] "transfer".

(** The ledger [bc] with [levies] added to the pool. *)
Definition add_levies (levies : list Transaction.t) (bc : Blockchain) : Blockchain :=
  mkBlockchain (Chain bc) (Pending bc ++ levies) (UTXOs bc) (DifficultyPref bc).

(** A wallet identifier of forty characters, and services over ledgers in
    which that wallet owns one output: of 400, of 1000, and of
    7205759403792799. *)
Definition wallet40 : string := "0123456789abcdef0123456789abcdef01234567".

Definition holding (amount : Z) : Blockchain :=
  mkBlockchain [] [] (<["t:0" := UTXO.mk "t:0" wallet40 amount "t" 0 false]> ∅) "00000".

Definition service (amount : Z) : ZakatService :=
  NewZakatService (holding amount)
    (wallet.Save (wallet.Build_Wallet wallet40 "" "" "" "" "") wallet.NewStore).

(** * Further code of the repository *)

(** ** Package crypto (crypto/encryption.go)

    AES-GCM and base64 belong to the standard library of the language;
    the embedding is parametric in them. *)

Module crypto.

(** [gcm_Seal key nonce plaintext] is [gcm.Seal(nil, nonce, plaintext,
  nil)] for the cipher of [key], and [gcm_Open] is [gcm.Open]; [None]
  stands for an error. *)
Class Cipher : Type := {
gcm_Seal : string -> string -> string -> string;
gcm_Open : string -> string -> string -> option string;
base64_EncodeToString : string -> string;
base64_DecodeString : string -> option string
}.

Inductive failure : Type :=
| ErrKeySize            (* the error of aes.NewCipher *)
| ErrBase64             (* the error of base64 DecodeString *)
| ErrCiphertextTooShort (* "ciphertext too short" *)
| ErrOpen.              (* the error of gcm.Open *)

(** [deriveKey]: the passphrase padded with zero bytes, or truncated, to
  32 bytes. *)
Definition deriveKey (passphrase : string) : string :=
if (String.length passphrase <? 32)%nat
then passphrase +:+ Go.bytes (repeat 0 (32 - String.length passphrase))
else String.substring 0 32 passphrase.

(** [aes.NewCipher] accepts keys of 16, 24 and 32 bytes. *)
Definition aes_NewCipher (key : string) : bool :=
let n := String.length key in
(n =? 16)%nat || (n =? 24)%nat || (n =? 32)%nat.

(** [gcm.NonceSize()]. *)
Definition NonceSize : nat := 12.

Section WithCipher.
Context {cipher : Cipher}.

(** [EncryptPrivateKey]; [nonce] is what is read from [rand.Reader] (a
failure of the reader is not modelled, and [cipher.NewGCM] does not
fail on an AES cipher).  [gcm.Seal(nonce, nonce, plaintext, nil)]
appends to the nonce. *)
Definition EncryptPrivateKey (nonce plaintext passphrase : string) : failure + string :=
  let key := deriveKey passphrase in
  if negb (aes_NewCipher key) then inl ErrKeySize
  else
let ciphertext := nonce +:+ gcm_Seal key nonce plaintext in
inr (base64_EncodeToString ciphertext).

Definition DecryptPrivateKey (encryptedText passphrase : string) : failure + string :=
  let key := deriveKey passphrase in
  match base64_DecodeString encryptedText with
  | None => inl ErrBase64
  | Some ciphertext =>
  if negb (aes_NewCipher key) then inl ErrKeySize
  else if (String.length ciphertext <? NonceSize)%nat then inl ErrCiphertextTooShort
  else
    let nonce := String.substring 0 NonceSize ciphertext in
    let ciphertext :=
      String.substring NonceSize (String.length ciphertext - NonceSize) ciphertext in
    match gcm_Open key nonce ciphertext with
    | None => inl ErrOpen
    | Some plaintext => inr plaintext
    end
  end.

End WithCipher.

End crypto.

(** ** Package wallet, continued: the functions that call package crypto *)

Module keystore.

Section WithCipher.
Context {cipher : crypto.Cipher}.

(** The passphrase: [getenv] is the value of the variable ENCRYPTION_KEY
in the environment. *)
Definition encryptionKey (getenv : string) : string :=
  if String.eqb getenv EmptyString then "DefaultKey12345678901234567890" else getenv.

(** What [CreateFromPub] returns: the wallet, with the store after, or
the error of the decoding or of the encryption. *)
Inductive outcome : Type :=
| Created (w : wallet.Wallet) (s : wallet.Store)
| BadPublicKey (e : error)
| NotEncrypted (f : crypto.failure).

Definition CreateFromPub (getenv nonce : string) (pubHex privHex name email cnic : string)
(s : wallet.Store) : outcome :=
  match wallet.WalletIDFromPub pubHex with
  | Ok wid =>
  match crypto.EncryptPrivateKey nonce privHex (encryptionKey getenv) with
  | inl f => NotEncrypted f
  | inr encryptedPrivKey =>
      let w := wallet.Build_Wallet wid pubHex encryptedPrivKey name email cnic in
      Created w (wallet.Save w s)
  end
  | Err e => BadPublicKey e
  | Panic => BadPublicKey ErrHexDecode (* [WalletIDFromPub] does not panic *)
  end.

Definition DecryptPrivateKey (getenv : string) (encryptedPrivKey : string)
: crypto.failure + string :=
  crypto.DecryptPrivateKey encryptedPrivKey (encryptionKey getenv).

End WithCipher.

End keystore.

(** ** Package api (api/server.go)

    A handler is given the request as it is decoded from the body; it
    returns the status of the answer with the store and the ledger after
    it.  The database is absent ([db == nil]); the logs are not modelled. *)

Module api.

(** The test of [isHexString] on one character. *)
Definition is_hex (c : ascii) : bool :=
let n := Go.code c in
((48 <=? n) && (n <=? 57)) || ((97 <=? n) && (n <=? 102)) || ((65 <=? n) && (n <=? 70)).

(** [isHexString]: the loop ranges over the runes of [s]; a byte below 128
  is a rune of its own and every other rune is at least 128, so the test
  fails exactly when some byte is not a hexadecimal digit. *)
Definition isHexString (s : string) : bool :=
forallb is_hex (list_ascii_of_string s) && (0 <? String.length s)%nat.

Record CreateWalletRequest : Type := {
Public : string;
Private : string;
Name : string;
Email : string;
CNIC : string
}.

Record SendRequest : Type := {
SenderID : string;
ReceiverID : string;
Amount : Z;
Note : string;
PrivateKey : string
}.

Section WithExternal.
Context {ext : External} {cipher : crypto.Cipher}.

(** [handleCreateWallet]; [now] is the reading of the clock by the
faucet, [nonce] what the encryption reads from [rand.Reader]. *)
Definition handleCreateWallet (getenv nonce : string) (now : Z)
(req : CreateWalletRequest) (ws : wallet.Store) (bc : blockchain.Blockchain)
: Z * wallet.Store * blockchain.Blockchain :=
  if String.eqb (Email req) EmptyString then (400, ws, bc)
  else
match keystore.CreateFromPub getenv nonce (Public req) (Private req) (Name req)
        (Email req) (CNIC req) ws with
| keystore.Created wobj ws' =>
    let '(faucetUTXO, bc') := blockchain.CreateFaucetUTXO (wallet.WalletID wobj) now bc in
    (200, ws', bc')
| _ => (400, ws, bc)
end.

(** [handleSend]. *)
Definition handleSend (getenv : string) (env : services.Env) (req : SendRequest)
(ws : wallet.Store) (bc : blockchain.Blockchain) : result (Z * blockchain.Blockchain) :=
  match wallet.Get (SenderID req) ws with
  | None => Ok (404, bc)
  | Some sender =>
  let privateKey := PrivateKey req in
  let decrypted :=
    if (128 <? Go.len privateKey) || negb (isHexString privateKey)
    then keystore.DecryptPrivateKey getenv privateKey
    else inr privateKey in
  match decrypted with
  | inl _ => Ok (400, bc)
  | inr privateKey =>
      match services.CreateTransaction env bc ws (SenderID req) (ReceiverID req)
              (Amount req) (Note req) (wallet.PublicKey sender) privateKey with
      | Err _ => Ok (400, bc)
      | Panic => Panic
      | Ok tx =>
          match services.ValidateTransaction bc tx with
          | Err _ => Ok (400, bc)
          | Panic => Panic
          | Ok _ => Ok (200, blockchain.AddPending tx bc)
          end
      end
  end
  end.

End WithExternal.

End api.

(** ** services/zakat_service.go: [ProcessMonthlyZakat] without threshold,
    interval and record of the last levy. *)

Module zakat_service.

Import blockchain services.

Definition process_wallet (env : Env) (w : wallet.Wallet) (bc : Blockchain) : Blockchain :=
let id := wallet.WalletID w in
if String.eqb id "ZAKAT_POOL" then bc
else
  let balance := GetBalance id bc in
  if balance =? 0 then bc
  else
    let zakatAmount := Go.uint64_of_float (Go.fmul (Go.float64 balance) ZakatRate) in
    if zakatAmount =? 0 then bc
    else
      match CreateZakatTransaction env bc id zakatAmount with
      | Ok tx => AddPending tx bc
      | _ => bc
      end.

Fixpoint process_wallets (envs : nat -> Env) (i : nat) (wallets : list wallet.Wallet)
  (bc : Blockchain) : Blockchain :=
match wallets with
| [] => bc
| w :: wallets' => process_wallets envs (S i) wallets' (process_wallet (envs i) w bc)
end.

Definition ProcessMonthlyZakat (rt : Go.Runtime) (envs : nat -> Env) (mineNow : Z)
  (ws : wallet.Store) (bc : Blockchain) : result Blockchain :=
let wallets := (Go.range rt ws).*2 in
let bc' := process_wallets envs 0 wallets bc in
if (0 <? length (GetPending bc'))%nat then
  mined ← Mine 0 "ZAKAT_POOL" mineNow bc';
  Ok mined.2
else Ok bc'.

End zakat_service.

(** ** Notions used in the further statements *)

Import blockchain services.

(** The key pair [(pub, priv)] signs and verifies. *)
Definition ed25519_correct {ext : External} (pub priv : string) : Prop :=
  forall msg, ed25519_Verify pub msg (ed25519_Sign priv msg) = true.

(** Every output is stored under the key made of its origin and index. *)
Definition well_keyed (m : gmap string UTXO.t) : Prop :=
  forall key utxo, m !! key = Some utxo ->
    key = utxoKey (UTXO.OriginTx utxo) (UTXO.Index utxo).

(** A lowercase hexadecimal digit. *)
Definition is_hex_lower (c : ascii) : bool :=
  let n := Go.code c in
  ((48 <=? n) && (n <=? 57)) || ((97 <=? n) && (n <=? 102)).

(** The blocks of a chain are linked: a block's index is its position, its
    hash is the hash of its contents, its Merkle root is that of its
    transactions, and it names the hash of the block before it. *)
Definition linked (chain : list Block.t) : Prop :=
  forall (i : nat) (b : Block.t), chain !! i = Some b ->
    Block.Index b = Z.of_nat i /\
    Block.Hash b = hashBlock b /\
    Block.MerkleRoot b = computeMerkle (Block.Transactions b) /\
    match i with
    | O => Block.PreviousHash b = "0" /\ Block.Transactions b = []
    | S j =>
        (exists prev, chain !! j = Some prev /\ Block.PreviousHash b = Block.Hash prev) /\
        (exists reward rest,
           Block.Transactions b = reward :: rest /\
           Transaction.Inputs reward = [] /\
           Transaction.Amount reward = MiningReward)
    end.

(** An integer that [string(n)] does not encode as itself. *)
Definition not_a_rune (n : Z) : Prop :=
  n < 0 \/ 1114111 < n \/ 55296 <= n <= 57343.

(** What an output says of itself, apart from its identifier and from
    whether it is spent. *)
Definition content (u : UTXO.t) : string * Z * string * Z :=
  (UTXO.Owner u, UTXO.Amount u, UTXO.OriginTx u, UTXO.Index u).

(** The outputs of a transaction name the transaction as their origin and
    their position as their index. *)
Definition well_formed (tx : Transaction.t) : Prop :=
  forall (i : nat) (out : UTXO.t), Transaction.Outputs tx !! i = Some out ->
    UTXO.OriginTx out = Transaction.ID tx /\ UTXO.Index out = Z.of_nat i.

(** The ledgers that the handlers and the levy build from a new one: the
    faucet, transfers made by [CreateTransaction], levies made by
    [CreateZakatTransaction], and [Mine]. *)
Inductive built {ext : External} : Blockchain -> Prop :=
| built_New (now : Z) :
    built (NewBlockchain now)
| built_Faucet (walletID : string) (now : Z) (bc : Blockchain) :
    built bc -> built (CreateFaucetUTXO walletID now bc).2
| built_Transfer (env : Env) (ws : wallet.Store) (senderID receiverID : string)
    (amount : Z) (note pubKey privKey : string) (tx : Transaction.t) (bc : Blockchain) :
    built bc ->
    CreateTransaction env bc ws senderID receiverID amount note pubKey privKey = Ok tx ->
    built (AddPending tx bc)
| built_Levy (env : Env) (walletID : string) (zakatAmount : Z) (tx : Transaction.t)
    (bc : Blockchain) :
    built bc ->
    CreateZakatTransaction env bc walletID zakatAmount = Ok tx ->
    built (AddPending tx bc)
| built_Mine (nonceStart : Z) (miner : string) (now : Z) (bc : Blockchain)
    (b : Block.t) (bc' : Blockchain) :
    built bc -> Mine nonceStart miner now bc = Ok (b, bc') -> built bc'.

(** The wallet [id] is due at [now] in the service [zs]: it is not a
    system wallet and it was not levied within the interval. *)
Definition due (now : Z) (zs : ZakatService) (id : string) : Prop :=
  id <> "ZAKAT_POOL" /\ id <> "COINBASE" /\
  forall last, lastProcessed zs !! id = Some last -> within_interval now last = false.

(** The levies a tick adds are justified: [tx] takes the levy of the
    balance of a due wallet at or above the threshold. *)
Definition justified (now : Z) (zs : ZakatService) (tx : Transaction.t) : Prop :=
  let id := Transaction.SenderID tx in
  due now zs id /\
  nisabThreshold zs <= GetBalance id (bc zs) /\
  Transaction.Amount tx = zakat_of (GetBalance id (bc zs)) /\
  Transaction.Amount tx <> 0 /\
  Transaction.ReceiverID tx = "ZAKAT_POOL" /\
  Transaction.Type_ tx = "zakat_deduction" /\
  (16 <= String.length id)%nat.

(** The wallet [id] holds between 40 and 2^52 in outputs that [uint64]
    amounts describe. *)
Definition holds_funds (id : string) (bc : Blockchain) : Prop :=
  (forall u, u ∈ unspent_of id bc -> 0 <= UTXO.Amount u) /\
  40 <= total_of (unspent_of id bc) < 2 ^ 52.

(** A ledger with a genesis block and the empty difficulty prefix, which
    every hash meets, in which [wallet40] owns one output; a service over
    it; and a service whose only wallet has a short identifier. *)
Definition easy (amount : Z) : Blockchain :=
  mkBlockchain (Chain (NewBlockchain 0)) []
    (<["t:0" := UTXO.mk "t:0" wallet40 amount "t" 0 false]> ∅) "".

Definition easy_service (amount : Z) : ZakatService :=
  NewZakatService (easy amount)
    (wallet.Save (wallet.Build_Wallet wallet40 "" "" "" "" "") wallet.NewStore).

Definition short_service : ZakatService :=
  NewZakatService (NewBlockchain 0)
    (wallet.Save (wallet.Build_Wallet "alice" "" "" "" "" "") wallet.NewStore).

(** The exact sum of what [walletID] holds in a map of outputs, and what
    one entry counts for in it. *)
Definition worth (walletID : string) (m : gmap string UTXO.t) : Z :=
  total_of (List.filter (owned walletID) (map_to_list m).*2).

Definition counts (walletID : string) (o : option UTXO.t) : Z :=
  match o with
  | Some u => if owned walletID u then UTXO.Amount u else 0
  | None => 0
  end.

(** [amount] when [walletID] is [other], and 0 otherwise. *)
Definition share (walletID other : string) (amount : Z) : Z :=
  if String.eqb walletID other then amount else 0.

(** A store with [wallet40] and a second wallet. *)
Definition easy_wallets : wallet.Store :=
  wallet.Save (wallet.Build_Wallet wallet40 "" "" "" "" "")
    (wallet.Save (wallet.Build_Wallet "bob" "" "" "" "" "") wallet.NewStore).

(** The cipher opens what it sealed, and base64 decodes what it encoded. *)
Definition cipher_correct {cipher : crypto.Cipher} : Prop :=
  (forall key nonce plaintext,
     crypto.gcm_Open key nonce (crypto.gcm_Seal key nonce plaintext) = Some plaintext) /\
  (forall s, crypto.base64_DecodeString (crypto.base64_EncodeToString s) = Some s).

(** An instance on which the model computes: nothing is hidden. *)
Definition cipher0 : crypto.Cipher :=
  {| crypto.gcm_Seal := fun _ _ plaintext => plaintext;
     crypto.gcm_Open := fun _ _ ciphertext => Some ciphertext;
     crypto.base64_EncodeToString := fun s => s;
     crypto.base64_DecodeString := fun s => Some s |}.

(** A store in which the wallet of the zero key holds its public key. *)
Definition zero_wallets : wallet.Store :=
  wallet.Save (wallet.Build_Wallet zero_wallet zero_pub "" "" "" "")
    (wallet.Save (wallet.Build_Wallet "bob" "" "" "" "" "") wallet.NewStore).

(** A digest in hexadecimal: 64 lowercase hexadecimal digits. *)
Definition digest (h : string) : Prop :=
  String.length h = 64%nat /\ forallb is_hex_lower (list_ascii_of_string h) = true.

(** [tx] with another identifier, other outputs and another type; the
    parties, the amount, the note, the time, the key, the signature and
    the inputs are kept. *)
Definition rewritten (id : string) (outputs : list UTXO.t) (type_ : string)
    (tx : Transaction.t) : Transaction.t :=
  Transaction.mk id (Transaction.SenderID tx) (Transaction.ReceiverID tx)
    (Transaction.Amount tx) (Transaction.Note tx) (Transaction.Timestamp tx)
    (Transaction.PubKey tx) (Transaction.Signature tx) (Transaction.Inputs tx)
    outputs type_.


(** The ledger [faucet_once] after the faucet output of the wallet was
    spent. *)
Definition faucet_spent : Blockchain :=
  mkBlockchain (Chain faucet_once) (Pending faucet_once)
    (UTXO.with_Spent true <$> UTXOs faucet_once) (DifficultyPref faucet_once).

(** Ledgers in which a wallet holds two outputs of [2^63], and three
    outputs of [2^63 + 2]. *)
Definition large (key : string) (amount : Z) : UTXO.t :=
  UTXO.mk key "alice" amount "coinbase-1-1" 0 false.

Definition two_large : Blockchain :=
  mkBlockchain [] []
    (<["a:0" := large "a:0" (2 ^ 63)]> (<["b:0" := large "b:0" (2 ^ 63)]> ∅)) "00000".

Definition three_large : Blockchain :=
  mkBlockchain [] []
    (<["a:0" := large "a:0" (2 ^ 63 + 2)]>
       (<["b:0" := large "b:0" (2 ^ 63 + 2)]>
          (<["c:0" := large "c:0" (2 ^ 63 + 2)]> ∅))) "00000".
(** The digest is computed by [vm_compute] only. *)
#[global] Opaque SHA256.Sum256.

(** * Properties of the runtime model *)

Section InsertionSort.
Context {A : Type} (less : A -> A -> bool).

Lemma insert_by_Permutation (x : A) (l : list A) :
  Go.insert_by less x l ≡ₚ x :: l.
Proof.
  induction l as [|y l IH]; simpl; [reflexivity|].
  destruct (less y x); [|reflexivity].
  rewrite IH. apply Permutation_swap.
Qed.

Lemma insertion_sort_Permutation (l : list A) :
  Go.insertion_sort less l ≡ₚ l.
Proof.
  induction l as [|x l IH]; simpl; [reflexivity|].
  rewrite insert_by_Permutation. by rewrite IH.
Qed.

Hypothesis Hless : Go.strict_weak less.

Lemma insert_by_sorted (x : A) (l : list A) :
  StronglySorted (fun a b => less b a = false) l ->
  StronglySorted (fun a b => less b a = false) (Go.insert_by less x l).
Proof.
  destruct Hless as [Hasym Hneg].
  induction 1 as [|y l Hl IH Hy]; simpl.
  - repeat constructor.
  - destruct (less y x) eqn:Hyx.
    + constructor; [exact IH|].
      rewrite insert_by_Permutation. constructor; [by apply Hasym|exact Hy].
    + constructor; [by constructor|].
      constructor; [exact Hyx|].
      rewrite Forall_forall in Hy |- *. intros z Hz.
      apply (Hneg z y x); [by apply Hy|exact Hyx].
Qed.

Lemma insertion_sort_sorted (l : list A) :
  StronglySorted (fun a b => less b a = false) (Go.insertion_sort less l).
Proof.
  induction l as [|x l IH]; simpl; [constructor|by apply insert_by_sorted].
Qed.
End InsertionSort.

Lemma runtime0_lawful : Go.lawful Go.runtime0.
Proof.
  split; simpl; intros.
  - reflexivity.
  - apply insertion_sort_Permutation.
  - by apply insertion_sort_sorted.
Qed.

Lemma runtime1_lawful : Go.lawful Go.runtime1.
Proof.
  split; simpl; intros.
  - by rewrite <- (Permutation_rev (map_to_list m)).
  - apply insertion_sort_Permutation.
  - by apply insertion_sort_sorted.
Qed.

(** ** The order of Go strings *)

Lemma ascii_compare_N (a b : ascii) :
  Ascii.compare a b = (N_of_ascii a ?= N_of_ascii b)%N.
Proof. reflexivity. Qed.

Lemma string_leb_trans (a b c : string) :
  String.leb a b = true -> String.leb b c = true -> String.leb a c = true.
Proof.
  unfold String.leb. revert b c.
  induction a as [|x a IH]; intros [|y b] [|z c]; simpl; try done.
  rewrite !ascii_compare_N.
  destruct (N.compare_spec (N_of_ascii x) (N_of_ascii y)) as [Hxy|Hxy|Hxy];
    destruct (N.compare_spec (N_of_ascii y) (N_of_ascii z)) as [Hyz|Hyz|Hyz];
    destruct (N.compare_spec (N_of_ascii x) (N_of_ascii z)) as [Hxz|Hxz|Hxz];
    try done; try lia.
  apply IH.
Qed.

#[local] Instance string_leb_antisym :
  AntiSymm (=) (fun a b : string => String.leb a b = true).
Proof. intros a b. apply String.leb_antisym. Qed.

Lemma insert_string_Permutation (x : string) (l : list string) :
  Go.insert_string x l ≡ₚ x :: l.
Proof.
  induction l as [|y l IH]; simpl; [reflexivity|].
  destruct (String.leb x y); [reflexivity|].
  rewrite IH. apply Permutation_swap.
Qed.

Lemma sort_Strings_Permutation (l : list string) : Go.sort_Strings l ≡ₚ l.
Proof.
  induction l as [|x l IH]; simpl; [reflexivity|].
  rewrite insert_string_Permutation. by rewrite IH.
Qed.

Lemma insert_string_sorted (x : string) (l : list string) :
  StronglySorted (fun a b => String.leb a b = true) l ->
  StronglySorted (fun a b => String.leb a b = true) (Go.insert_string x l).
Proof.
  induction 1 as [|y l Hl IH Hy]; simpl.
  - repeat constructor.
  - destruct (String.leb x y) eqn:Hxy.
    + constructor; [by constructor|].
      constructor; [exact Hxy|].
      rewrite Forall_forall in Hy |- *. intros z Hz.
      apply (string_leb_trans x y z); [exact Hxy|by apply Hy].
    + constructor; [exact IH|].
      rewrite insert_string_Permutation. constructor; [|exact Hy].
      destruct (String.leb_total x y) as [H|H]; congruence.
Qed.

Lemma sort_Strings_sorted (l : list string) :
  StronglySorted (fun a b => String.leb a b = true) (Go.sort_Strings l).
Proof.
  induction l as [|x l IH]; simpl; [constructor|by apply insert_string_sorted].
Qed.

(** The sorted slice depends on the contents only. *)
Lemma sort_Strings_order_irrelevant (l1 l2 : list string) :
  l1 ≡ₚ l2 -> Go.sort_Strings l1 = Go.sort_Strings l2.
Proof.
  intros H.
  apply (StronglySorted_unique (fun a b => String.leb a b = true));
    try apply sort_Strings_sorted.
  by rewrite !sort_Strings_Permutation.
Qed.

(** * Test vectors of SHA-256 *)

Example sha256_abc :
  SHA256.hexdigest "abc" =
  "ba7816bf8f01cfea414140de5dae2223b00361a396177a9cb410ff61f20015ad"%string.
Proof. vm_compute. reflexivity. Qed.

Example sha256_empty :
  SHA256.hexdigest "" =
  "e3b0c44298fc1c149afbf4c8996fb92427ae41e4649b934ca495991b7852b855"%string.
Proof. vm_compute. reflexivity. Qed.

Example sha256_two_blocks :
  SHA256.hexdigest "abcdbcdecdefdefgefghfghighijhijkijkljklmklmnlmnomnopnopq" =
  "248d6a61d20638b8e5c026930c3e6039a33ce45964ff2167f6ecedd419db06c1"%string.
Proof. vm_compute. reflexivity. Qed.

(** * The Merkle root and the block hash *)

Lemma merkle_loop_unfold (hashes : list string) :
  merkle_loop hashes =
  if decide (1 < length hashes)%nat then merkle_loop (merkle_level hashes) else hashes.
Proof.
  rewrite merkle_loop_equation_1. simpl.
  destruct (decide (1 < length hashes)%nat); reflexivity.
Qed.

Lemma computeMerkle_single (t : Transaction.t) :
  computeMerkle [t] = SHA256.hexdigest (Transaction.ID t).
Proof.
  unfold computeMerkle. simpl. rewrite merkle_loop_unfold. reflexivity.
Qed.

Lemma computeMerkle_ids (txs1 txs2 : list Transaction.t) :
  map Transaction.ID txs1 = map Transaction.ID txs2 ->
  computeMerkle txs1 = computeMerkle txs2.
Proof.
  intros H. unfold computeMerkle.
  assert (Hlen : length txs1 = length txs2)
    by (rewrite <- (length_map Transaction.ID txs1), H; apply length_map).
  rewrite Hlen.
  replace (map (fun t => SHA256.hexdigest (Transaction.ID t)) txs1)
    with (map SHA256.hexdigest (map Transaction.ID txs1)) by (rewrite map_map; reflexivity).
  replace (map (fun t => SHA256.hexdigest (Transaction.ID t)) txs2)
    with (map SHA256.hexdigest (map Transaction.ID txs2)) by (rewrite map_map; reflexivity).
  by rewrite H.
Qed.

Lemma hashBlock_fields (b1 b2 : Block.t) :
  Block.Index b1 = Block.Index b2 ->
  Block.Timestamp b1 = Block.Timestamp b2 ->
  Block.Transactions b1 ≡ₚ Block.Transactions b2 ->
  Block.PreviousHash b1 = Block.PreviousHash b2 ->
  Block.Nonce b1 = Block.Nonce b2 ->
  hashBlock b1 = hashBlock b2.
Proof.
  intros Hi Ht Htx Hp Hn. unfold hashBlock. rewrite Hi, Ht, Hp, Hn.
  rewrite (sort_Strings_order_irrelevant (map Transaction.ID (Block.Transactions b1))
             (map Transaction.ID (Block.Transactions b2))); [reflexivity|].
  by apply Permutation_map.
Qed.

Lemma hashBlock_with_Hash (h : string) (b : Block.t) :
  hashBlock (Block.with_Hash h b) = hashBlock b.
Proof. reflexivity. Qed.

(** * Sealing *)

Lemma nonce_at_S (nonceStart : Z) (k : nat) :
  nonce_at (Go.int64 (nonceStart + 1)) k = nonce_at nonceStart (S k).
Proof.
  unfold nonce_at. induction k as [|k IH]; simpl; [reflexivity|].
  rewrite IH. reflexivity.
Qed.

Lemma conforming_with_Nonce (difficulty : string) (b : Block.t) (n n' : Z) :
  conforming difficulty (Block.with_Nonce n' b) n = conforming difficulty b n.
Proof. reflexivity. Qed.

(** What the search returns: it stops at the first conforming nonce of the
    budget, and otherwise leaves [Hash] as it was and [Nonce] at the last
    nonce tried. *)
Lemma search_spec (fuel : nat) (difficulty : string) (nonceStart : Z) (b : Block.t) :
  let b' := search fuel difficulty nonceStart b in
  Block.Index b' = Block.Index b /\
  Block.Timestamp b' = Block.Timestamp b /\
  Block.Transactions b' = Block.Transactions b /\
  Block.PreviousHash b' = Block.PreviousHash b /\
  Block.MerkleRoot b' = Block.MerkleRoot b /\
  ((exists k, (k < fuel)%nat /\
      (forall j, (j < k)%nat -> conforming difficulty b (nonce_at nonceStart j) = false) /\
      conforming difficulty b (nonce_at nonceStart k) = true /\
      Block.Nonce b' = nonce_at nonceStart k /\
      Block.Hash b' = hashBlock b') \/
   ((forall j, (j < fuel)%nat -> conforming difficulty b (nonce_at nonceStart j) = false) /\
    Block.Hash b' = Block.Hash b /\
    Block.Nonce b' =
      match fuel with O => Block.Nonce b | S k => nonce_at nonceStart k end)).
Proof.
  revert nonceStart b. induction fuel as [|fuel IH]; intros nonceStart b; cbn [search]; cbv zeta.
  - repeat split; try reflexivity. right. repeat split; try reflexivity. intros; lia.
  - destruct (Go.HasPrefix (hashBlock (Block.with_Nonce nonceStart b)) difficulty) eqn:Hp.
    + repeat split; try reflexivity. left. exists 0%nat.
      repeat split; try reflexivity; try lia; try done.
    + specialize (IH (Go.int64 (nonceStart + 1)) (Block.with_Nonce nonceStart b)).
      cbv zeta in IH. destruct IH as (Hi & Ht & Htx & Hph & Hm & IH).
      repeat split; try assumption.
      destruct IH as [(k & Hk & Hbefore & Hat & Hn & Hh)|(Hall & Hh & Hn)].
      * left. exists (S k). rewrite <- !nonce_at_S.
        repeat split; try assumption; try lia.
        intros [|j] Hj; [exact Hp|].
        rewrite <- nonce_at_S. apply (Hbefore j). lia.
      * right. repeat split; try assumption.
        -- intros [|j] Hj; [exact Hp|].
           rewrite <- nonce_at_S. apply (Hall j). lia.
        -- rewrite Hn. destruct fuel as [|k]; [reflexivity|apply nonce_at_S].
Qed.

Lemma last_is_Some {A : Type} (l : list A) : l <> [] -> is_Some (last l).
Proof. destruct l; [done|]. intros _. apply last_is_Some. done. Qed.

(** [Mine] on a ledger with a chain: the block it returns and the state it
    leaves. *)
Lemma Mine_spec (nonceStart : Z) (minerWalletID : string) (now : Z) (bc : Blockchain) :
  Chain bc <> [] ->
  exists b,
    Mine nonceStart minerWalletID now bc =
      Ok (b, mkBlockchain (Chain bc ++ [b]) []
               (commit (Block.Transactions b) (UTXOs bc)) (DifficultyPref bc)) /\
    Block.Index b = Z.of_nat (length (Chain bc)) /\
    Block.Timestamp b = now /\
    Block.Transactions b =
      coinbaseTx (Z.of_nat (length (Chain bc))) now minerWalletID :: Pending bc /\
    Some (Block.PreviousHash b) = Block.Hash <$> last (Chain bc) /\
    Block.MerkleRoot b = computeMerkle (Block.Transactions b) /\
    Block.Hash b = hashBlock b /\
    let c := candidate minerWalletID now bc in
    let d := DifficultyPref bc in
    ((exists k, (k < Z.to_nat maxIterations)%nat /\
        (forall j, (j < k)%nat -> conforming d c (nonce_at nonceStart j) = false) /\
        conforming d c (nonce_at nonceStart k) = true /\
        Block.Nonce b = nonce_at nonceStart k /\
        Go.HasPrefix (Block.Hash b) d = true) \/
     ((forall j, (j < Z.to_nat maxIterations)%nat ->
         conforming d c (nonce_at nonceStart j) = false) /\
      Block.Nonce b = nonce_at nonceStart (Z.to_nat maxIterations - 1) /\
      Go.HasPrefix (Block.Hash b) d = false)).
Proof.
  intros Hchain. destruct (last_is_Some _ Hchain) as [prev Hprev].
  assert (Hmax : exists n, Z.to_nat maxIterations = S n).
  { exists (Z.to_nat (maxIterations - 1)). unfold maxIterations. lia. }
  destruct Hmax as [n Hn].
  unfold Mine, candidate. rewrite Hprev.
  generalize dependent (Z.to_nat maxIterations). intros fuel Hn. cbn [fmap option_fmap option_map default].
  set (c := Block.mk _ _ _ _ _ _ _).
  pose proof (search_spec fuel (DifficultyPref bc) nonceStart c) as Hs.
  cbv zeta in Hs. set (b := search _ _ _ c) in *.
  destruct Hs as (Hi & Ht & Htx & Hp & Hm & Hs).
  set (b' := if String.eqb (Block.Hash b) "" then Block.with_Hash (hashBlock b) b else b).
  assert (Hb' : Block.Index b' = Block.Index b /\ Block.Timestamp b' = Block.Timestamp b /\
                Block.Transactions b' = Block.Transactions b /\
                Block.PreviousHash b' = Block.PreviousHash b /\
                Block.MerkleRoot b' = Block.MerkleRoot b /\
                Block.Nonce b' = Block.Nonce b /\
                (Block.Hash b = "" -> Block.Hash b' = hashBlock b) /\
                (Block.Hash b <> "" -> b' = b)).
  { subst b'. destruct (String.eqb_spec (Block.Hash b) ""); simpl; repeat split; done. }
  destruct Hb' as (Hi' & Ht' & Htx' & Hp' & Hm' & Hn' & Hempty & Hnonempty).
  assert (Hhash : hashBlock b' = hashBlock b).
  { apply hashBlock_fields; try assumption. by rewrite Htx'. }
  exists b'. split; [reflexivity|].
  rewrite Hi', Hi, Ht', Ht, Htx', Htx, Hp', Hp, Hm', Hm, Hn'.
  repeat split; try reflexivity.
  - destruct Hs as [(k & _ & _ & _ & _ & Hh)|(_ & Hh & _)].
    + destruct (String.eqb_spec (Block.Hash b) "") as [He|He].
      * rewrite Hhash. by apply Hempty.
      * by rewrite (Hnonempty He).
    + rewrite Hhash. by apply Hempty.
  - destruct Hs as [(k & Hk & Hbefore & Hat & Hnonce & Hh)|(Hall & Hh & Hnonce)].
    + left. exists k. repeat split; try assumption.
      assert (Block.Hash b' = hashBlock b) as ->.
      { destruct (String.eqb_spec (Block.Hash b) "") as [He|He];
          [by apply Hempty|by rewrite (Hnonempty He)]. }
      unfold conforming in Hat. rewrite <- Hat. f_equal.
      apply hashBlock_fields; simpl; try assumption. by rewrite Htx.
    + right. rewrite Hn in Hnonce. repeat split; try assumption.
      * rewrite Hnonce, Hn. f_equal. lia.
      * rewrite (Hempty Hh).
        specialize (Hall n ltac:(lia)). unfold conforming in Hall.
        rewrite <- Hall. f_equal.
        apply hashBlock_fields; simpl; try assumption. by rewrite Htx.
Qed.

Lemma reachable_Chain (bc : Blockchain) : reachable bc -> Chain bc <> [].
Proof.
  induction 1 as [now|tx bc _ IH|nonceStart miner now bc b bc' _ IH HM|walletID now bc _ IH];
    try done.
  destruct (Mine_spec nonceStart miner now bc IH) as (b0 & HM0 & _).
  rewrite HM0 in HM. injection HM as _ <-. simpl. by destruct (Chain bc).
Qed.

(** ** The commit of a block on the set of outputs *)

Lemma store_lookup_other (txid : string) (idx : Z) (outs : list UTXO.t)
    (m : gmap string UTXO.t) (k : string) :
  k ∉ store_keys txid idx outs -> store txid idx outs m !! k = m !! k.
Proof.
  revert idx m. induction outs as [|out outs IH]; intros idx m Hk; simpl in *; [done|].
  apply not_elem_of_cons in Hk as [Hne Hk].
  rewrite IH by done. by rewrite lookup_insert_ne.
Qed.

Lemma spend_lookup (m : gmap string UTXO.t) (input : UTXORef.t) (k : string) :
  spend m input !! k =
  if decide (k = key_of input) then UTXO.with_Spent true <$> m !! k else m !! k.
Proof.
  unfold spend, key_of. set (key := utxoKey _ _).
  destruct (decide (k = key)) as [->|Hne].
  - destruct (m !! key) as [ut|] eqn:Hm; [by rewrite lookup_insert_eq|by rewrite Hm].
  - destruct (m !! key); [by rewrite lookup_insert_ne|done].
Qed.

Lemma with_Spent_idem (u : UTXO.t) :
  UTXO.with_Spent true (UTXO.with_Spent true u) = UTXO.with_Spent true u.
Proof. reflexivity. Qed.

Lemma spend_all_lookup (inputs : list UTXORef.t) (m : gmap string UTXO.t) (k : string) :
  fold_left spend inputs m !! k =
  if decide (k ∈ map key_of inputs) then UTXO.with_Spent true <$> m !! k else m !! k.
Proof.
  revert m. induction inputs as [|input inputs IH]; intros m.
  - cbn [fold_left map]. case_decide as H; [by apply elem_of_nil in H|done].
  - cbn [fold_left map]. rewrite IH, spend_lookup.
    destruct (decide (k = key_of input)) as [->|Hne];
      destruct (decide (_ ∈ map key_of inputs)) as [Hin|Hnin];
      destruct (decide (_ ∈ _ :: _)) as [Hin'|Hnin'];
      try done; try (exfalso; rewrite elem_of_cons in *; tauto).
    by destruct (m !! key_of input).
Qed.

(** A key that no output of the block is stored under: after the commit it
    holds what it held, marked spent when an input of the block names it. *)
Lemma commit_lookup (txs : list Transaction.t) (m : gmap string UTXO.t) (k : string) :
  k ∉ output_keys txs ->
  commit txs m !! k =
  if decide (k ∈ input_keys txs) then UTXO.with_Spent true <$> m !! k else m !! k.
Proof.
  unfold commit, output_keys, input_keys. revert m.
  induction txs as [|tx txs IH]; intros m Hk.
  - cbn [fold_left flat_map]. case_decide as H; [by apply elem_of_nil in H|done].
  - cbn [fold_left flat_map] in *.
    rewrite not_elem_of_app in Hk. destruct Hk as [Hk1 Hk2].
    rewrite IH by done. unfold commit_tx.
    rewrite store_lookup_other by done. rewrite spend_all_lookup.
    destruct (decide (k ∈ map key_of (Transaction.Inputs tx))) as [Hin|Hnin];
      destruct (decide (k ∈ flat_map _ txs)) as [Hin'|Hnin'];
      destruct (decide (k ∈ _ ++ _)) as [Hin''|Hnin''];
      try done; try (exfalso; rewrite elem_of_app in *; tauto).
    by destruct (m !! k).
Qed.

(** The outputs of a transaction, once stored: an output is found under
    its key, with that key as its identifier, when no two outputs of the
    transaction have one key. *)
Lemma store_lookup_written (txid : string) (idx : Z) (outs : list UTXO.t)
    (m : gmap string UTXO.t) (i : nat) (out : UTXO.t) :
  NoDup (store_keys txid idx outs) ->
  outs !! i = Some out ->
  store txid idx outs m !! utxoKey txid (idx + Z.of_nat i) =
  Some (UTXO.with_ID (utxoKey txid (idx + Z.of_nat i)) out).
Proof.
  revert idx m i. induction outs as [| out0 outs IH]; intros idx m i Hnd Hi;
    [destruct i; discriminate |].
  cbn [store_keys] in Hnd. apply NoDup_cons in Hnd as [Hk0 Hnd].
  cbn [store]. destruct i as [| j].
  - cbn in Hi. injection Hi as ->. cbn [Z.of_nat]. rewrite Z.add_0_r.
    rewrite store_lookup_other by exact Hk0. apply lookup_insert_eq.
  - cbn [lookup list_lookup] in Hi.
    replace (idx + Z.of_nat (S j)) with (idx + 1 + Z.of_nat j) by lia.
    by apply IH.
Qed.

(** Whatever the keys: a key that some output of the transaction is stored
    under holds, after the store, one of those outputs. *)
Lemma store_lookup_in (txid : string) (idx : Z) (outs : list UTXO.t)
    (m : gmap string UTXO.t) (k : string) :
  k ∈ store_keys txid idx outs ->
  exists (i : nat) (out : UTXO.t),
    outs !! i = Some out /\ k = utxoKey txid (idx + Z.of_nat i) /\
    store txid idx outs m !! k = Some (UTXO.with_ID k out).
Proof.
  revert idx m. induction outs as [| out0 outs IH]; intros idx m Hk;
    [by apply elem_of_nil in Hk |].
  cbn [store_keys] in Hk. cbn [store].
  destruct (decide (k ∈ store_keys txid (idx + 1) outs)) as [Hin | Hnin].
  - destruct (IH (idx + 1) (<[utxoKey txid idx := UTXO.with_ID (utxoKey txid idx) out0]> m) Hin)
      as (i & out & Hi & Hki & Hs).
    exists (S i), out. split; [exact Hi |]. split; [| exact Hs].
    rewrite Hki. f_equal. lia.
  - apply elem_of_cons in Hk as [-> | Hk]; [| done].
    exists 0%nat, out0. split; [reflexivity |]. split; [f_equal; lia |].
    rewrite store_lookup_other by exact Hnin. apply lookup_insert_eq.
Qed.

Lemma store_keys_elem (txid : string) (idx : Z) (outs : list UTXO.t) (i : nat)
    (out : UTXO.t) :
  outs !! i = Some out -> utxoKey txid (idx + Z.of_nat i) ∈ store_keys txid idx outs.
Proof.
  revert idx i. induction outs as [| out0 outs IH]; intros idx i Hi;
    [destruct i; discriminate |].
  cbn [store_keys]. apply elem_of_cons. destruct i as [| j].
  - left. f_equal. lia.
  - right. replace (idx + Z.of_nat (S j)) with (idx + 1 + Z.of_nat j) by lia.
    by apply IH.
Qed.

Lemma output_keys_app (txs1 txs2 : list Transaction.t) :
  output_keys (txs1 ++ txs2) = output_keys txs1 ++ output_keys txs2.
Proof. unfold output_keys. apply flat_map_app. Qed.

Lemma commit_app (txs1 txs2 : list Transaction.t) (m : gmap string UTXO.t) :
  commit (txs1 ++ txs2) m = commit txs2 (commit txs1 m).
Proof. unfold commit. apply fold_left_app. Qed.

(** An output of a committed transaction, when no two outputs of the list
    have one key: after the commit it is found under its key, marked spent
    when an input of a later transaction of the list names it. *)
Lemma commit_lookup_written (pre : list Transaction.t) (tx : Transaction.t)
    (post : list Transaction.t) (m : gmap string UTXO.t) (i : nat) (out : UTXO.t) :
  NoDup (output_keys (pre ++ tx :: post)) ->
  Transaction.Outputs tx !! i = Some out ->
  commit (pre ++ tx :: post) m !! utxoKey (Transaction.ID tx) (Z.of_nat i) =
  Some (if decide (utxoKey (Transaction.ID tx) (Z.of_nat i) ∈ input_keys post)
        then UTXO.with_Spent true
               (UTXO.with_ID (utxoKey (Transaction.ID tx) (Z.of_nat i)) out)
        else UTXO.with_ID (utxoKey (Transaction.ID tx) (Z.of_nat i)) out).
Proof.
  intros Hnd Hi. set (key := utxoKey (Transaction.ID tx) (Z.of_nat i)).
  rewrite output_keys_app in Hnd. apply NoDup_app in Hnd as (_ & _ & Hnd).
  change (tx :: post) with ([tx] ++ post) in Hnd.
  rewrite output_keys_app in Hnd. apply NoDup_app in Hnd as (Htx & Hdis & _).
  unfold output_keys in Htx at 1. cbn [flat_map] in Htx. rewrite app_nil_r in Htx.
  assert (Hstored : forall m1, commit_tx m1 tx !! key =
                      Some (UTXO.with_ID key out)).
  { intros m1. unfold commit_tx, key.
    change (Z.of_nat i) with (0 + Z.of_nat i).
    by apply store_lookup_written. }
  assert (Hkey : key ∈ output_keys [tx]).
  { unfold output_keys. cbn [flat_map]. rewrite app_nil_r. unfold key.
    change (Z.of_nat i) with (0 + Z.of_nat i). by apply (store_keys_elem _ _ _ _ out). }
  rewrite commit_app. change (tx :: post) with ([tx] ++ post). rewrite commit_app.
  rewrite commit_lookup by (by apply Hdis).
  assert (Hone : commit [tx] (commit pre m) !! key = Some (UTXO.with_ID key out))
    by apply Hstored.
  rewrite Hone. cbn [fmap option_fmap option_map].
  by destruct (decide (key ∈ input_keys post)).
Qed.

(** A key that some output of the list is stored under holds, after the
    commit, the owner, amount, origin and index of such an output. *)
Lemma commit_lookup_overwritten (txs : list Transaction.t) (m : gmap string UTXO.t)
    (k : string) :
  k ∈ output_keys txs ->
  exists tx (i : nat) out u,
    tx ∈ txs /\ Transaction.Outputs tx !! i = Some out /\
    k = utxoKey (Transaction.ID tx) (Z.of_nat i) /\
    commit txs m !! k = Some u /\ content u = content out.
Proof.
  induction txs as [| tx txs IH] using rev_ind; intros Hk;
    [by apply elem_of_nil in Hk |].
  rewrite commit_app. unfold commit at 1. cbn [fold_left]. unfold commit_tx.
  destruct (decide (k ∈ store_keys (Transaction.ID tx) 0 (Transaction.Outputs tx)))
    as [Hin | Hnin].
  - destruct (store_lookup_in _ _ _
                (fold_left spend (Transaction.Inputs tx) (commit txs m)) k Hin)
      as (i & out & Hi & Hki & Hs).
    exists tx, i, out, (UTXO.with_ID k out).
    split; [apply elem_of_app; right; apply elem_of_cons; by left |].
    split; [exact Hi |]. split; [exact Hki |]. split; [exact Hs |].
    by destruct out.
  - rewrite output_keys_app in Hk. apply elem_of_app in Hk as [Hk | Hk].
    2:{ unfold output_keys in Hk. cbn [flat_map] in Hk. rewrite app_nil_r in Hk. done. }
    destruct (IH Hk) as (tx0 & i & out & u & Htx0 & Hi & Hki & Hu & Hc).
    rewrite store_lookup_other by exact Hnin. rewrite spend_all_lookup, Hu.
    exists tx0, i, out.
    destruct (decide (k ∈ map key_of (Transaction.Inputs tx))).
    + exists (UTXO.with_Spent true u).
      split; [apply elem_of_app; by left |]. split; [exact Hi |]. split; [exact Hki |].
      split; [reflexivity |]. rewrite <- Hc. by destruct u.
    + exists u. split; [apply elem_of_app; by left |]. split; [exact Hi |].
      split; [exact Hki |]. split; [reflexivity | exact Hc].
Qed.

Lemma coinbase_input_keys (index now : Z) (miner : string) (txs : list Transaction.t) :
  input_keys (coinbaseTx index now miner :: txs) = input_keys txs.
Proof. reflexivity. Qed.

(** * Validation reads the set of outputs only *)

Section Validation.
Context {ext : External}.

Lemma check_inputs_Ok (m : gmap string UTXO.t) (senderID : string)
    (inputs : list UTXORef.t) :
  check_inputs m senderID inputs = Ok tt <->
  forall input, input ∈ inputs ->
    exists utxo, m !! key_of input = Some utxo /\
      UTXO.Spent utxo = false /\ UTXO.Owner utxo = senderID.
Proof.
  induction inputs as [|input inputs IH]; cbn [check_inputs].
  - split; [|done]. intros _ input H. by apply elem_of_nil in H.
  - fold (key_of input). split.
    + destruct (m !! key_of input) as [utxo|] eqn:Hm; [|done].
      destruct (UTXO.Spent utxo) eqn:Hs; [done|].
      destruct (String.eqb_spec (UTXO.Owner utxo) senderID) as [Ho|Ho]; [|done].
      simpl. intros Hrest input' [->|Hin]%elem_of_cons.
      * by exists utxo.
      * by apply IH.
    + intros H. destruct (H input) as (utxo & -> & -> & Ho); [apply elem_of_cons; by left|].
      rewrite (proj2 (String.eqb_eq _ _) Ho). simpl.
      apply IH. intros input' Hin. apply H. apply elem_of_cons. by right.
Qed.

Lemma check_inputs_not_Panic (m : gmap string UTXO.t) (senderID : string)
    (inputs : list UTXORef.t) :
  check_inputs m senderID inputs <> Panic.
Proof.
  induction inputs as [|input inputs IH]; cbn [check_inputs]; [done|].
  destruct (m !! _) as [utxo|]; [|done].
  destruct (UTXO.Spent utxo); [done|].
  by destruct (negb _).
Qed.

(** When [ValidateTransaction] returns [nil]: the totals are compared as
    [uint64] sums. *)
Lemma ValidateTransaction_Ok (bc : Blockchain) (tx : Transaction.t) :
  ValidateTransaction bc tx = Ok tt <->
  wallet.VerifySignature (Transaction.PubKey tx)
    (wallet.MarshalPayload (Transaction.SenderID tx) (Transaction.ReceiverID tx)
       (Transaction.Amount tx) (Transaction.Timestamp tx) (Transaction.Note tx))
    (Transaction.Signature tx) = Ok true /\
  wallet.WalletIDFromPub (Transaction.PubKey tx) = Ok (Transaction.SenderID tx) /\
  (forall input, input ∈ Transaction.Inputs tx ->
     exists utxo, UTXOs bc !! key_of input = Some utxo /\
       UTXO.Spent utxo = false /\ UTXO.Owner utxo = Transaction.SenderID tx) /\
  input_total (UTXOs bc) (Transaction.Inputs tx) = output_total (Transaction.Outputs tx).
Proof.
  unfold ValidateTransaction. rewrite <- check_inputs_Ok.
  destruct (wallet.VerifySignature _ _ _) as [[|]|e|]; try (split; [done|intros (? & _); done]).
  destruct (wallet.WalletIDFromPub _) as [expected|e|]; cbn [mbind result_bind];
    try (split; [done|intros (_ & ? & _); done]).
  destruct (String.eqb_spec expected (Transaction.SenderID tx)) as [->|Hne]; cbn [negb].
  - destruct (check_inputs _ _ _) as [[]|e|]; cbn [mbind result_bind];
      try (split; [done|intros (_ & _ & ? & _); done]).
    destruct (Z.eqb_spec (input_total (UTXOs bc) (Transaction.Inputs tx))
                (output_total (Transaction.Outputs tx))) as [He|He]; cbn [negb].
    + done.
    + split; [done|]. intros (_ & _ & _ & ?). done.
  - split; [done|]. intros (_ & [= ?] & _). done.
Qed.

(** The verdict does not depend on the pending pool. *)
Lemma ValidateTransaction_AddPending (bc : Blockchain) (tx' tx : Transaction.t) :
  ValidateTransaction (AddPending tx' bc) tx = ValidateTransaction bc tx.
Proof. reflexivity. Qed.

End Validation.

(** * The claims about the Merkle root and about sealing *)

(** C2, as stated, fails: the transaction lists [a, b] and [b, a] are
    permutations of each other and have different Merkle roots, since
    [computeMerkle] hashes the identifiers in the order of the list. *)
Lemma computeMerkle_depends_on_order :
  [tx_with_id "a"; tx_with_id "b"] ≡ₚ [tx_with_id "b"; tx_with_id "a"] /\
  computeMerkle [tx_with_id "a"; tx_with_id "b"] <>
  computeMerkle [tx_with_id "b"; tx_with_id "a"].
Proof.
  split; [apply Permutation_swap|].
  vm_compute. discriminate.
Qed.

(** C2, amended: the identifiers are sorted before hashing in [hashBlock],
    not in [computeMerkle].  Two blocks whose transaction lists are
    permutations of each other, and which agree on index, timestamp,
    previous hash and nonce, have the same block hash; the Merkle root is
    computed over the identifiers in the order of the transaction list: for
    one transaction it is the hash of its identifier, for two it is the
    hash of the two hashes in list order. *)
Theorem hashBlock_order_independent (index timestamp nonce : Z) (previousHash : string)
    (txs1 txs2 : list Transaction.t) (hash1 hash2 root1 root2 : string) :
  txs1 ≡ₚ txs2 ->
  hashBlock (Block.mk index timestamp txs1 previousHash nonce hash1 root1) =
  hashBlock (Block.mk index timestamp txs2 previousHash nonce hash2 root2) /\
  (forall t, computeMerkle [t] = SHA256.hexdigest (Transaction.ID t)) /\
  (forall t1 t2,
     computeMerkle [t1; t2] =
     SHA256.hexdigest
       (SHA256.hexdigest (Transaction.ID t1) +:+ SHA256.hexdigest (Transaction.ID t2))).
Proof.
  intros Hperm. split; [by apply hashBlock_fields|].
  split; [apply computeMerkle_single|].
  intros t1 t2. unfold computeMerkle.
  rewrite decide_False by (simpl; lia).
  rewrite merkle_loop_unfold, decide_True by (simpl; lia).
  rewrite merkle_loop_unfold, decide_False by (simpl; lia).
  reflexivity.
Qed.

Lemma hashBlock_order_independent_witness :
  [tx_with_id "a"; tx_with_id "b"] ≡ₚ [tx_with_id "b"; tx_with_id "a"] /\
  hashBlock (Block.mk 1 2 [tx_with_id "a"; tx_with_id "b"] "0" 3 "" "") =
  hashBlock (Block.mk 1 2 [tx_with_id "b"; tx_with_id "a"] "0" 3 "" "").
Proof.
  split; [apply Permutation_swap|].
  exact (proj1 (hashBlock_order_independent 1 2 3 "0"
                  [tx_with_id "a"; tx_with_id "b"] [tx_with_id "b"; tx_with_id "a"]
                  "" "" "" "" (Permutation_swap _ _ _))).
Defined.

(** C6: on a ledger with a chain (every reachable ledger has one, see
    [reachable_Chain]) [Mine] returns; the search tries at most
    [maxIterations] nonces.  The block returned, the reward followed by the
    pending transactions, is appended to the chain and the pool is emptied.
    Its transitions are applied to the set of outputs: an entry whose key
    no output of the block is stored under is marked spent when an input
    of a pending transaction names it, and is otherwise left as it was; a
    key that an output of the block is stored under holds such an output;
    and when no two outputs of the block have one key, every output of the
    block is found under its key, with that key as its identifier, marked
    spent when a later transaction of the block spends it.  All this holds
    also when no nonce of the budget meets the difficulty: the block then
    carries the last nonce tried and the hash of that candidate, which
    does not have the required prefix. *)
Theorem Mine_returns_committed_block (nonceStart : Z) (minerWalletID : string)
    (now : Z) (bc : Blockchain) :
  Chain bc <> [] ->
  exists b bc',
    Mine nonceStart minerWalletID now bc = Ok (b, bc') /\
    Chain bc' = Chain bc ++ [b] /\
    Pending bc' = [] /\
    DifficultyPref bc' = DifficultyPref bc /\
    Block.Transactions b =
      coinbaseTx (Z.of_nat (length (Chain bc))) now minerWalletID :: Pending bc /\
    (forall key, key ∉ output_keys (Block.Transactions b) ->
       UTXOs bc' !! key =
       if decide (key ∈ input_keys (Pending bc))
       then UTXO.with_Spent true <$> UTXOs bc !! key
       else UTXOs bc !! key) /\
    (forall key, key ∈ output_keys (Block.Transactions b) ->
       exists tx (i : nat) out utxo,
         tx ∈ Block.Transactions b /\ Transaction.Outputs tx !! i = Some out /\
         key = utxoKey (Transaction.ID tx) (Z.of_nat i) /\
         UTXOs bc' !! key = Some utxo /\
         UTXO.Owner utxo = UTXO.Owner out /\ UTXO.Amount utxo = UTXO.Amount out /\
         UTXO.OriginTx utxo = UTXO.OriginTx out /\ UTXO.Index utxo = UTXO.Index out) /\
    (NoDup (output_keys (Block.Transactions b)) ->
     forall pre tx post (i : nat) out,
       Block.Transactions b = pre ++ tx :: post ->
       Transaction.Outputs tx !! i = Some out ->
       UTXOs bc' !! utxoKey (Transaction.ID tx) (Z.of_nat i) =
       Some (if decide (utxoKey (Transaction.ID tx) (Z.of_nat i) ∈ input_keys post)
             then UTXO.with_Spent true
                    (UTXO.with_ID (utxoKey (Transaction.ID tx) (Z.of_nat i)) out)
             else UTXO.with_ID (utxoKey (Transaction.ID tx) (Z.of_nat i)) out)) /\
    Block.Hash b = hashBlock b /\
    (exists k, (k < Z.to_nat maxIterations)%nat /\ Block.Nonce b = nonce_at nonceStart k) /\
    ((forall j, (j < Z.to_nat maxIterations)%nat ->
        conforming (DifficultyPref bc) (candidate minerWalletID now bc)
          (nonce_at nonceStart j) = false) ->
     Block.Nonce b = nonce_at nonceStart (Z.to_nat maxIterations - 1) /\
     Go.HasPrefix (Block.Hash b) (DifficultyPref bc) = false).
Proof.
  intros Hchain.
  destruct (Mine_spec nonceStart minerWalletID now bc Hchain)
    as (b & HM & _ & _ & Htx & _ & _ & Hh & Hs).
  exists b. eexists. split; [exact HM |]. cbn [Chain Pending DifficultyPref UTXOs].
  split; [reflexivity |]. split; [reflexivity |]. split; [reflexivity |].
  split; [exact Htx |]. split.
  { intros key Hkey. rewrite commit_lookup by exact Hkey.
    by rewrite Htx, coinbase_input_keys. }
  split.
  { intros key Hkey.
    destruct (commit_lookup_overwritten _ (UTXOs bc) key Hkey)
      as (tx & i & out & utxo & H1 & H2 & H3 & H4 & H5).
    exists tx, i, out, utxo. split; [exact H1 |]. split; [exact H2 |].
    split; [exact H3 |]. split; [exact H4 |].
    unfold content in H5. injection H5 as -> -> -> ->. done. }
  split.
  { intros Hnd pre tx post i out Hsplit Hi. rewrite Hsplit in Hnd |- *.
    by apply commit_lookup_written. }
  split; [exact Hh |]. cbv zeta in Hs. split.
  - destruct Hs as [(k & Hk & _ & _ & Hn & _) | (_ & Hn & _)].
    + by exists k.
    + exists (Z.to_nat maxIterations - 1)%nat. split; [| exact Hn].
      unfold maxIterations. lia.
  - intros Hall.
    destruct Hs as [(k & Hk & _ & Hat & _ & _) | (_ & Hn & Hp)]; [| exact (conj Hn Hp)].
    rewrite (Hall k Hk) in Hat. discriminate.
Qed.

Lemma Mine_returns_committed_block_witness :
  Chain (NewBlockchain 0) <> [] /\
  exists b bc', Mine 0 "miner" 1 (NewBlockchain 0) = Ok (b, bc') /\
    Chain bc' = Chain (NewBlockchain 0) ++ [b] /\
    Pending bc' = [] /\
    UTXOs bc' !! utxoKey (coinbaseID 1 1) 0 =
      Some (UTXO.mk (utxoKey (coinbaseID 1 1) 0) "miner" 50 (coinbaseID 1 1) 0 false).
Proof.
  assert (H : Chain (NewBlockchain 0) <> []) by discriminate.
  split; [exact H |].
  destruct (Mine_returns_committed_block 0 "miner" 1 (NewBlockchain 0) H)
    as (b & bc' & HM & Hc & Hp & _ & Htx & _ & _ & Hstored & _).
  exists b, bc'. split; [exact HM |]. split; [exact Hc |]. split; [exact Hp |].
  change (Z.of_nat (length (Chain (NewBlockchain 0)))) with 1 in Htx.
  assert (Hnd : NoDup (output_keys (Block.Transactions b))).
  { rewrite Htx. apply NoDup_singleton. }
  pose proof (Hstored Hnd [] (coinbaseTx 1 1 "miner") [] 0%nat
                (UTXO.mk "" "miner" 50 (coinbaseID 1 1) 0 false) Htx eq_refl) as Hs.
  destruct (decide (utxoKey (Transaction.ID (coinbaseTx 1 1 "miner")) (Z.of_nat 0)
                      ∈ input_keys [])) as [Hin | _];
    [apply elem_of_nil in Hin; destruct Hin | exact Hs].
Defined.

(** C7: with an empty pool, the block sealed holds one transaction, the
    reward: no input, the amount [MiningReward] (50), one output of that
    amount owned by the miner; the Merkle root of the block is the root of
    that one transaction, the hash of its identifier, and the pool is empty
    after the seal. *)
Theorem Mine_empty_pool (nonceStart : Z) (minerWalletID : string) (now : Z)
    (bc : Blockchain) :
  Chain bc <> [] ->
  Pending bc = [] ->
  exists b bc' reward,
    Mine nonceStart minerWalletID now bc = Ok (b, bc') /\
    Block.Transactions b = [reward] /\
    Transaction.Inputs reward = [] /\
    Transaction.Amount reward = 50 /\
    Transaction.Outputs reward =
      [UTXO.mk "" minerWalletID 50 (Transaction.ID reward) 0 false] /\
    Block.MerkleRoot b = computeMerkle [reward] /\
    Block.MerkleRoot b = SHA256.hexdigest (Transaction.ID reward) /\
    Pending bc' = [].
Proof.
  intros Hchain Hpending.
  destruct (Mine_spec nonceStart minerWalletID now bc Hchain)
    as (b & HM & _ & _ & Htx & _ & Hm & _).
  rewrite Hpending in Htx.
  exists b. eexists. exists (coinbaseTx (Z.of_nat (length (Chain bc))) now minerWalletID).
  split; [exact HM|]. split; [exact Htx|].
  rewrite Hm, Htx, computeMerkle_single. repeat split; reflexivity.
Qed.

Lemma Mine_empty_pool_witness :
  Chain (NewBlockchain 0) <> [] /\ Pending (NewBlockchain 0) = [] /\
  exists b bc', Mine 0 "miner" 1 (NewBlockchain 0) = Ok (b, bc') /\
    length (Block.Transactions b) = 1%nat /\ Pending bc' = [].
Proof.
  assert (H : Chain (NewBlockchain 0) <> []) by discriminate.
  split; [exact H|]. split; [reflexivity|].
  destruct (Mine_empty_pool 0 "miner" 1 (NewBlockchain 0) H eq_refl)
    as (b & bc' & reward & HM & Htx & _ & _ & _ & _ & _ & Hp).
  exists b, bc'. split; [exact HM|]. split; [by rewrite Htx|exact Hp].
Defined.

(** C1, as stated, fails: two transfers that spend the same faucet output
    wait in the pool; [Mine] seals both, and the ledger it leaves, a
    reachable one, has two different sealed transactions with the input
    [("faucet-alice-0", 0)]. *)
Lemma double_spend_sealed :
  exists b bc',
    Mine 0 "miner" 1 spend_twice_pool = Ok (b, bc') /\
    reachable bc' /\
    ~ no_double_spend bc'.
Proof.
  assert (Hr : reachable spend_twice_pool).
  { do 2 apply reachable_AddPending. apply reachable_Faucet. apply reachable_New. }
  destruct (Mine_spec 0 "miner" 1 spend_twice_pool (reachable_Chain _ Hr))
    as (b & HM & _ & _ & Htx & _).
  eexists b, _. split; [exact HM|]. split; [exact (reachable_Mine _ _ _ _ _ _ Hr HM)|].
  intros Hno.
  assert (Hin : forall tx, tx ∈ Block.Transactions b ->
                  tx ∈ sealed (mkBlockchain (Chain spend_twice_pool ++ [b]) []
                                 (commit (Block.Transactions b) (UTXOs spend_twice_pool))
                                 (DifficultyPref spend_twice_pool))).
  { intros tx Htx'. unfold sealed. cbn [Chain]. rewrite flat_map_app.
    apply elem_of_app. right. simpl. by rewrite app_nil_r. }
  assert (H12 : spend_twice_tx1 = spend_twice_tx2).
  { apply (Hno _ _ (UTXORef.mk "faucet-alice-0" 0)).
    - apply Hin. rewrite Htx. apply elem_of_cons. right. apply elem_of_cons. by left.
    - apply Hin. rewrite Htx. do 2 (apply elem_of_cons; right). apply elem_of_cons. by left.
    - apply elem_of_cons. by left.
    - apply elem_of_cons. by left. }
  discriminate H12.
Qed.

(** * Balances *)

Lemma uint64_range (x : Z) : 0 <= Go.uint64 x < 2 ^ 64.
Proof. unfold Go.uint64. apply Z.mod_pos_bound. lia. Qed.

Lemma uint64_small (x : Z) : 0 <= x < 2 ^ 64 -> Go.uint64 x = x.
Proof. unfold Go.uint64. apply Z.mod_small. Qed.

Lemma uint64_add_l (x y : Z) : Go.uint64 (Go.uint64 x + y) = Go.uint64 (x + y).
Proof. unfold Go.uint64. apply Zplus_mod_idemp_l. Qed.

Lemma uint64_add_r (x y : Z) : Go.uint64 (x + Go.uint64 y) = Go.uint64 (x + y).
Proof. unfold Go.uint64. apply Zplus_mod_idemp_r. Qed.

Lemma running_total_range (start : Z) (l : list UTXO.t) :
  0 <= start < 2 ^ 64 -> 0 <= running_total start l < 2 ^ 64.
Proof.
  unfold running_total. revert start.
  induction l as [|u l IH]; intros start H; cbn [fold_left]; [exact H|].
  apply IH, uint64_range.
Qed.

Lemma running_total_exact (start : Z) (l : list UTXO.t) :
  Go.uint64 (running_total start l) = Go.uint64 (start + total_of l).
Proof.
  unfold running_total, total_of. revert start.
  induction l as [|u l IH]; intros start; cbn [fold_left map foldr].
  - by rewrite Z.add_0_r.
  - rewrite IH, uint64_add_l. f_equal. lia.
Qed.

Lemma running_total_0 (l : list UTXO.t) :
  running_total 0 l = Go.uint64 (total_of l).
Proof.
  rewrite <- (uint64_small (running_total 0 l)) by (apply running_total_range; lia).
  by rewrite running_total_exact.
Qed.

Lemma running_total_app (start : Z) (l1 l2 : list UTXO.t) :
  running_total start (l1 ++ l2) = running_total (running_total start l1) l2.
Proof. unfold running_total. apply fold_left_app. Qed.

Lemma total_of_app (l1 l2 : list UTXO.t) :
  total_of (l1 ++ l2) = total_of l1 + total_of l2.
Proof.
  unfold total_of. induction l1 as [|u l1 IH]; cbn [app map foldr]; [lia|].
  rewrite IH. lia.
Qed.

Lemma total_of_Permutation (l1 l2 : list UTXO.t) :
  l1 ≡ₚ l2 -> total_of l1 = total_of l2.
Proof.
  unfold total_of. induction 1; cbn [map foldr]; lia.
Qed.

Lemma filter_Permutation {A : Type} (f : A -> bool) (l1 l2 : list A) :
  l1 ≡ₚ l2 -> List.filter f l1 ≡ₚ List.filter f l2.
Proof.
  induction 1 as [|x l1 l2 _ IH|x y l|l1 l2 l3 _ IH1 _ IH2]; cbn [List.filter].
  - reflexivity.
  - destruct (f x); [by constructor|exact IH].
  - destruct (f x), (f y); try reflexivity. apply Permutation_swap.
  - by rewrite IH1.
Qed.

(** The loop of [GetBalance] sums the unspent outputs of the wallet. *)
Lemma balance_over_filter (walletID : string) (visit : list (string * UTXO.t)) :
  balance_over walletID visit =
  Go.uint64 (total_of (List.filter (owned walletID) visit.*2)).
Proof.
  rewrite <- running_total_0. unfold balance_over, running_total.
  generalize 0. induction visit as [|[k u] visit IH]; intros acc; [reflexivity|].
  cbn [fold_left fmap list_fmap List.filter snd]. fold (owned walletID u).
  destruct (owned walletID u); cbn [fold_left]; apply IH.
Qed.

(** The balance does not depend on the order in which the map is visited. *)
Lemma balance_over_Permutation (walletID : string) (visit1 visit2 : list (string * UTXO.t)) :
  visit1 ≡ₚ visit2 -> balance_over walletID visit1 = balance_over walletID visit2.
Proof.
  intros H. rewrite !balance_over_filter. f_equal.
  apply total_of_Permutation, filter_Permutation. by apply fmap_Permutation.
Qed.

Lemma GetBalance_unspent (walletID : string) (bc : Blockchain) :
  GetBalance walletID bc = Go.uint64 (total_of (unspent_of walletID bc)).
Proof. apply balance_over_filter. Qed.

Lemma GetBalance_range (walletID : string) (bc : Blockchain) :
  0 <= GetBalance walletID bc < 2 ^ 64.
Proof. rewrite GetBalance_unspent. apply uint64_range. Qed.

(** The balances after one more entry is put under a key that was free. *)
Lemma GetBalance_insert_fresh (walletID key : string) (utxo : UTXO.t) (bc : Blockchain) :
  UTXOs bc !! key = None ->
  GetBalance walletID
    (mkBlockchain (Chain bc) (Pending bc) (<[key := utxo]> (UTXOs bc)) (DifficultyPref bc)) =
  Go.uint64 (GetBalance walletID bc + if owned walletID utxo then UTXO.Amount utxo else 0).
Proof.
  intros Hfresh. unfold GetBalance. cbn [UTXOs].
  rewrite (balance_over_Permutation walletID _ ((key, utxo) :: map_to_list (UTXOs bc)))
    by (by apply map_to_list_insert).
  rewrite !balance_over_filter. cbn [fmap list_fmap List.filter snd].
  destruct (owned walletID utxo).
  - unfold total_of at 1. cbn [map foldr]. fold (total_of (List.filter (owned walletID) (map_to_list (UTXOs bc)).*2)).
    rewrite uint64_add_l. f_equal. lia.
  - rewrite Z.add_0_r. unfold Go.uint64. by rewrite Z.mod_mod.
Qed.

Lemma GetBalance_worth (walletID : string) (bc : Blockchain) :
  GetBalance walletID bc = Go.uint64 (worth walletID (UTXOs bc)).
Proof. apply GetBalance_unspent. Qed.

Lemma worth_insert_fresh (walletID key : string) (u : UTXO.t) (m : gmap string UTXO.t) :
  m !! key = None ->
  worth walletID (<[key := u]> m) = worth walletID m + counts walletID (Some u).
Proof.
  intros Hfresh. unfold worth.
  rewrite (total_of_Permutation _
             (List.filter (owned walletID) ((key, u) :: map_to_list m).*2)).
  - cbn [fmap list_fmap List.filter snd counts].
    destruct (owned walletID u); [| lia].
    unfold total_of. cbn [map foldr]. lia.
  - apply filter_Permutation. apply fmap_Permutation. by apply map_to_list_insert.
Qed.

Lemma worth_delete (walletID key : string) (m : gmap string UTXO.t) :
  worth walletID (delete key m) = worth walletID m - counts walletID (m !! key).
Proof.
  destruct (m !! key) as [u |] eqn:Hu.
  - rewrite <- (insert_delete_id m key u Hu) at 2.
    rewrite worth_insert_fresh by apply lookup_delete_eq. lia.
  - rewrite delete_id by exact Hu. cbn. lia.
Qed.

Lemma worth_insert (walletID key : string) (u : UTXO.t) (m : gmap string UTXO.t) :
  worth walletID (<[key := u]> m) =
  worth walletID m - counts walletID (m !! key) + counts walletID (Some u).
Proof.
  rewrite <- insert_delete_eq, worth_insert_fresh by apply lookup_delete_eq.
  rewrite worth_delete. lia.
Qed.

Lemma uint64_congr (a b q : Z) : a = b + q * 2 ^ 64 -> Go.uint64 a = Go.uint64 b.
Proof.
  intros ->. unfold Go.uint64. apply Z_mod_plus_full.
Qed.

(** * The faucet *)

(** C10, as stated, fails: a second call for the same wallet within the
    same second writes the same key again, and the balance stays at 1000. *)
Lemma faucet_twice_same_balance :
  GetBalance "alice" faucet_once = 1000 /\
  GetBalance "alice" faucet_twice = 1000 /\
  GetBalance "alice" faucet_twice <> GetBalance "alice" faucet_once + 1000.
Proof. vm_compute. repeat split; discriminate. Qed.

(** C10, amended: [CreateFaucetUTXO] stores one unspent output of 1000
    owned by [walletID] under the key [faucet-<walletID>-<now>:0] and
    touches nothing else: the chain and the pool are unchanged in every
    case.  Every balance afterwards is the balance before, less what the
    entry that was stored under that key counted for in it, plus 1000 for
    [walletID], in [uint64] arithmetic.  So when no entry is stored under
    the key, the balance of [walletID] grows by 1000 and every other
    balance is unchanged; when the key holds an unspent output of 1000 of
    [walletID], as after an earlier call in the same second, the balance
    is unchanged; and when the entry under the key does not count for
    [walletID], being spent or owned by another, the balance grows by
    1000. *)
Theorem CreateFaucetUTXO_grant (walletID : string) (now : Z) (bc : Blockchain) :
  let key := faucetOrigin walletID now +:+ ":0" in
  let utxo := UTXO.mk key walletID 1000 (faucetOrigin walletID now) 0 false in
  let bc' := (CreateFaucetUTXO walletID now bc).2 in
  (CreateFaucetUTXO walletID now bc).1 = utxo /\
  UTXOs bc' = <[key := utxo]> (UTXOs bc) /\
  Chain bc' = Chain bc /\
  Pending bc' = Pending bc /\
  (forall other,
     GetBalance other bc' =
     Go.uint64 (GetBalance other bc - counts other (UTXOs bc !! key)
                + share other walletID 1000)) /\
  (UTXOs bc !! key = None ->
   GetBalance walletID bc' = Go.uint64 (GetBalance walletID bc + 1000) /\
   (GetBalance walletID bc + 1000 < 2 ^ 64 ->
    GetBalance walletID bc' = GetBalance walletID bc + 1000) /\
   (forall other, other <> walletID -> GetBalance other bc' = GetBalance other bc)) /\
  (forall old, UTXOs bc !! key = Some old ->
     (owned walletID old = true -> UTXO.Amount old = 1000 ->
      GetBalance walletID bc' = GetBalance walletID bc) /\
     (owned walletID old = false ->
      GetBalance walletID bc' = Go.uint64 (GetBalance walletID bc + 1000))).
Proof.
  intros key utxo bc'.
  assert (Hbal : forall other,
            GetBalance other bc' =
            Go.uint64 (GetBalance other bc - counts other (UTXOs bc !! key)
                       + share other walletID 1000)).
  { intros other. unfold bc', CreateFaucetUTXO. cbn [snd].
    rewrite !GetBalance_worth. cbn [UTXOs]. fold key. rewrite worth_insert.
    assert (Hc : counts other
                   (Some (UTXO.mk key walletID FaucetAmount (faucetOrigin walletID now) 0 false))
                 = share other walletID 1000).
    { unfold counts, owned, share. cbn [UTXO.Owner UTXO.Spent UTXO.Amount negb FaucetAmount].
      rewrite andb_true_r, (String.eqb_sym walletID other). reflexivity. }
    rewrite Hc.
    apply (uint64_congr _ _ (worth other (UTXOs bc) / 2 ^ 64)).
    unfold Go.uint64.
    pose proof (Z.div_mod (worth other (UTXOs bc)) (2 ^ 64) ltac:(lia)). lia. }
  assert (Hself : share walletID walletID 1000 = 1000).
  { unfold share. by rewrite String.eqb_refl. }
  split; [reflexivity |]. split; [reflexivity |]. split; [reflexivity |].
  split; [reflexivity |]. split; [exact Hbal |]. split.
  - intros Hfresh. split; [| split].
    + rewrite Hbal, Hfresh, Hself. cbn [counts]. f_equal. lia.
    + intros Hno. rewrite Hbal, Hfresh, Hself. cbn [counts].
      rewrite Z.sub_0_r. apply uint64_small.
      pose proof (GetBalance_range walletID bc). lia.
    + intros other Hne. rewrite Hbal, Hfresh. cbn [counts]. unfold share.
      destruct (String.eqb_spec other walletID) as [Heq | _]; [done |].
      rewrite Z.sub_0_r, Z.add_0_r. apply uint64_small, GetBalance_range.
  - intros old Hold. split.
    + intros Hown Ham. rewrite Hbal, Hold, Hself. cbn [counts]. rewrite Hown, Ham.
      replace (GetBalance walletID bc - 1000 + 1000) with (GetBalance walletID bc) by lia.
      apply uint64_small, GetBalance_range.
    + intros Hown. rewrite Hbal, Hold, Hself. cbn [counts]. rewrite Hown.
      f_equal. lia.
Qed.

Lemma CreateFaucetUTXO_grant_witness :
  GetBalance "alice" (CreateFaucetUTXO "alice" 0 faucet_once).2 = GetBalance "alice" faucet_once /\
  GetBalance "alice" (CreateFaucetUTXO "alice" 0 faucet_spent).2 =
    Go.uint64 (GetBalance "alice" faucet_spent + 1000).
Proof.
  split.
  - pose proof (CreateFaucetUTXO_grant "alice" 0 faucet_once) as H.
    cbv zeta in H. destruct H as (_ & _ & _ & _ & _ & _ & Htaken).
    refine (proj1 (Htaken (UTXO.mk (faucetOrigin "alice" 0 +:+ ":0") "alice" 1000
                             (faucetOrigin "alice" 0) 0 false) _) _ _); reflexivity.
  - pose proof (CreateFaucetUTXO_grant "alice" 0 faucet_spent) as H.
    cbv zeta in H. destruct H as (_ & _ & _ & _ & _ & _ & Htaken).
    refine (proj2 (Htaken (UTXO.mk (faucetOrigin "alice" 0 +:+ ":0") "alice" 1000
                             (faucetOrigin "alice" 0) 0 true) _) _); reflexivity.
Defined.

(** * Coin selection *)

Lemma less_strict_weak : Go.strict_weak less.
Proof.
  unfold less. split.
  - intros a b H. apply Z.ltb_lt in H. apply Z.ltb_ge. lia.
  - intros a b c H1 H2. apply Z.ltb_ge in H1, H2. apply Z.ltb_ge. lia.
Qed.

Lemma StronglySorted_impl {A : Type} (R1 R2 : relation A) (l : list A) :
  (forall x y, R1 x y -> R2 x y) -> StronglySorted R1 l -> StronglySorted R2 l.
Proof.
  intros HR. induction 1 as [|x l _ IH Hx]; constructor; [exact IH|].
  eapply Forall_impl; [exact Hx|]. intros y. apply HR.
Qed.

(** What the runtime leaves open is the order of outputs of equal amount. *)
Lemma available_spec (rt : Go.Runtime) (bc : Blockchain) (walletID : string) :
  Go.lawful rt ->
  available rt bc walletID ≡ₚ unspent_of walletID bc /\
  StronglySorted descending (available rt bc walletID).
Proof.
  intros [Hrange Hperm Hsorted]. unfold available, unspent_of. split.
  - rewrite Hperm. apply filter_Permutation, fmap_Permutation, Hrange.
  - eapply StronglySorted_impl; [|apply Hsorted, less_strict_weak].
    intros a b H. unfold less in H. apply Z.ltb_ge in H. exact H.
Qed.

Lemma SelectUTXOs_unfold (rt : Go.Runtime) (bc : Blockchain) (walletID : string) (amount : Z) :
  SelectUTXOs rt bc walletID amount =
  (if (accumulate amount (available rt bc walletID) [] 0).2 <? amount
   then Err ErrInsufficientBalance
   else Ok (accumulate amount (available rt bc walletID) [] 0)).
Proof.
  unfold SelectUTXOs. fold (owned walletID). fold (available rt bc walletID).
  by destruct (accumulate amount (available rt bc walletID) [] 0).
Qed.

(** The loop takes the shortest prefix whose running total reaches the
    amount, and the whole slice when no prefix does. *)
Lemma accumulate_spec (amount : Z) (avail selected : list UTXO.t) (total : Z) :
  exists taken rest,
    avail = taken ++ rest /\
    accumulate amount avail selected total =
      (selected ++ taken, running_total total taken) /\
    (rest = [] \/ amount <= running_total total taken) /\
    (forall p q, taken = p ++ q -> q <> [] -> running_total total p < amount).
Proof.
  revert selected total.
  induction avail as [|u avail IH]; intros selected total; cbn [accumulate].
  - exists [], []. split; [reflexivity|]. split; [by rewrite app_nil_r|].
    split; [by left|]. intros p q Hpq Hq. by destruct p, q.
  - destruct (Z.leb_spec amount total) as [Hle|Hlt].
    + exists [], (u :: avail). split; [reflexivity|]. split; [by rewrite app_nil_r|].
      split; [by right|]. intros p q Hpq Hq. by destruct p, q.
    + destruct (IH (selected ++ [u]) (Go.uint64 (total + UTXO.Amount u)))
        as (taken & rest & -> & Hacc & Hstop & Hmin).
      exists (u :: taken), rest. split; [reflexivity|].
      split; [by rewrite Hacc, <- app_assoc|]. split; [exact Hstop|].
      intros [|u' p] q Hpq Hq; [exact Hlt|].
      injection Hpq as <- ->. by apply (Hmin p q).
Qed.

Lemma total_of_nonneg (l : list UTXO.t) :
  (forall u, u ∈ l -> 0 <= UTXO.Amount u) -> 0 <= total_of l.
Proof.
  unfold total_of. induction l as [|u l IH]; intros H; cbn [map foldr]; [lia|].
  assert (0 <= UTXO.Amount u) by (apply H, elem_of_cons; by left).
  assert (0 <= foldr Z.add 0 (map UTXO.Amount l))
    by (apply IH; intros u' Hu'; apply H, elem_of_cons; by right).
  lia.
Qed.

Lemma uint64_le (x : Z) : 0 <= x -> Go.uint64 x <= x.
Proof. intros H. unfold Go.uint64. apply Z.mod_le; lia. Qed.

(** The result of [SelectUTXOs] in terms of the slice it selects from. *)
Lemma SelectUTXOs_spec (rt : Go.Runtime) (bc : Blockchain) (walletID : string) (amount : Z) :
  exists selected rest,
    available rt bc walletID = selected ++ rest /\
    (forall p q, selected = p ++ q -> q <> [] -> running_total 0 p < amount) /\
    (rest = [] \/ amount <= running_total 0 selected) /\
    SelectUTXOs rt bc walletID amount =
      (if running_total 0 selected <? amount then Err ErrInsufficientBalance
       else Ok (selected, running_total 0 selected)).
Proof.
  destruct (accumulate_spec amount (available rt bc walletID) [] 0)
    as (taken & rest & Havail & Hacc & Hstop & Hmin).
  exists taken, rest. repeat split; try assumption.
  rewrite SelectUTXOs_unfold, Hacc. reflexivity.
Qed.

Lemma SelectUTXOs_insufficient (rt : Go.Runtime) (bc : Blockchain) (walletID : string)
    (amount : Z) :
  Go.lawful rt ->
  (forall u, u ∈ unspent_of walletID bc -> 0 <= UTXO.Amount u) ->
  total_of (unspent_of walletID bc) < amount ->
  SelectUTXOs rt bc walletID amount = Err ErrInsufficientBalance.
Proof.
  intros Hrt Hpos Hsum.
  destruct (available_spec rt bc walletID Hrt) as [Hperm _].
  destruct (SelectUTXOs_spec rt bc walletID amount)
    as (selected & rest & Havail & _ & _ & ->).
  assert (Hpos' : forall u, u ∈ selected ++ rest -> 0 <= UTXO.Amount u).
  { intros u Hu. apply Hpos. by rewrite <- Hperm, Havail. }
  assert (total_of (selected ++ rest) = total_of (unspent_of walletID bc))
    by (apply total_of_Permutation; by rewrite <- Havail).
  rewrite total_of_app in *.
  assert (0 <= total_of selected)
    by (apply total_of_nonneg; intros; apply Hpos', elem_of_app; by left).
  assert (0 <= total_of rest)
    by (apply total_of_nonneg; intros; apply Hpos', elem_of_app; by right).
  rewrite running_total_0.
  pose proof (uint64_le (total_of selected)).
  destruct (Z.ltb_spec (Go.uint64 (total_of selected)) amount); [done|lia].
Qed.

Lemma SelectUTXOs_sufficient (rt : Go.Runtime) (bc : Blockchain) (walletID : string)
    (amount : Z) :
  Go.lawful rt ->
  (forall u, u ∈ unspent_of walletID bc -> 0 <= UTXO.Amount u) ->
  amount <= total_of (unspent_of walletID bc) < 2 ^ 64 ->
  exists selected total,
    SelectUTXOs rt bc walletID amount = Ok (selected, total) /\ amount <= total.
Proof.
  intros Hrt Hpos Hsum.
  destruct (available_spec rt bc walletID Hrt) as [Hperm _].
  destruct (SelectUTXOs_spec rt bc walletID amount)
    as (selected & rest & Havail & _ & Hstop & ->).
  exists selected, (running_total 0 selected).
  assert (amount <= running_total 0 selected) as Hle.
  { destruct Hstop as [->|Hle]; [|exact Hle].
    rewrite app_nil_r in Havail. rewrite running_total_0.
    rewrite (total_of_Permutation selected (unspent_of walletID bc))
      by (by rewrite <- Havail).
    rewrite uint64_small; [lia|].
    split; [|lia]. by apply total_of_nonneg. }
  split; [|exact Hle].
  destruct (Z.ltb_spec (running_total 0 selected) amount); [lia|done].
Qed.

(** Three outputs of amounts 70, 30 and 10 are sorted in one way only. *)
Lemma available_70_30_10 (rt : Go.Runtime) (bc : Blockchain) (walletID : string)
    (u70 u30 u10 : UTXO.t) :
  Go.lawful rt ->
  unspent_of walletID bc ≡ₚ [u70; u30; u10] ->
  UTXO.Amount u70 = 70 -> UTXO.Amount u30 = 30 -> UTXO.Amount u10 = 10 ->
  available rt bc walletID = [u70; u30; u10].
Proof.
  intros Hrt Hperm H70 H30 H10.
  destruct (available_spec rt bc walletID Hrt) as [Hperm' Hsorted].
  apply (StronglySorted_unique_strong descending); [|exact Hsorted| |by rewrite Hperm'].
  - intros x1 x2 Hx1 Hx2 H12 H21. unfold descending in *.
    rewrite Hperm', Hperm in Hx1.
    repeat (apply elem_of_cons in Hx1 as [->|Hx1]);
      repeat (apply elem_of_cons in Hx2 as [->|Hx2]);
      try reflexivity; try (exfalso; lia); try (by apply elem_of_nil in Hx1);
      try (by apply elem_of_nil in Hx2).
  - unfold descending. repeat constructor; lia.
Qed.

Lemma SelectUTXOs_70_30_10 (rt : Go.Runtime) (bc : Blockchain) (walletID : string)
    (u70 u30 u10 : UTXO.t) :
  Go.lawful rt ->
  unspent_of walletID bc ≡ₚ [u70; u30; u10] ->
  UTXO.Amount u70 = 70 -> UTXO.Amount u30 = 30 -> UTXO.Amount u10 = 10 ->
  SelectUTXOs rt bc walletID 65 = Ok ([u70], 70).
Proof.
  intros Hrt Hperm H70 H30 H10.
  rewrite SelectUTXOs_unfold, (available_70_30_10 rt bc walletID u70 u30 u10) by assumption.
  cbn [accumulate]. rewrite H70. reflexivity.
Qed.

Lemma CreateTransaction_70_30_10 {ext : External} (env : Env) (bc : Blockchain)
    (ws : wallet.Store) (senderID receiverID note pubKey privKey priv : string)
    (u70 u30 u10 : UTXO.t) :
  Go.lawful (runtime env) ->
  unspent_of senderID bc ≡ₚ [u70; u30; u10] ->
  UTXO.Amount u70 = 70 -> UTXO.Amount u30 = 30 -> UTXO.Amount u10 = 10 ->
  is_Some (wallet.Get senderID ws) ->
  is_Some (wallet.Get receiverID ws) ->
  Go.hex_DecodeString privKey = Some priv ->
  Go.len priv = wallet.PrivateKeySize ->
  exists tx,
    CreateTransaction env bc ws senderID receiverID 65 note pubKey privKey = Ok tx /\
    Transaction.Inputs tx = [UTXORef.mk (UTXO.OriginTx u70) (UTXO.Index u70)] /\
    Transaction.Outputs tx =
      [UTXO.mk "" receiverID 65 (Transaction.ID tx) 0 false;
       UTXO.mk "" senderID 5 (Transaction.ID tx) 1 false].
Proof.
  intros Hrt Hperm H70 H30 H10 [ws_s Hs] [ws_r Hr] Hpriv Hlen.
  unfold CreateTransaction. rewrite Hs, Hr.
  rewrite (SelectUTXOs_70_30_10 (runtime env) bc senderID u70 u30 u10) by assumption.
  cbn [mbind result_bind]. unfold wallet.SignWithPriv. rewrite Hpriv, Hlen.
  cbn [Z.eqb wallet.PrivateKeySize Pos.eqb negb].
  eexists. split; [reflexivity|]. split; reflexivity.
Qed.

(** What the code does for C4, with the running total as the code keeps
    it, a [uint64] that wraps ([running_total]): [SelectUTXOs] selects
    from the unspent outputs of the account, sorted descending by amount;
    it takes the shortest prefix whose running total reaches the amount
    and fails with "insufficient balance" when the running total of all
    of them stays below the amount, which is the case when no amount is
    negative and the exact total of these outputs is below the amount.
    With outputs of 70, 30 and 10 and a transfer of 65 the selection is
    the output of 70, and the transaction built has the outputs 65 to the
    receiver and 5 back to the sender. *)
Lemma SelectUTXOs_greedy {ext : External} (rt : Go.Runtime) (bc : Blockchain)
    (walletID : string) (amount : Z) :
  Go.lawful rt ->
  (available rt bc walletID ≡ₚ unspent_of walletID bc /\
   StronglySorted descending (available rt bc walletID)) /\
  (exists selected rest,
     available rt bc walletID = selected ++ rest /\
     (forall p q, selected = p ++ q -> q <> [] -> running_total 0 p < amount) /\
     (rest = [] \/ amount <= running_total 0 selected) /\
     SelectUTXOs rt bc walletID amount =
       (if running_total 0 selected <? amount then Err ErrInsufficientBalance
        else Ok (selected, running_total 0 selected))) /\
  ((forall u, u ∈ unspent_of walletID bc -> 0 <= UTXO.Amount u) ->
   total_of (unspent_of walletID bc) < amount ->
   SelectUTXOs rt bc walletID amount = Err ErrInsufficientBalance) /\
  (forall (u70 u30 u10 : UTXO.t),
     unspent_of walletID bc ≡ₚ [u70; u30; u10] ->
     UTXO.Amount u70 = 70 -> UTXO.Amount u30 = 30 -> UTXO.Amount u10 = 10 ->
     SelectUTXOs rt bc walletID 65 = Ok ([u70], 70) /\
     forall (env : Env) (ws : wallet.Store) (receiverID note pubKey privKey priv : string),
       runtime env = rt ->
       is_Some (wallet.Get walletID ws) ->
       is_Some (wallet.Get receiverID ws) ->
       Go.hex_DecodeString privKey = Some priv ->
       Go.len priv = wallet.PrivateKeySize ->
       exists tx,
         CreateTransaction env bc ws walletID receiverID 65 note pubKey privKey = Ok tx /\
         Transaction.Inputs tx = [UTXORef.mk (UTXO.OriginTx u70) (UTXO.Index u70)] /\
         Transaction.Outputs tx =
           [UTXO.mk "" receiverID 65 (Transaction.ID tx) 0 false;
            UTXO.mk "" walletID 5 (Transaction.ID tx) 1 false]).
Proof.
  intros Hrt. split; [by apply available_spec|].
  split; [apply SelectUTXOs_spec|].
  split; [by apply SelectUTXOs_insufficient|].
  intros u70 u30 u10 Hperm H70 H30 H10.
  split; [by apply (SelectUTXOs_70_30_10 rt bc walletID u70 u30 u10)|].
  intros env ws receiverID note pubKey privKey priv <- Hs Hr Hpriv Hlen.
  by apply (CreateTransaction_70_30_10 env bc ws walletID receiverID note pubKey privKey priv
              u70 u30 u10).
Qed.

Lemma SelectUTXOs_greedy_witness :
  Go.lawful Go.runtime0 /\
  SelectUTXOs Go.runtime0 scenario "alice" 65 =
    Ok ([UTXO.mk "t2:0" "alice" 70 "t2" 0 false], 70).
Proof.
  split; [exact runtime0_lawful|].
  refine (proj1 (proj2 (proj2 (proj2
            (SelectUTXOs_greedy (ext := external0) Go.runtime0 scenario "alice" 65
               runtime0_lawful)))
            (UTXO.mk "t2:0" "alice" 70 "t2" 0 false)
            (UTXO.mk "t1:0" "alice" 30 "t1" 0 false)
            (UTXO.mk "t3:0" "alice" 10 "t3" 0 false) _ eq_refl eq_refl eq_refl)).
  vm_compute. symmetry. apply (Permutation_rev [_; _; _]).
Defined.

(** * The running total wraps *)

Lemma same_amounts (l l' : list UTXO.t) (c : Z) :
  l ≡ₚ l' -> Forall (fun u => UTXO.Amount u = c) l' ->
  Forall (fun u => UTXO.Amount u = c) l /\ length l = length l'.
Proof.
  intros Hperm Hall. split.
  - by rewrite Hperm.
  - by rewrite Hperm.
Qed.

(** C4, on the code: the accumulation [total += utxo.Amount] is done in
    [uint64] and wraps, so the selection does not follow the totals of the
    claim.  When the account owns two unspent outputs of [2^63] and
    [2^63 + 1] is requested, the outputs total [2^64] and cover the
    amount, yet [SelectUTXOs] fails with "insufficient balance".  When it
    owns three unspent outputs of [2^63 + 2] and [2^63 + 3] is requested,
    any two of them reach the amount, yet all three are selected and the
    total returned is [2^63 + 6], not their sum. *)
Theorem SelectUTXOs_wraps_total (rt : Go.Runtime) (bc : Blockchain) (walletID : string) :
  Go.lawful rt ->
  (forall u1 u2 : UTXO.t,
     unspent_of walletID bc ≡ₚ [u1; u2] ->
     UTXO.Amount u1 = 2 ^ 63 -> UTXO.Amount u2 = 2 ^ 63 ->
     total_of (unspent_of walletID bc) = 2 ^ 64 /\
     2 ^ 63 + 1 <= total_of (unspent_of walletID bc) /\
     SelectUTXOs rt bc walletID (2 ^ 63 + 1) = Err ErrInsufficientBalance) /\
  (forall u1 u2 u3 : UTXO.t,
     unspent_of walletID bc ≡ₚ [u1; u2; u3] ->
     UTXO.Amount u1 = 2 ^ 63 + 2 -> UTXO.Amount u2 = 2 ^ 63 + 2 ->
     UTXO.Amount u3 = 2 ^ 63 + 2 ->
     total_of [u1; u2] = 2 ^ 64 + 4 /\
     exists selected,
       selected ≡ₚ [u1; u2; u3] /\
       total_of selected = 3 * 2 ^ 63 + 6 /\
       SelectUTXOs rt bc walletID (2 ^ 63 + 3) = Ok (selected, 2 ^ 63 + 6)).
Proof.
  intros Hrt.
  destruct (available_spec rt bc walletID Hrt) as [Hperm _].
  split.
  - intros u1 u2 Hu H1 H2.
    assert (Htotal : total_of (unspent_of walletID bc) = 2 ^ 64).
    { rewrite (total_of_Permutation _ _ Hu). unfold total_of. cbn [map foldr].
      rewrite H1, H2. reflexivity. }
    split; [exact Htotal |]. split; [rewrite Htotal; lia |].
    destruct (same_amounts (available rt bc walletID) [u1; u2] (2 ^ 63)) as [Hall Hlen].
    { by rewrite Hperm. }
    { repeat constructor; assumption. }
    rewrite SelectUTXOs_unfold.
    destruct (available rt bc walletID) as [| a [| b [| c l]]]; try discriminate Hlen.
    inversion Hall as [| ? ? Ha Hall']; subst. inversion Hall' as [| ? ? Hb _]; subst.
    cbn [accumulate]. rewrite Ha, Hb. reflexivity.
  - intros u1 u2 u3 Hu H1 H2 H3. split.
    { unfold total_of. cbn [map foldr]. rewrite H1, H2. reflexivity. }
    exists (available rt bc walletID).
    assert (Hsel : available rt bc walletID ≡ₚ [u1; u2; u3]) by (by rewrite Hperm).
    split; [exact Hsel |]. split.
    { rewrite (total_of_Permutation _ _ Hsel). unfold total_of. cbn [map foldr].
      rewrite H1, H2, H3. reflexivity. }
    destruct (same_amounts (available rt bc walletID) [u1; u2; u3] (2 ^ 63 + 2))
      as [Hall Hlen]; [exact Hsel | repeat constructor; assumption |].
    rewrite SelectUTXOs_unfold.
    destruct (available rt bc walletID) as [| a [| b [| c [| d l]]]]; try discriminate Hlen.
    inversion Hall as [| ? ? Ha Hall']; subst. inversion Hall' as [| ? ? Hb Hall'']; subst.
    inversion Hall'' as [| ? ? Hc _]; subst.
    cbn [accumulate]. rewrite Ha, Hb, Hc. reflexivity.
Qed.

Lemma SelectUTXOs_wraps_total_witness :
  Go.lawful Go.runtime0 /\
  total_of (unspent_of "alice" two_large) = 2 ^ 64 /\
  SelectUTXOs Go.runtime0 two_large "alice" (2 ^ 63 + 1) = Err ErrInsufficientBalance.
Proof.
  split; [exact runtime0_lawful |].
  assert (Hu : unspent_of "alice" two_large ≡ₚ [large "a:0" (2 ^ 63); large "b:0" (2 ^ 63)]).
  { vm_compute. first [reflexivity | apply perm_swap]. }
  destruct (proj1 (SelectUTXOs_wraps_total Go.runtime0 two_large "alice" runtime0_lawful)
              _ _ Hu eq_refl eq_refl) as (Htotal & _ & Hsel).
  split; [exact Htotal | exact Hsel].
Defined.

(** The second case on a concrete ledger: three outputs of [2^63 + 2],
    all selected for a request that two of them cover. *)
Lemma SelectUTXOs_three_large :
  amounts_of (SelectUTXOs Go.runtime0 three_large "alice" (2 ^ 63 + 3)) =
    Ok ([2 ^ 63 + 2; 2 ^ 63 + 2; 2 ^ 63 + 2], 2 ^ 63 + 6).
Proof. vm_compute. reflexivity. Qed.

(** * Determinism of the selection *)

#[local] Instance Z_ge_antisym : AntiSymm (=) (fun x y : Z => y <= x).
Proof. intros x y H1 H2. lia. Qed.

Lemma available_amounts (rt1 rt2 : Go.Runtime) (bc : Blockchain) (walletID : string) :
  Go.lawful rt1 -> Go.lawful rt2 ->
  map UTXO.Amount (available rt1 bc walletID) = map UTXO.Amount (available rt2 bc walletID).
Proof.
  intros H1 H2.
  destruct (available_spec rt1 bc walletID H1) as [Hp1 Hs1].
  destruct (available_spec rt2 bc walletID H2) as [Hp2 Hs2].
  apply (StronglySorted_unique (fun x y : Z => y <= x)).
  - apply (StronglySorted_fmap UTXO.Amount descending); [done|exact Hs1].
  - apply (StronglySorted_fmap UTXO.Amount descending); [done|exact Hs2].
  - apply (fmap_Permutation UTXO.Amount). by rewrite Hp1, Hp2.
Qed.

Lemma accumulate_amounts (amount : Z) (avail1 avail2 selected1 selected2 : list UTXO.t)
    (total : Z) :
  map UTXO.Amount avail1 = map UTXO.Amount avail2 ->
  map UTXO.Amount selected1 = map UTXO.Amount selected2 ->
  map UTXO.Amount (accumulate amount avail1 selected1 total).1 =
  map UTXO.Amount (accumulate amount avail2 selected2 total).1 /\
  (accumulate amount avail1 selected1 total).2 =
  (accumulate amount avail2 selected2 total).2.
Proof.
  revert avail2 selected1 selected2 total.
  induction avail1 as [|u1 avail1 IH]; intros [|u2 avail2] selected1 selected2 total Ha Hs;
    try discriminate; cbn [accumulate].
  - by split.
  - cbn [map] in Ha. injection Ha as Hu Ha.
    destruct (amount <=? total); [by split|].
    rewrite Hu. apply IH; [exact Ha|].
    rewrite !map_app. cbn [map]. by rewrite Hs, Hu.
Qed.

Lemma elem_of_fmap_inj {A B : Type} (f : A -> B) (l : list A) (x y : A) :
  NoDup (map f l) -> x ∈ l -> y ∈ l -> f x = f y -> x = y.
Proof.
  induction l as [|a l IH]; cbn [map]; intros Hnd Hx Hy Hf.
  - by apply elem_of_nil in Hx.
  - apply NoDup_cons in Hnd as [Ha Hnd].
    apply elem_of_cons in Hx as [->|Hx]; apply elem_of_cons in Hy as [->|Hy].
    + reflexivity.
    + exfalso. apply Ha. rewrite Hf. by apply (list_elem_of_fmap_2 f).
    + exfalso. apply Ha. rewrite <- Hf. by apply (list_elem_of_fmap_2 f).
    + by apply IH.
Qed.

(** C5, as stated, fails: on one ledger, in which a wallet owns two
    outputs of 50, two runs that visit the map in opposite orders select
    different outputs. *)
Lemma SelectUTXOs_not_deterministic :
  Go.lawful Go.runtime0 /\ Go.lawful Go.runtime1 /\
  SelectUTXOs Go.runtime0 ties "alice" 30 <> SelectUTXOs Go.runtime1 ties "alice" 30.
Proof.
  split; [exact runtime0_lawful|]. split; [exact runtime1_lawful|].
  vm_compute. discriminate.
Qed.

(** C5, amended: two calls on one ledger agree on whether the selection
    succeeds, on the amounts selected, in order, and on the total; the
    outputs selected are in descending order of amount.  Which of several
    outputs of one amount is selected is not determined (the order of
    iteration over the map and [sort.Slice] decide it, and the sort is not
    stable); when the unspent outputs of the account have pairwise
    different amounts, the two calls return the same selection. *)
Theorem SelectUTXOs_deterministic_amounts (rt1 rt2 : Go.Runtime) (bc : Blockchain)
    (walletID : string) (amount : Z) :
  Go.lawful rt1 -> Go.lawful rt2 ->
  amounts_of (SelectUTXOs rt1 bc walletID amount) =
  amounts_of (SelectUTXOs rt2 bc walletID amount) /\
  (forall selected total,
     SelectUTXOs rt1 bc walletID amount = Ok (selected, total) ->
     StronglySorted descending selected) /\
  (NoDup (map UTXO.Amount (unspent_of walletID bc)) ->
   SelectUTXOs rt1 bc walletID amount = SelectUTXOs rt2 bc walletID amount).
Proof.
  intros H1 H2. split; [|split].
  - rewrite !SelectUTXOs_unfold.
    destruct (accumulate_amounts amount (available rt1 bc walletID)
                (available rt2 bc walletID) [] [] 0
                (available_amounts rt1 rt2 bc walletID H1 H2) eq_refl) as [Hsel Htot].
    rewrite Htot. destruct (_ <? amount); [reflexivity|].
    unfold amounts_of. cbn [fmap result_fmap]. by rewrite Hsel, Htot.
  - intros selected total Hsel.
    destruct (SelectUTXOs_spec rt1 bc walletID amount)
      as (selected' & rest & Havail & _ & _ & Hres).
    rewrite Hres in Hsel. destruct (_ <? amount); [discriminate|].
    injection Hsel as <- _.
    destruct (available_spec rt1 bc walletID H1) as [_ Hsorted].
    rewrite Havail in Hsorted. by apply StronglySorted_app_1_l in Hsorted.
  - intros Hnd. rewrite !SelectUTXOs_unfold.
    destruct (available_spec rt1 bc walletID H1) as [Hp1 Hs1].
    destruct (available_spec rt2 bc walletID H2) as [Hp2 Hs2].
    assert (available rt1 bc walletID = available rt2 bc walletID) as ->; [|reflexivity].
    apply (StronglySorted_unique_strong descending); [|exact Hs1|exact Hs2|by rewrite Hp1, Hp2].
    intros x1 x2 Hx1 Hx2 H12 H21. unfold descending in *.
    rewrite Hp1 in Hx1. rewrite Hp2 in Hx2.
    apply (elem_of_fmap_inj UTXO.Amount (unspent_of walletID bc)); try assumption. lia.
Qed.

Lemma SelectUTXOs_deterministic_amounts_witness :
  Go.lawful Go.runtime0 /\ Go.lawful Go.runtime1 /\
  amounts_of (SelectUTXOs Go.runtime0 ties "alice" 30) =
  amounts_of (SelectUTXOs Go.runtime1 ties "alice" 30).
Proof.
  split; [exact runtime0_lawful|]. split; [exact runtime1_lawful|].
  exact (proj1 (SelectUTXOs_deterministic_amounts Go.runtime0 Go.runtime1 ties "alice" 30
                  runtime0_lawful runtime1_lawful)).
Defined.

(** * Sealing and validation together *)

Lemma ValidateTransaction_spent {ext : External} (bc : Blockchain) (tx : Transaction.t)
    (input : UTXORef.t) (utxo : UTXO.t) :
  input ∈ Transaction.Inputs tx ->
  UTXOs bc !! key_of input = Some utxo ->
  UTXO.Spent utxo = true ->
  ValidateTransaction bc tx <> Ok tt.
Proof.
  intros Hin Hlook Hspent Hok.
  apply ValidateTransaction_Ok in Hok as (_ & _ & Hinputs & _).
  destruct (Hinputs input Hin) as (utxo' & Hlook' & Hs & _). congruence.
Qed.

(** C1, amended: [Mine] does not check the inputs again.  The block holds
    the reward transaction followed by every pending transaction, in the
    order of the pool, none dropped; an output of the set that an input of
    a pending transaction names is marked spent (and stays so unless an
    output of the block is stored under the same key).  Spent inputs are
    refused by [ValidateTransaction] only: it fails on a transaction with
    an input that is marked spent in the set, and its verdict does not
    depend on the pending pool. *)
Theorem Mine_seals_whole_pool {ext : External} (nonceStart : Z) (minerWalletID : string)
    (now : Z) (bc : Blockchain) :
  Chain bc <> [] ->
  exists b bc',
    Mine nonceStart minerWalletID now bc = Ok (b, bc') /\
    Block.Transactions b =
      coinbaseTx (Z.of_nat (length (Chain bc))) now minerWalletID :: Pending bc /\
    (forall key utxo,
       key ∈ input_keys (Pending bc) ->
       key ∉ output_keys (Block.Transactions b) ->
       UTXOs bc !! key = Some utxo ->
       UTXOs bc' !! key = Some (UTXO.with_Spent true utxo)) /\
    (forall ledger tx input utxo,
       input ∈ Transaction.Inputs tx ->
       UTXOs ledger !! key_of input = Some utxo ->
       UTXO.Spent utxo = true ->
       ValidateTransaction ledger tx <> Ok tt) /\
    (forall tx tx',
       ValidateTransaction (AddPending tx' bc) tx = ValidateTransaction bc tx).
Proof.
  intros Hchain.
  destruct (Mine_spec nonceStart minerWalletID now bc Hchain)
    as (b & HM & _ & _ & Htx & _).
  eexists b, _. split; [exact HM|]. split; [exact Htx|]. split; [|split].
  - intros key utxo Hin Hout Hlook. cbn [UTXOs].
    rewrite commit_lookup by exact Hout.
    rewrite Htx, coinbase_input_keys, decide_True by exact Hin.
    by rewrite Hlook.
  - intros ledger tx input utxo. apply ValidateTransaction_spent.
  - intros tx tx'. apply ValidateTransaction_AddPending.
Qed.

Lemma Mine_seals_whole_pool_witness :
  Chain spend_twice_pool <> [] /\
  exists b bc',
    Mine 0 "miner" 1 spend_twice_pool = Ok (b, bc') /\
    Block.Transactions b = [coinbaseTx 1 1 "miner"; spend_twice_tx1; spend_twice_tx2].
Proof.
  assert (H : Chain spend_twice_pool <> []) by discriminate.
  split; [exact H|].
  destruct (Mine_seals_whole_pool (ext := external0) 0 "miner" 1 spend_twice_pool H)
    as (b & bc' & HM & Htx & _).
  exists b, bc'. split; [exact HM|exact Htx].
Defined.

(** * Validation and the totals *)

Lemma output_total_running (outputs : list UTXO.t) :
  output_total outputs = running_total 0 outputs.
Proof. reflexivity. Qed.

(** C3: the totals are compared as [uint64] sums, which wrap around.  A
    transaction that [ValidateTransaction] accepts is still accepted with
    two more outputs of 2^63 each, although its outputs then exceed its
    inputs by 2^64. *)
Theorem ValidateTransaction_wraps_totals {ext : External} (bc : Blockchain)
    (tx : Transaction.t) :
  ValidateTransaction bc tx = Ok tt ->
  ValidateTransaction bc (inflate tx) = Ok tt /\
  total_of (Transaction.Outputs (inflate tx)) =
    total_of (Transaction.Outputs tx) + 2 ^ 64.
Proof.
  intros Hok. split.
  - apply ValidateTransaction_Ok in Hok as (Hsig & Hid & Hin & Htot).
    apply ValidateTransaction_Ok. cbn [inflate Transaction.PubKey Transaction.SenderID
      Transaction.ReceiverID Transaction.Amount Transaction.Timestamp Transaction.Note
      Transaction.Signature Transaction.Inputs Transaction.Outputs].
    repeat split; try assumption.
    rewrite Htot, output_total_running, (output_total_running (_ ++ _)), running_total_app.
    pose proof (running_total_range 0 (Transaction.Outputs tx) ltac:(lia)) as Hrange.
    set (x := running_total 0 (Transaction.Outputs tx)) in *.
    unfold running_total. cbn [fold_left UTXO.Amount].
    rewrite uint64_add_l.
    replace (x + 2 ^ 63 + 2 ^ 63) with (x + 1 * 2 ^ 64) by lia.
    unfold Go.uint64. rewrite Z_mod_plus_full.
    symmetry. by apply Z.mod_small.
  - cbn [inflate Transaction.Outputs]. rewrite total_of_app.
    unfold total_of at 2. cbn [map foldr UTXO.Amount]. lia.
Qed.

Lemma ValidateTransaction_wraps_totals_witness :
  ValidateTransaction (ext := external0) ten spend_ten = Ok tt /\
  ValidateTransaction (ext := external0) ten (inflate spend_ten) = Ok tt.
Proof.
  assert (H : ValidateTransaction (ext := external0) ten spend_ten = Ok tt)
    by (vm_compute; reflexivity).
  split; [exact H|].
  exact (proj1 (ValidateTransaction_wraps_totals (ext := external0) ten spend_ten H)).
Defined.

(** A public key that is not 32 bytes long makes [ed25519.Verify], and so
    [ValidateTransaction], panic: no error is returned. *)
Lemma ValidateTransaction_short_key {ext : External} (bc : Blockchain) :
  ValidateTransaction bc
    (Transaction.mk "tx-1" "alice" "bob" 1 "" 1 "00" "" [] [] "transfer") = Panic.
Proof. reflexivity. Qed.

(** * float64: rounding to 53 bits *)

Lemma digits2_pos_spec (p : positive) :
  2 ^ (Z.pos (digits2_pos p) - 1) <= Z.pos p < 2 ^ Z.pos (digits2_pos p).
Proof.
  induction p as [p IH|p IH|]; cbn [digits2_pos].
  - assert (Hd : Z.pos (Pos.succ (digits2_pos p)) = Z.pos (digits2_pos p) + 1) by lia.
    rewrite Hd. set (d := Z.pos (digits2_pos p)) in *.
    assert (2 ^ (d + 1) = 2 * 2 ^ d) by (rewrite Z.pow_add_r; lia).
    assert (2 ^ d = 2 * 2 ^ (d - 1))
      by (rewrite <- (Z.pow_succ_r 2 (d - 1)) by lia; f_equal; lia).
    replace (d + 1 - 1) with d by lia. lia.
  - assert (Hd : Z.pos (Pos.succ (digits2_pos p)) = Z.pos (digits2_pos p) + 1) by lia.
    rewrite Hd. set (d := Z.pos (digits2_pos p)) in *.
    assert (2 ^ (d + 1) = 2 * 2 ^ d) by (rewrite Z.pow_add_r; lia).
    assert (2 ^ d = 2 * 2 ^ (d - 1))
      by (rewrite <- (Z.pow_succ_r 2 (d - 1)) by lia; f_equal; lia).
    replace (d + 1 - 1) with d by lia. lia.
  - simpl. lia.
Qed.

Lemma Zdigits2_unique (x d : Z) :
  0 < x -> 2 ^ (d - 1) <= x < 2 ^ d -> Zdigits2 x = d.
Proof.
  intros Hx Hd. destruct x as [|p|p]; try lia. cbn [Zdigits2].
  pose proof (digits2_pos_spec p) as Hp.
  set (d' := Z.pos (digits2_pos p)) in *.
  assert (0 < d).
  { destruct (Z.le_gt_cases d 0) as [H0|H0]; [|exact H0].
    assert (2 ^ d <= 2 ^ 0) by (destruct (Z.eq_dec d 0) as [->|]; [lia|rewrite Z.pow_neg_r; lia]).
    simpl in *. lia. }
  destruct (Z.lt_trichotomy d' d) as [Hlt|[Heq|Hgt]]; [|exact Heq|].
  - assert (2 ^ d' <= 2 ^ (d - 1)) by (apply Z.pow_le_mono_r; lia). lia.
  - assert (2 ^ d <= 2 ^ (d' - 1)) by (apply Z.pow_le_mono_r; lia). lia.
Qed.

Lemma shr_1_nonneg (m : Z) (r s : bool) :
  0 <= m ->
  shr_1 (Build_shr_record m r s) = Build_shr_record (m / 2) (Z.odd m) (r || s).
Proof.
  intros Hm. rewrite <- Z.div2_div.
  destruct m as [|[p|p|]|]; try lia; reflexivity.
Qed.

Lemma iter_pos_nat {A : Type} (f : A -> A) (p : positive) (x : A) :
  SpecFloat.iter_pos f p x = Nat.iter (Pos.to_nat p) f x.
Proof.
  revert x. induction p as [p IH|p IH|]; intros x; cbn [SpecFloat.iter_pos].
  - rewrite !IH, Pos2Nat.inj_xI, <- Nat.iter_add, <- Nat.iter_succ_r.
    f_equal. lia.
  - rewrite !IH, Pos2Nat.inj_xO, <- Nat.iter_add. f_equal. lia.
  - reflexivity.
Qed.

Lemma iter_shr_1 (k : nat) (m : Z) :
  0 <= m ->
  Nat.iter (S k) shr_1 (Build_shr_record m false false) =
  Build_shr_record (m / 2 ^ Z.of_nat (S k)) (Z.odd (m / 2 ^ Z.of_nat k))
    (negb (m mod 2 ^ Z.of_nat k =? 0)).
Proof.
  intros Hm. induction k as [|k IH].
  - cbn [Nat.iter nat_rect]. rewrite shr_1_nonneg by exact Hm.
    change (2 ^ Z.of_nat 1) with 2. change (2 ^ Z.of_nat 0) with 1.
    rewrite Z.div_1_r, Z.mod_1_r. reflexivity.
  - change (Nat.iter (S (S k)) shr_1 ?x) with (shr_1 (Nat.iter (S k) shr_1 x)).
    rewrite IH.
    assert (Hpow : 0 < 2 ^ Z.of_nat k) by (apply Z.pow_pos_nonneg; lia).
    assert (HS : 2 ^ Z.of_nat (S k) = 2 ^ Z.of_nat k * 2)
      by (rewrite Nat2Z.inj_succ, Z.pow_succ_r; lia).
    assert (HSS : 2 ^ Z.of_nat (S (S k)) = 2 ^ Z.of_nat (S k) * 2)
      by (rewrite (Nat2Z.inj_succ (S k)), Z.pow_succ_r; lia).
    rewrite shr_1_nonneg by (apply Z.div_pos; lia).
    f_equal.
    + rewrite HSS. apply Z.div_div; lia.
    + rewrite HS, Z.rem_mul_r by lia.
      rewrite Zmod_odd.
      pose proof (Z.mod_pos_bound m (2 ^ Z.of_nat k) Hpow).
      destruct (Z.odd (m / 2 ^ Z.of_nat k)).
      * cbn [orb]. symmetry. apply negb_true_iff, Z.eqb_neq. lia.
      * cbn [orb]. rewrite Z.mul_0_r, Z.add_0_r. reflexivity.
Qed.

(** Shifting an exact mantissa right by [n] bits. *)
Lemma shr_exact (m e n : Z) :
  0 <= m ->
  shr (Build_shr_record m false false) e n =
  if 0 <? n
  then (Build_shr_record (m / 2 ^ n) (Z.odd (m / 2 ^ (n - 1)))
          (negb (m mod 2 ^ (n - 1) =? 0)), e + n)
  else (Build_shr_record m false false, e).
Proof.
  intros Hm. unfold shr. destruct n as [|p|p]; try reflexivity.
  rewrite iter_pos_nat.
  destruct (Pos2Nat.is_succ p) as [k Hk]. rewrite Hk, iter_shr_1 by exact Hm.
  assert (Z.pos p = Z.of_nat (S k)) as -> by lia.
  replace (Z.of_nat (S k) - 1) with (Z.of_nat k) by lia.
  reflexivity.
Qed.

Lemma round_nearest_even_cases (q : Z) (r s : bool) :
  round_nearest_even q (loc_of_shr_record (Build_shr_record q r s)) = q \/
  (round_nearest_even q (loc_of_shr_record (Build_shr_record q r s)) = q + 1 /\ r = true).
Proof.
  destruct r, s; cbn [loc_of_shr_record round_nearest_even]; try (by left).
  - right. by split.
  - destruct (Z.even q); [by left|right; by split].
Qed.

Lemma shr_fexp_exact (m e : Z) :
  0 < m -> -1074 <= Zdigits2 m + e - 53 ->
  shr_fexp 53 1024 m e loc_Exact =
  shr (Build_shr_record m false false) e (Zdigits2 m - 53).
Proof.
  intros Hm He. unfold shr_fexp, fexp, emin. cbn [shr_record_of_loc].
  rewrite Z.max_l by lia. f_equal. lia.
Qed.

(** The rounding of [m * 2^e], with [m] of at least 53 bits, to 53 bits:
    [n] low bits are dropped and the mantissa [k] is the quotient or,
    only when the highest dropped bit is set, its successor. *)
Lemma binary_round_aux_spec (m e : Z) :
  2 ^ 52 <= m -> -1074 <= e + (Zdigits2 m - 53) -> e + (Zdigits2 m - 53) + 1 <= 971 ->
  exists k,
    (k = m / 2 ^ (Zdigits2 m - 53) \/
     (k = m / 2 ^ (Zdigits2 m - 53) + 1 /\ 0 < Zdigits2 m - 53 /\
      Z.odd (m / 2 ^ (Zdigits2 m - 53 - 1)) = true)) /\
    2 ^ 52 <= k <= 2 ^ 53 /\
    binary_round_aux 53 1024 false m e loc_Exact =
      if k <? 2 ^ 53 then S754_finite false (Z.to_pos k) (e + (Zdigits2 m - 53))
      else S754_finite false (Z.to_pos (2 ^ 52)) (e + (Zdigits2 m - 53) + 1).
Proof.
  intros Hm Hlo Hhi.
  assert (Hpos : 0 < m) by lia.
  assert (Hd : 2 ^ (Zdigits2 m - 1) <= m < 2 ^ Zdigits2 m).
  { destruct m as [|p|p]; try lia. apply digits2_pos_spec. }
  set (d := Zdigits2 m) in *.
  assert (Hd53 : 53 <= d).
  { destruct (Z.le_gt_cases 53 d) as [H|H]; [exact H|].
    assert (2 ^ d <= 2 ^ 52) by (apply Z.pow_le_mono_r; lia). lia. }
  set (n := d - 53) in *.
  assert (Hn : 0 <= n) by lia.
  assert (Hpn : 0 < 2 ^ n) by (apply Z.pow_pos_nonneg; lia).
  assert (Hlow : 2 ^ (d - 1) = 2 ^ n * 2 ^ 52)
    by (rewrite <- Z.pow_add_r by lia; f_equal; lia).
  assert (Hupp : 2 ^ d = 2 ^ n * 2 ^ 53)
    by (rewrite <- Z.pow_add_r by lia; f_equal; lia).
  assert (Hq : 2 ^ 52 <= m / 2 ^ n < 2 ^ 53).
  { split.
    - apply Z.div_le_lower_bound; lia.
    - apply Z.div_lt_upper_bound; lia. }
  unfold binary_round_aux.
  rewrite shr_fexp_exact by (fold d; lia). fold d. fold n.
  rewrite shr_exact by lia.
  set (mrs := if 0 <? n then _ else _).
  assert (Hround :
    exists k, (k = m / 2 ^ n \/ (k = m / 2 ^ n + 1 /\ 0 < n /\ Z.odd (m / 2 ^ (n - 1)) = true)) /\
      mrs = (mrs.1, e + n) /\
      round_nearest_even (shr_m mrs.1) (loc_of_shr_record mrs.1) = k).
  { subst mrs. destruct (Z.ltb_spec 0 n) as [Hn0|Hn0]; cbn [fst snd shr_m].
    - destruct (round_nearest_even_cases (m / 2 ^ n) (Z.odd (m / 2 ^ (n - 1)))
                  (negb (m mod 2 ^ (n - 1) =? 0))) as [Hk|[Hk Hr]].
      + eexists. split; [left; reflexivity|]. split; [reflexivity|exact Hk].
      + eexists. split; [right; split; [reflexivity|split; [exact Hn0|exact Hr]]|].
        split; [reflexivity|exact Hk].
    - assert (n = 0) as Hn0' by lia. exists m.
      split; [left; rewrite Hn0'; change (2 ^ 0) with 1; by rewrite Z.div_1_r|].
      split; [f_equal; lia|reflexivity]. }
  destruct Hround as (k & Hk & Hmrs & Hrne).
  rewrite Hmrs, Hrne. clearbody mrs. clear Hmrs Hrne mrs.
  assert (Hkr : 2 ^ 52 <= k <= 2 ^ 53) by (destruct Hk as [->|[-> _]]; lia).
  exists k. split; [exact Hk|]. split; [exact Hkr|].
  destruct (Z.ltb_spec k (2 ^ 53)) as [Hk53|Hk53].
  - assert (Hdk : Zdigits2 k = 53) by (apply Zdigits2_unique; [lia|simpl; lia]).
    rewrite shr_fexp_exact by (rewrite ?Hdk; lia). rewrite Hdk.
    rewrite shr_exact by lia. cbn [Z.sub Z.ltb Z.compare Z.opp Z.add Pos.compare fst snd shr_m].
    change (0 <? 53 - 53) with false. cbn [shr_m].
    destruct k as [|pk|pk]; try lia.
    destruct (Z.leb_spec (e + n) (1024 - 53)); [reflexivity|lia].
  - assert (k = 2 ^ 53) as -> by lia.
    assert (Hdk : Zdigits2 (2 ^ 53) = 54) by reflexivity.
    rewrite shr_fexp_exact by (rewrite ?Hdk; lia). rewrite Hdk.
    rewrite shr_exact by lia.
    change (0 <? 54 - 53) with true. cbn [shr_m].
    change (2 ^ 53 / 2 ^ (54 - 53)) with (2 ^ 52).
    change (2 ^ 52) with (Z.pos (Z.to_pos (2 ^ 52))) at 1.
    cbv iota beta.
    destruct (Z.leb_spec (e + n + (54 - 53)) (1024 - 53)); [|lia].
    f_equal; lia.
Qed.

(** [float64(b)] is exact for [b] below 2^53. *)
Lemma float64_exact (b : Z) :
  0 < b < 2 ^ 53 ->
  exists mz : positive,
    Go.float64 b = S754_finite false mz (Zdigits2 b - 53) /\
    Z.pos mz = b * 2 ^ (53 - Zdigits2 b) /\
    2 ^ 52 <= Z.pos mz < 2 ^ 53 /\
    0 <= 53 - Zdigits2 b.
Proof.
  intros Hb. destruct b as [|p|p]; try lia.
  pose proof (digits2_pos_spec p) as Hd.
  cbn [Zdigits2]. set (d := Z.pos (digits2_pos p)) in *.
  assert (Hd53 : d <= 53).
  { destruct (Z.le_gt_cases d 53) as [H|H]; [exact H|].
    assert (2 ^ 53 <= 2 ^ (d - 1)) by (apply Z.pow_le_mono_r; lia). lia. }
  assert (Hs : 0 < 2 ^ (53 - d)) by (apply Z.pow_pos_nonneg; lia).
  assert (H52 : 2 ^ (d - 1) * 2 ^ (53 - d) = 2 ^ 52)
    by (rewrite <- Z.pow_add_r by lia; f_equal; lia).
  assert (H53 : 2 ^ d * 2 ^ (53 - d) = 2 ^ 53)
    by (rewrite <- Z.pow_add_r by lia; f_equal; lia).
  assert (Hm : 2 ^ 52 <= Z.pos p * 2 ^ (53 - d) < 2 ^ 53) by nia.
  assert (Halign : exists mz, shl_align p 0 (d - 53) = (mz, d - 53) /\
                     Z.pos mz = Z.pos p * 2 ^ (53 - d)).
  { unfold shl_align. destruct (d - 53 - 0) as [|q|q] eqn:Hq; try lia.
    - exists p. assert (d = 53) as -> by lia. split; [reflexivity|].
      change (2 ^ (53 - 53)) with 1. lia.
    - eexists. split; [reflexivity|].
      change (Pos.iter xO p q) with (shift_pos q p).
      rewrite shift_pos_correct, Z.pow_pos_fold.
      assert (53 - d = Z.pos q) as -> by lia. lia. }
  destruct Halign as (mz & Halign & Hmz).
  exists mz. unfold Go.float64, binary_normalize, binary_round.
  replace (fexp Go.prec Go.emax (Z.pos (digits2_pos p) + 0)) with (d - 53)
    by (unfold fexp, emin, Go.prec, Go.emax; fold d; lia).
  rewrite Halign.
  assert (Hdm : Zdigits2 (Z.pos mz) = 53)
    by (apply Zdigits2_unique; [lia|rewrite Hmz; simpl; lia]).
  destruct (binary_round_aux_spec (Z.pos mz) (d - 53)
              ltac:(lia) ltac:(rewrite Hdm; lia) ltac:(rewrite Hdm; lia))
    as (k & Hk & Hkr & Hres).
  rewrite Hdm in Hk, Hres.
  change (2 ^ (53 - 53)) with 1 in Hk. rewrite Z.div_1_r in Hk.
  destruct Hk as [->|[_ [Hn _]]]; [|lia].
  unfold Go.prec, Go.emax. rewrite Hres.
  destruct (Z.ltb_spec (Z.pos mz) (2 ^ 53)); [|lia].
  split; [f_equal; lia|]. split; [exact Hmz|]. split; lia.
Qed.

(** The exact product with the rate, in integers:
    40 * 7205759403792794 = 2^58 + 16. *)
Lemma rate_bounds (b : Z) :
  0 <= b < 2 ^ 52 ->
  b / 40 * 2 ^ 58 <= b * 7205759403792794 /\
  b * 7205759403792794 + b < (b / 40 + 1) * 2 ^ 58.
Proof.
  intros Hb. pose proof (Z.div_mod b 40 ltac:(lia)) as Hdiv.
  pose proof (Z.mod_pos_bound b 40 ltac:(lia)) as Hmod.
  change (2 ^ 58) with 288230376151711744. change (2 ^ 52) with 4503599627370496 in Hb.
  lia.
Qed.

Lemma div_between (a T Q : Z) : 0 < T -> Q * T <= a < (Q + 1) * T -> a / T = Q.
Proof.
  intros HT Ha. symmetry. apply (Z.div_unique a T Q (a - T * Q)); lia.
Qed.

(** The integer part of the rounded product, when [n] bits are dropped
    ([N = 2^n], [N' = 2^(n-1)], [N * c = 2^58]). *)
Lemma levy_quotient (b S X k N N' c : Z) :
  0 <= b < 2 ^ 52 -> 0 < S -> X = b * S -> 2 ^ 52 <= X ->
  0 < N' -> N = 2 * N' -> N * c = 2 ^ 58 -> N <= 2 ^ 52 + N' -> 0 < c ->
  (k = X * 7205759403792794 / N \/
   (k = X * 7205759403792794 / N + 1 /\ Z.odd (X * 7205759403792794 / N') = true)) ->
  k / (S * c) = b / 40.
Proof.
  intros Hb HS HX HX52 HN' HN Hc HNN Hc0 Hk.
  destruct (rate_bounds b Hb) as [Hlo Hhi].
  set (Q := b / 40) in *. set (R := 7205759403792794) in *.
  assert (F1 : Q * 2 ^ 58 * S <= b * R * S) by (apply Z.mul_le_mono_nonneg_r; lia).
  assert (F2 : (b * R + b) * S < (Q + 1) * 2 ^ 58 * S) by (apply Z.mul_lt_mono_pos_r; lia).
  set (QS := Q * S).
  assert (F1' : 2 ^ 58 * QS <= R * X) by (subst QS X; lia).
  assert (F2' : R * X + X < 2 ^ 58 * QS + 2 ^ 58 * S) by (subst QS X; lia).
  clear F1 F2 Hlo Hhi.
  set (m := X * R) in *.
  assert (Hm : m = R * X) by (subst m; lia).
  assert (HNpos : 0 < N) by lia.
  pose proof (Z.div_mod m N ltac:(lia)) as Hq. pose proof (Z.mod_pos_bound m N HNpos) as Hr.
  set (q := m / N) in *.
  assert (Hodd : Z.odd (m / N') = true -> N * q + N' <= m).
  { intros Ho. pose proof (Z.div_mod m N' ltac:(lia)) as Hh.
    pose proof (Z.mod_pos_bound m N' HN') as Hhr.
    assert (Hq2 : q = m / N' / 2) by (subst q; rewrite Z.div_div by lia; f_equal; lia).
    pose proof (Z.div_mod (m / N') 2 ltac:(lia)) as Hh2.
    rewrite Zmod_odd, Ho, <- Hq2 in Hh2. nia. }
  apply div_between; [lia|].
  replace (Q * (S * c)) with (c * QS) by (subst QS; lia).
  replace ((Q + 1) * (S * c)) with (c * QS + c * S) by (subst QS; lia).
  change (2 ^ 58) with 288230376151711744 in *. change (2 ^ 52) with 4503599627370496 in *.
  destruct Hk as [->|[-> Ho]].
  - split; nia.
  - specialize (Hodd Ho). split; nia.
Qed.

(** The levy on a balance below 2^52 is the balance divided by 40,
    rounded down. *)
Lemma zakat_of_floor (b : Z) : 0 <= b < 2 ^ 52 -> zakat_of b = b / 40.
Proof.
  intros Hb. destruct (Z.eq_dec b 0) as [->|Hb0]; [reflexivity|].
  destruct (float64_exact b ltac:(lia)) as (mz & Hf & Hmz & Hmzr & Hs).
  assert (Hdb : Zdigits2 b <= 52).
  { assert (Hd : 2 ^ (Zdigits2 b - 1) <= b) by (destruct b as [|p|p]; try lia; apply digits2_pos_spec).
    destruct (Z.le_gt_cases (Zdigits2 b) 52) as [H|H]; [exact H|].
    assert (2 ^ 52 <= 2 ^ (Zdigits2 b - 1)) by (apply Z.pow_le_mono_r; lia). lia. }
  assert (Hdb0 : 0 < Zdigits2 b) by (destruct b as [|p|p]; try lia; reflexivity).
  unfold zakat_of, Go.fmul, ZakatRate. rewrite Hf. cbn [SFmul xorb].
  set (db := Zdigits2 b) in *. set (s := 53 - db) in *.
  assert (HS : 0 < 2 ^ s) by (apply Z.pow_pos_nonneg; lia).
  set (R := 7205759403792794%positive).
  set (m := Z.pos (mz * R)).
  assert (Hm : m = Z.pos mz * 7205759403792794) by (subst m R; lia).
  assert (Hmr : 2 ^ 104 <= m < 2 ^ 106).
  { change (2 ^ 104) with (2 ^ 52 * 2 ^ 52). change (2 ^ 106) with (2 ^ 53 * 2 ^ 53).
    change (2 ^ 52) with 4503599627370496 in *. change (2 ^ 53) with 9007199254740992 in *.
    nia. }
  assert (HD : Zdigits2 m = 105 \/ Zdigits2 m = 106).
  { pose proof (digits2_pos_spec (mz * R)) as Hd. fold m in Hd.
    change (Z.pos (digits2_pos (mz * R))) with (Zdigits2 m) in Hd.
    destruct (Z.le_gt_cases (Zdigits2 m) 104) as [H1|H1].
    { assert (2 ^ Zdigits2 m <= 2 ^ 104) by (apply Z.pow_le_mono_r; lia). lia. }
    destruct (Z.le_gt_cases 107 (Zdigits2 m)) as [H2|H2].
    { assert (2 ^ 106 <= 2 ^ (Zdigits2 m - 1)) by (apply Z.pow_le_mono_r; lia). lia. }
    lia. }
  assert (Hm52 : 2 ^ 52 <= m) by (change (2 ^ 104) with (2 ^ 52 * 2 ^ 52) in Hmr; lia).
  destruct (binary_round_aux_spec m (db - 53 + -58) Hm52 ltac:(lia) ltac:(lia))
    as (k & Hk & Hkr & Hres).
  unfold Go.prec, Go.emax. rewrite Hres. clear Hres.
  assert (Hkey : forall n, Zdigits2 m - 53 = n -> n = 52 \/ n = 53 ->
            k / (2 ^ s * 2 ^ (58 - n)) = b / 40).
  { intros n Hn Hn'. rewrite Hn in Hk.
    assert (Hk' : k = Z.pos mz * 7205759403792794 / 2 ^ n \/
                  (k = Z.pos mz * 7205759403792794 / 2 ^ n + 1 /\
                   Z.odd (Z.pos mz * 7205759403792794 / 2 ^ (n - 1)) = true)).
    { rewrite <- Hm. destruct Hk as [Hk|(Hk & _ & Ho)]; [by left|right; by split]. }
    destruct Hn' as [-> | ->].
    - apply (levy_quotient b (2 ^ s) (Z.pos mz) k (2 ^ 52) (2 ^ (52 - 1)) (2 ^ (58 - 52)));
        try assumption; try reflexivity; try (simpl; lia); lia.
    - apply (levy_quotient b (2 ^ s) (Z.pos mz) k (2 ^ 53) (2 ^ (53 - 1)) (2 ^ (58 - 53)));
        try assumption; try reflexivity; try (simpl; lia); lia. }
  assert (Hsmall : Go.uint64 (b / 40) = b / 40).
  { apply uint64_small. split; [apply Z.div_pos; lia|].
    apply Z.div_lt_upper_bound; [lia|]. change (2 ^ 52) with 4503599627370496 in Hb.
    change (2 ^ 64) with 18446744073709551616. lia. }
  unfold Go.uint64_of_float. rewrite <- Hsmall. f_equal.
  assert (Hk0 : 0 < k) by (change (2 ^ 52) with 4503599627370496 in Hkr; lia).
  destruct HD as [HD|HD]; rewrite HD in *.
  - specialize (Hkey 52 eq_refl (or_introl eq_refl)).
    replace (db - 53 + -58 + (105 - 53)) with (- (s + 6)) by lia.
    destruct (Z.ltb_spec k (2 ^ 53)) as [Hlt|Hge]; cbn [Go.trunc].
    + destruct (Z.leb_spec 0 (- (s + 6))); [lia|].
      rewrite Z2Pos.id by lia. rewrite Z.opp_involutive, Z.pow_add_r by lia. exact Hkey.
    + assert (k = 2 ^ 53) as Hk53 by lia. rewrite Hk53 in Hkey.
      destruct (Z.leb_spec 0 (- (s + 6) + 1)); [lia|].
      replace (- (- (s + 6) + 1)) with (s + 5) by lia.
      rewrite Z.pow_add_r by lia. rewrite <- Hkey.
      change (Z.pos (Z.to_pos (2 ^ 52))) with (2 ^ 53 / 2).
      rewrite Z.div_div by lia. f_equal. change (2 ^ (58 - 52)) with 64. change (2 ^ 5) with 32. lia.
  - specialize (Hkey 53 eq_refl (or_intror eq_refl)).
    replace (db - 53 + -58 + (106 - 53)) with (- (s + 5)) by lia.
    destruct (Z.ltb_spec k (2 ^ 53)) as [Hlt|Hge]; cbn [Go.trunc].
    + destruct (Z.leb_spec 0 (- (s + 5))); [lia|].
      rewrite Z2Pos.id by lia. rewrite Z.opp_involutive, Z.pow_add_r by lia. exact Hkey.
    + assert (k = 2 ^ 53) as Hk53 by lia. rewrite Hk53 in Hkey.
      destruct (Z.leb_spec 0 (- (s + 5) + 1)); [lia|].
      replace (- (- (s + 5) + 1)) with (s + 4) by lia.
      rewrite Z.pow_add_r by lia. rewrite <- Hkey.
      change (Z.pos (Z.to_pos (2 ^ 52))) with (2 ^ 53 / 2).
      rewrite Z.div_div by lia. f_equal. change (2 ^ (58 - 53)) with 32. change (2 ^ 4) with 16. lia.
Qed.

(** * The periodic levy *)

Lemma logged_Ok {A : Type} (walletID : string) (a a' : A) :
  logged walletID a = Ok a' -> a' = a.
Proof. unfold logged. destruct (Go.slice_to walletID 16); [|done]. by intros [= ->]. Qed.

Lemma logged_cases {A : Type} (walletID : string) (a : A) :
  logged walletID a = Ok a \/ logged walletID a = Panic.
Proof. unfold logged. destruct (Go.slice_to walletID 16); [by left|by right]. Qed.

Lemma logged_long {A : Type} (walletID : string) (a : A) :
  (16 <= String.length walletID)%nat -> logged walletID a = Ok a.
Proof.
  intros H. unfold logged, Go.slice_to.
  destruct (Nat.leb_spec 16 (String.length walletID)); [reflexivity|lia].
Qed.

Lemma SelectUTXOs_Ok (rt : Go.Runtime) (bc : Blockchain) (walletID : string)
    (amount : Z) (selected : list UTXO.t) (total : Z) :
  SelectUTXOs rt bc walletID amount = Ok (selected, total) ->
  total = running_total 0 selected /\ amount <= total /\ 0 <= total < 2 ^ 64.
Proof.
  intros H. destruct (SelectUTXOs_spec rt bc walletID amount)
    as (selected' & rest & _ & _ & _ & Hres).
  rewrite Hres in H.
  destruct (Z.ltb_spec (running_total 0 selected') amount); [discriminate|].
  injection H as <- <-. split; [reflexivity|]. split; [assumption|].
  apply running_total_range. lia.
Qed.

Lemma SelectUTXOs_not_Panic (rt : Go.Runtime) (bc : Blockchain) (walletID : string)
    (amount : Z) :
  SelectUTXOs rt bc walletID amount <> Panic.
Proof. rewrite SelectUTXOs_unfold. by destruct (_ <? amount). Qed.

(** The transaction [CreateZakatTransaction] builds from a selection. *)
Lemma CreateZakatTransaction_Ok (env : Env) (bc : Blockchain) (walletID : string)
    (zakatAmount : Z) (selected : list UTXO.t) (total : Z) :
  0 <= zakatAmount ->
  SelectUTXOs (runtime env) bc walletID zakatAmount = Ok (selected, total) ->
  exists tx,
    CreateZakatTransaction env bc walletID zakatAmount = Ok tx /\
    Transaction.SenderID tx = walletID /\
    Transaction.ReceiverID tx = "ZAKAT_POOL" /\
    Transaction.Amount tx = zakatAmount /\
    Transaction.PubKey tx = "system" /\
    Transaction.Signature tx = "system" /\
    Transaction.Type_ tx = "zakat_deduction" /\
    Transaction.Inputs tx = inputs_of selected /\
    Transaction.Outputs tx =
      UTXO.mk "" "ZAKAT_POOL" zakatAmount (Transaction.ID tx) 0 false ::
      (if 0 <? total - zakatAmount
       then [UTXO.mk "" walletID (total - zakatAmount) (Transaction.ID tx) 1 false]
       else []).
Proof.
  intros Hz Hsel. destruct (SelectUTXOs_Ok _ _ _ _ _ _ Hsel) as (_ & Hle & Hrange).
  unfold CreateZakatTransaction. rewrite Hsel. cbn [mbind result_bind].
  eexists. split; [reflexivity|]. cbn [Transaction.SenderID Transaction.ReceiverID
    Transaction.Amount Transaction.PubKey Transaction.Signature Transaction.Type_
    Transaction.Inputs Transaction.Outputs Transaction.ID].
  repeat (split; [reflexivity|]).
  unfold outputs_of, zakatPoolWallet. rewrite uint64_small by lia.
  by destruct (0 <? total - zakatAmount).
Qed.

Lemma CreateZakatTransaction_sender (env : Env) (bc : Blockchain) (walletID : string)
    (zakatAmount : Z) (tx : Transaction.t) :
  CreateZakatTransaction env bc walletID zakatAmount = Ok tx ->
  Transaction.SenderID tx = walletID.
Proof.
  unfold CreateZakatTransaction.
  destruct (SelectUTXOs _ _ _ _) as [[selected total]|e|]; cbn [mbind result_bind]; try done.
  by intros [= <-].
Qed.

Lemma CreateZakatTransaction_not_Panic (env : Env) (bc : Blockchain) (walletID : string)
    (zakatAmount : Z) :
  CreateZakatTransaction env bc walletID zakatAmount <> Panic.
Proof.
  unfold CreateZakatTransaction.
  pose proof (SelectUTXOs_not_Panic (runtime env) bc walletID zakatAmount).
  by destruct (SelectUTXOs _ _ _ _) as [[selected total]|e|].
Qed.

(** One wallet: the service is left as it was, or one levy of the wallet
    is added to the pool and the time of the levy is recorded. *)
Lemma process_wallet_Ok (now : Z) (env : Env) (w : wallet.Wallet) (zs zs' : ZakatService) :
  process_wallet now env w zs = Ok zs' ->
  zs' = zs \/
  exists tx,
    zs' = mkZakatService (AddPending tx (bc zs)) (ws zs)
            (<[wallet.WalletID w := now]> (lastProcessed zs)) (nisabThreshold zs) /\
    nisabThreshold zs <= GetBalance (wallet.WalletID w) (bc zs) /\
    Transaction.SenderID tx = wallet.WalletID w /\
    Transaction.Amount tx = zakat_of (GetBalance (wallet.WalletID w) (bc zs)) /\
    CreateZakatTransaction env (bc zs) (wallet.WalletID w)
      (zakat_of (GetBalance (wallet.WalletID w) (bc zs))) = Ok tx.
Proof.
  unfold process_wallet. set (id := wallet.WalletID w).
  destruct (String.eqb id "ZAKAT_POOL" || String.eqb id "COINBASE"); [intros [= <-]; by left|].
  destruct (match lastProcessed zs !! id with Some _ => _ | None => _ end);
    [intros [= <-]; by left|].
  destruct (Z.ltb_spec (GetBalance id (bc zs)) (nisabThreshold zs)) as [Hlt|Hge].
  { intros H. left. by apply logged_Ok in H. }
  destruct (zakat_of (GetBalance id (bc zs)) =? 0); [intros [= <-]; by left|].
  destruct (CreateZakatTransaction env (bc zs) id _) as [tx|e|] eqn:Htx; [| |done].
  - intros H. apply logged_Ok in H. right. exists tx. split; [exact H|].
    split; [exact Hge|]. split; [by apply CreateZakatTransaction_sender in Htx|].
    split; [|reflexivity].
    unfold CreateZakatTransaction in Htx.
    destruct (SelectUTXOs _ _ _ _) as [[selected total]|e|]; cbn [mbind result_bind] in Htx;
      try done.
    by injection Htx as <-.
  - intros H. left. by apply logged_Ok in H.
Qed.

(** A wallet below the threshold: nothing changes. *)
Lemma process_wallet_below (now : Z) (env : Env) (w : wallet.Wallet) (zs : ZakatService) :
  GetBalance (wallet.WalletID w) (bc zs) < nisabThreshold zs ->
  process_wallet now env w zs = Ok zs \/ process_wallet now env w zs = Panic.
Proof.
  intros Hlt. unfold process_wallet. set (id := wallet.WalletID w) in *.
  destruct (String.eqb id "ZAKAT_POOL" || String.eqb id "COINBASE"); [by left|].
  destruct (match lastProcessed zs !! id with Some _ => _ | None => _ end); [by left|].
  destruct (Z.ltb_spec (GetBalance id (bc zs)) (nisabThreshold zs)); [|lia].
  apply logged_cases.
Qed.

(** The loop: levies are added to the pool, each by a wallet at or above
    the threshold; the records of the other wallets are not touched. *)
Lemma process_wallets_Ok (now : Z) (envs : nat -> Env) (i : nat)
    (wallets : list wallet.Wallet) (zs zs' : ZakatService) :
  process_wallets now envs i wallets zs = Ok zs' ->
  exists levies,
    bc zs' = add_levies levies (bc zs) /\
    ws zs' = ws zs /\
    nisabThreshold zs' = nisabThreshold zs /\
    (forall tx, tx ∈ levies ->
       nisabThreshold zs <= GetBalance (Transaction.SenderID tx) (bc zs) /\
       Transaction.Type_ tx = "zakat_deduction") /\
    (forall walletID,
       GetBalance walletID (bc zs) < nisabThreshold zs ->
       lastProcessed zs' !! walletID = lastProcessed zs !! walletID).
Proof.
  revert i zs. induction wallets as [|w wallets IH]; intros i zs; cbn [process_wallets].
  - intros [= <-]. exists []. unfold add_levies. rewrite app_nil_r.
    split; [by destruct (bc zs)|]. split; [reflexivity|]. split; [reflexivity|].
    split; [|reflexivity]. intros tx Htx. by apply elem_of_nil in Htx.
  - destruct (process_wallet now (envs i) w zs) as [zs1|e|] eqn:Hw; cbn [mbind result_bind];
      try done.
    intros Hrest. destruct (IH _ _ Hrest) as (levies & Hbc & Hws & Hth & Hlev & Hlast).
    destruct (process_wallet_Ok _ _ _ _ _ Hw) as [->|(tx & -> & Hge & Hsender & _ & Htx)].
    + exists levies. exact (conj Hbc (conj Hws (conj Hth (conj Hlev Hlast)))).
    + cbn [bc ws nisabThreshold lastProcessed] in *.
      exists (tx :: levies). split; [|split; [exact Hws|split; [exact Hth|split]]].
      * rewrite Hbc. unfold add_levies, AddPending. cbn [Chain Pending UTXOs DifficultyPref].
        by rewrite <- app_assoc.
      * intros tx' [->|Hin]%elem_of_cons.
        -- split; [by rewrite Hsender|].
           unfold CreateZakatTransaction in Htx.
           destruct (SelectUTXOs _ _ _ _) as [[selected total]|e|];
             cbn [mbind result_bind] in Htx; try done.
           by injection Htx as <-.
        -- apply (Hlev tx' Hin).
      * intros walletID Hlt. rewrite (Hlast walletID Hlt).
        apply lookup_insert_ne. intros <-. lia.
Qed.

(** C9: an account whose balance is below the threshold when the tick
    runs gets no levy and keeps its record in [lastProcessed]: the body of
    the loop leaves the service as it is (or panics in the log line, on an
    identifier shorter than 16 bytes); every levy that the tick adds to the
    pool, and seals with the transactions that were pending, has another
    sender.  With a balance of 400 and the threshold 500 no transaction is
    generated (see the witness). *)
Theorem ProcessMonthlyZakat_below_threshold (rt : Go.Runtime) (now : Z) (envs : nat -> Env)
    (mineNow : Z) (zs zs' : ZakatService) (walletID : string) :
  GetBalance walletID (bc zs) < nisabThreshold zs ->
  ProcessMonthlyZakat rt now envs mineNow zs = Ok zs' ->
  lastProcessed zs' !! walletID = lastProcessed zs !! walletID /\
  (forall env w, wallet.WalletID w = walletID ->
     process_wallet now env w zs = Ok zs \/ process_wallet now env w zs = Panic) /\
  exists levies,
    (forall tx, tx ∈ levies -> Transaction.SenderID tx <> walletID) /\
    ((Pending (bc zs) ++ levies = [] /\ bc zs' = bc zs) \/
     (exists b,
        Mine 0 "ZAKAT_POOL" mineNow (add_levies levies (bc zs)) = Ok (b, bc zs') /\
        Block.Transactions b =
          coinbaseTx (Z.of_nat (length (Chain (bc zs)))) mineNow "ZAKAT_POOL" ::
          Pending (bc zs) ++ levies)).
Proof.
  intros Hlt Htick. unfold ProcessMonthlyZakat in Htick.
  destruct (process_wallets now envs 0 _ zs) as [zs1|e|] eqn:Hloop;
    cbn [mbind result_bind] in Htick; try done.
  destruct (process_wallets_Ok _ _ _ _ _ _ Hloop) as (levies & Hbc & Hws & Hth & Hlev & Hlast).
  assert (Hsenders : forall tx, tx ∈ levies -> Transaction.SenderID tx <> walletID).
  { intros tx Hin Heq. destruct (Hlev tx Hin) as [Hge _]. rewrite Heq in Hge. lia. }
  assert (Hrec : lastProcessed zs' !! walletID = lastProcessed zs !! walletID).
  { rewrite <- (Hlast walletID Hlt).
    destruct (0 <? length (GetPending (bc zs1)))%nat.
    - destruct (Mine 0 "ZAKAT_POOL" mineNow (bc zs1)) as [mined|e|];
        cbn [mbind result_bind] in Htick; try done.
      by injection Htick as <-.
    - by injection Htick as <-. }
  split; [exact Hrec|]. split.
  { intros env w <-. by apply process_wallet_below. }
  exists levies. split; [exact Hsenders|].
  unfold GetPending in Htick. rewrite Hbc in Htick.
  destruct (Nat.ltb_spec 0 (length (Pending (add_levies levies (bc zs))))) as [Hpos|Hzero].
  - right.
    destruct (Mine 0 "ZAKAT_POOL" mineNow (add_levies levies (bc zs))) as [[b bc']|e|] eqn:HM;
      cbn [mbind result_bind] in Htick; try done.
    injection Htick as <-. cbn [bc snd]. exists b. split; [reflexivity|].
    assert (Hchain : Chain (add_levies levies (bc zs)) <> []).
    { intros Hnil. unfold Mine in HM. rewrite Hnil in HM. discriminate. }
    destruct (Mine_spec 0 "ZAKAT_POOL" mineNow _ Hchain) as (b0 & HM0 & _ & _ & Htx & _).
    rewrite HM0 in HM. injection HM as <- _. exact Htx.
  - left. injection Htick as <-. cbn [add_levies Pending] in Hzero.
    assert (Hnil : Pending (bc zs) ++ levies = []) by (apply length_zero_iff_nil; lia).
    split; [exact Hnil|]. rewrite Hbc. unfold add_levies. rewrite Hnil.
    apply app_eq_nil in Hnil as [Hp _]. rewrite <- Hp. by destruct (bc zs).
Qed.

Lemma ProcessMonthlyZakat_below_threshold_witness :
  GetBalance wallet40 (bc (service 400)) < nisabThreshold (service 400) /\
  ProcessMonthlyZakat Go.runtime0 0 (fun _ => env0) 1 (service 400) = Ok (service 400) /\
  GetBalance wallet40 (bc (service 400)) = 400 /\
  nisabThreshold (service 400) = 500 /\
  lastProcessed (service 400) !! wallet40 = lastProcessed (service 400) !! wallet40.
Proof.
  assert (H1 : GetBalance wallet40 (bc (service 400)) < nisabThreshold (service 400))
    by (vm_compute; reflexivity).
  assert (H2 : ProcessMonthlyZakat Go.runtime0 0 (fun _ => env0) 1 (service 400) =
               Ok (service 400)) by (vm_compute; reflexivity).
  split; [exact H1|]. split; [exact H2|].
  split; [vm_compute; reflexivity|]. split; [reflexivity|].
  exact (proj1 (ProcessMonthlyZakat_below_threshold Go.runtime0 0 (fun _ => env0) 1
                  (service 400) (service 400) wallet40 H1 H2)).
Defined.

(** C8, as stated, fails: the levy is the float product of the balance
    and the rate, rounded to 53 bits before its integer part is taken.
    On a balance of 7205759403792799 it is one more than the balance
    times 2.5%, rounded down (also when the rate is taken to be the
    float nearest to 0.025); the wallet that holds this balance pays
    that levy. *)
Lemma levy_exceeds_floor :
  zakat_of 7205759403792799 = 180143985094820 /\
  7205759403792799 / 40 = 180143985094819 /\
  7205759403792799 * 7205759403792794 / 2 ^ 58 = 180143985094819 /\
  GetBalance wallet40 (bc (service 7205759403792799)) = 7205759403792799 /\
  (fun r => match r with
            | Ok zs => map Transaction.Amount (Pending (bc zs))
            | _ => []
            end)
    (process_wallet 0 env0 (wallet.Build_Wallet wallet40 "" "" "" "" "")
       (service 7205759403792799)) = [180143985094820].
Proof. vm_compute. repeat split; reflexivity. Qed.

(** C8, amended: on a balance below 2^52 the levy of an eligible account
    is the balance times 2.5%, rounded down (the division of the balance
    by 40), [uint64(float64(balance) * 0.025)] being exact there; the
    account is skipped when the levy is zero; otherwise the transaction
    built pays the levy to ZAKAT_POOL and returns the total of the selected
    inputs less the levy to the account, when that is not zero.  With a
    balance of 1000 held in one output, the levy is 25 and 975 is
    returned. *)
Theorem levy_amount_and_outputs :
  (forall balance, 0 <= balance < 2 ^ 52 -> zakat_of balance = balance / 40) /\
  zakat_of 1000 = 25 /\
  (forall now env w zs,
     let id := wallet.WalletID w in
     let balance := GetBalance id (bc zs) in
     id <> "ZAKAT_POOL" -> id <> "COINBASE" ->
     (forall last, lastProcessed zs !! id = Some last -> within_interval now last = false) ->
     nisabThreshold zs <= balance ->
     (zakat_of balance = 0 -> process_wallet now env w zs = Ok zs) /\
     (zakat_of balance <> 0 ->
      forall tx,
        CreateZakatTransaction env (bc zs) id (zakat_of balance) = Ok tx ->
        (16 <= String.length id)%nat ->
        process_wallet now env w zs =
          Ok (mkZakatService (AddPending tx (bc zs)) (ws zs)
                (<[id := now]> (lastProcessed zs)) (nisabThreshold zs)))) /\
  (forall env ledger walletID zakatAmount selected total,
     0 <= zakatAmount ->
     SelectUTXOs (runtime env) ledger walletID zakatAmount = Ok (selected, total) ->
     exists tx,
       CreateZakatTransaction env ledger walletID zakatAmount = Ok tx /\
       Transaction.Inputs tx = inputs_of selected /\
       Transaction.Outputs tx =
         UTXO.mk "" "ZAKAT_POOL" zakatAmount (Transaction.ID tx) 0 false ::
         (if 0 <? total - zakatAmount
          then [UTXO.mk "" walletID (total - zakatAmount) (Transaction.ID tx) 1 false]
          else [])) /\
  (forall env ledger walletID utxo,
     Go.lawful (runtime env) ->
     unspent_of walletID ledger = [utxo] ->
     UTXO.Amount utxo = 1000 ->
     GetBalance walletID ledger = 1000 /\
     exists tx,
       CreateZakatTransaction env ledger walletID (zakat_of (GetBalance walletID ledger)) = Ok tx /\
       Transaction.Outputs tx =
         [UTXO.mk "" "ZAKAT_POOL" 25 (Transaction.ID tx) 0 false;
          UTXO.mk "" walletID 975 (Transaction.ID tx) 1 false]).
Proof.
  split; [exact zakat_of_floor|]. split; [vm_compute; reflexivity|]. split; [|split].
  - intros now env w zs id balance Hpool Hcoin Hrecent Hge.
    assert (Hhead : process_wallet now env w zs =
              if zakat_of balance =? 0 then Ok zs
              else match CreateZakatTransaction env (bc zs) id (zakat_of balance) with
                   | Ok tx => logged id (mkZakatService (AddPending tx (bc zs)) (ws zs)
                                           (<[id := now]> (lastProcessed zs)) (nisabThreshold zs))
                   | Err _ => logged id zs
                   | Panic => Panic
                   end).
    { unfold process_wallet. fold id. fold balance.
      destruct (String.eqb_spec id "ZAKAT_POOL"); [done|].
      destruct (String.eqb_spec id "COINBASE"); [done|]. cbn [orb].
      destruct (lastProcessed zs !! id) as [last|] eqn:Hlast.
      - rewrite (Hrecent last eq_refl).
        destruct (Z.ltb_spec balance (nisabThreshold zs)); [lia|reflexivity].
      - destruct (Z.ltb_spec balance (nisabThreshold zs)); [lia|reflexivity]. }
    rewrite Hhead. split.
    + intros ->. reflexivity.
    + intros Hz tx Htx Hlen.
      destruct (Z.eqb_spec (zakat_of balance) 0); [done|].
      rewrite Htx. by apply logged_long.
  - intros env ledger walletID zakatAmount selected total Hz Hsel.
    destruct (CreateZakatTransaction_Ok env ledger walletID zakatAmount selected total Hz Hsel)
      as (tx & Htx & _ & _ & _ & _ & _ & _ & Hin & Hout).
    exists tx. by repeat split.
  - intros env ledger walletID utxo Hrt Hun Hamount.
    assert (Hbal : GetBalance walletID ledger = 1000).
    { rewrite GetBalance_unspent, Hun. unfold total_of. cbn [map foldr]. by rewrite Hamount. }
    split; [exact Hbal|]. rewrite Hbal.
    assert (Hz : zakat_of 1000 = 25) by (vm_compute; reflexivity). rewrite Hz.
    assert (Havail : available (runtime env) ledger walletID = [utxo]).
    { destruct (available_spec (runtime env) ledger walletID Hrt) as [Hperm _].
      rewrite Hun in Hperm. by apply Permutation_singleton_r in Hperm. }
    assert (Hsel : SelectUTXOs (runtime env) ledger walletID 25 = Ok ([utxo], 1000)).
    { rewrite SelectUTXOs_unfold, Havail. cbn [accumulate]. rewrite Hamount. reflexivity. }
    destruct (CreateZakatTransaction_Ok env ledger walletID 25 [utxo] 1000 ltac:(lia) Hsel)
      as (tx & Htx & _ & _ & _ & _ & _ & _ & _ & Hout).
    exists tx. split; [exact Htx|exact Hout].
Qed.

(** * Hexadecimal encoding, wallet identifiers and signatures *)

Lemma code_range (c : ascii) : 0 <= Go.code c < 256.
Proof.
  unfold Go.code. pose proof (N_ascii_bounded c). lia.
Qed.

Lemma byte_code (c : ascii) : Go.byte (Go.code c) = c.
Proof.
  unfold Go.byte. rewrite Z.mod_small by apply code_range.
  unfold Go.code. rewrite N2Z.id. apply ascii_N_embedding.
Qed.

Lemma code_byte (n : Z) : 0 <= n < 256 -> Go.code (Go.byte n) = n.
Proof.
  intros Hn. unfold Go.code, Go.byte. rewrite Z.mod_small by lia.
  rewrite N_ascii_embedding by lia. lia.
Qed.

Lemma hexdigit_table :
  forallb
    (fun k =>
       match Go.fromHexChar (Go.hexdigit (Z.of_nat k)) with
       | Some m => (m =? Z.of_nat k) && is_hex_lower (Go.hexdigit (Z.of_nat k))
       | None => false
       end)
    (seq 0 16) = true.
Proof. vm_compute. reflexivity. Qed.

Lemma hexdigit_cases (n : Z) :
  0 <= n < 16 ->
  Go.fromHexChar (Go.hexdigit n) = Some n /\ is_hex_lower (Go.hexdigit n) = true.
Proof.
  intros Hn. pose proof hexdigit_table as Ht.
  rewrite forallb_forall in Ht. specialize (Ht (Z.to_nat n)).
  rewrite Z2Nat.id in Ht by lia.
  assert (Hin : In (Z.to_nat n) (seq 0 16)) by (apply in_seq; lia).
  specialize (Ht Hin).
  destruct (Go.fromHexChar (Go.hexdigit n)) as [m |]; [| discriminate].
  apply andb_true_iff in Ht as [Hm Hd]. apply Z.eqb_eq in Hm. by subst m.
Qed.

Lemma hex_round_trip (s : string) :
  Go.hex_DecodeString (Go.hex_EncodeToString s) = Some s.
Proof.
  induction s as [| c s IH]; [reflexivity |].
  cbn [Go.hex_EncodeToString Go.hex_DecodeString].
  pose proof (code_range c) as Hc.
  destruct (hexdigit_cases (Go.code c / 16)) as [-> _];
    [split; [apply Z.div_pos; lia | apply Z.div_lt_upper_bound; lia] |].
  destruct (hexdigit_cases (Go.code c mod 16)) as [-> _];
    [apply Z.mod_pos_bound; lia |].
  rewrite IH. f_equal. f_equal.
  rewrite <- Z.div_mod by lia. apply byte_code.
Qed.

Lemma hex_EncodeToString_length (s : string) :
  String.length (Go.hex_EncodeToString s) = (2 * String.length s)%nat.
Proof.
  induction s as [| c s IH]; [reflexivity |].
  cbn [Go.hex_EncodeToString String.length]. rewrite IH. lia.
Qed.

Lemma hex_EncodeToString_digits (s : string) :
  forallb is_hex_lower (list_ascii_of_string (Go.hex_EncodeToString s)) = true.
Proof.
  induction s as [| c s IH]; [reflexivity |].
  cbn [Go.hex_EncodeToString list_ascii_of_string forallb].
  pose proof (code_range c) as Hc.
  destruct (hexdigit_cases (Go.code c / 16)) as [_ ->];
    [split; [apply Z.div_pos; lia | apply Z.div_lt_upper_bound; lia] |].
  destruct (hexdigit_cases (Go.code c mod 16)) as [_ ->];
    [apply Z.mod_pos_bound; lia |].
  exact IH.
Qed.

Lemma substring_0_length (n : nat) (s : string) :
  (n <= String.length s)%nat -> String.length (String.substring 0 n s) = n.
Proof.
  revert s. induction n as [| n IH]; intros s Hn.
  - destruct s; reflexivity.
  - destruct s as [| c s]; [cbn in Hn; lia |].
    cbn [String.substring String.length]. rewrite IH; [reflexivity |].
    cbn in Hn. lia.
Qed.

Lemma substring_0_forallb (f : ascii -> bool) (n : nat) (s : string) :
  forallb f (list_ascii_of_string s) = true ->
  forallb f (list_ascii_of_string (String.substring 0 n s)) = true.
Proof.
  revert s. induction n as [| n IH]; intros s Hs.
  - destruct s; reflexivity.
  - destruct s as [| c s]; [reflexivity |].
    cbn [String.substring list_ascii_of_string forallb] in *.
    apply andb_true_iff in Hs as [-> Hs]. cbn. apply IH, Hs.
Qed.

Lemma bytes_length (l : list Z) : String.length (Go.bytes l) = length l.
Proof.
  unfold Go.bytes. induction l as [| x l IH]; [reflexivity |].
  cbn [map string_of_list_ascii String.length]. by rewrite IH.
Qed.

Lemma round_length (st : list Z) (kw : Z * Z) :
  length (SHA256.round st kw) = length st.
Proof.
  unfold SHA256.round.
  do 9 (destruct st as [| ? st]; [reflexivity |]). reflexivity.
Qed.

Lemma compress_length (st block : list Z) :
  length (SHA256.compress st block) = length st.
Proof.
  unfold SHA256.compress.
  rewrite length_map, length_combine.
  assert (H : forall l st0, length (fold_left SHA256.round l st0) = length st0).
  { induction l as [| kw l IH]; intros st0; [reflexivity |].
    cbn [fold_left]. rewrite IH. apply round_length. }
  rewrite H. lia.
Qed.

Lemma blocks_length (n : nat) (st bs : list Z) :
  length (SHA256.blocks n st bs) = length st.
Proof.
  revert st bs. induction n as [| n IH]; intros st bs; [reflexivity |].
  cbn [SHA256.blocks]. rewrite IH. apply compress_length.
Qed.

Lemma flat_map_length_const {A B : Type} (f : A -> list B) (k : nat) (l : list A) :
  (forall x, length (f x) = k) -> length (flat_map f l) = (k * length l)%nat.
Proof.
  intros Hf. induction l as [| x l IH]; [cbn; lia |].
  cbn [flat_map]. rewrite length_app, Hf, IH. cbn [length]. lia.
Qed.

#[local] Transparent SHA256.Sum256.

Lemma Sum256_length (s : string) : String.length (SHA256.Sum256 s) = 32%nat.
Proof.
  unfold SHA256.Sum256. rewrite bytes_length.
  rewrite (flat_map_length_const _ 4).
  - rewrite blocks_length. reflexivity.
  - intros x. unfold SHA256.be_bytes. rewrite length_map, length_rev, length_seq.
    reflexivity.
Qed.

#[global] Opaque SHA256.Sum256.

Lemma hexdigest_length (s : string) : String.length (SHA256.hexdigest s) = 64%nat.
Proof.
  unfold SHA256.hexdigest. rewrite hex_EncodeToString_length, Sum256_length.
  reflexivity.
Qed.

Lemma WalletIDFromPub_id (pubHex : string) :
  match Go.hex_DecodeString pubHex with
  | None => wallet.WalletIDFromPub pubHex = Err ErrHexDecode
  | Some _ =>
      exists id, wallet.WalletIDFromPub pubHex = Ok id /\
        String.length id = 40%nat /\
        forallb is_hex_lower (list_ascii_of_string id) = true
  end.
Proof.
  unfold wallet.WalletIDFromPub.
  destruct (Go.hex_DecodeString pubHex) as [b |]; [| reflexivity].
  eexists. split; [reflexivity |]. split.
  - apply substring_0_length. rewrite hexdigest_length. lia.
  - apply substring_0_forallb. unfold SHA256.hexdigest.
    apply hex_EncodeToString_digits.
Qed.

(** X1.  [WalletIDFromPub] fails exactly when the key is not hexadecimal;
    otherwise the identifier it returns has 40 characters, all of them
    lowercase hexadecimal digits, whatever the length of the key. *)
Theorem WalletIDFromPub_shape (pubHex : string) :
  match Go.hex_DecodeString pubHex with
  | None => wallet.WalletIDFromPub pubHex = Err ErrHexDecode
  | Some _ =>
      exists id, wallet.WalletIDFromPub pubHex = Ok id /\
        String.length id = 40%nat /\
        forallb is_hex_lower (list_ascii_of_string id) = true
  end.
Proof.
  apply WalletIDFromPub_id.
Qed.

(** X2.  A payload signed by [SignWithPriv] is accepted by
    [VerifySignature]: for a key pair of the sizes of Ed25519 that signs
    and verifies, given in hexadecimal, the signature of any payload is
    returned without error and verifies against the same payload. *)
Theorem SignWithPriv_VerifySignature {ext : External}
    (pubHex privHex pub priv payload : string) :
  Go.hex_DecodeString pubHex = Some pub ->
  Go.hex_DecodeString privHex = Some priv ->
  Go.len pub = wallet.PublicKeySize ->
  Go.len priv = wallet.PrivateKeySize ->
  ed25519_correct pub priv ->
  exists signature,
    wallet.SignWithPriv privHex payload = Ok signature /\
    wallet.VerifySignature pubHex payload signature = Ok true.
Proof.
  intros Hpub Hpriv Hlpub Hlpriv Hok.
  exists (Go.hex_EncodeToString (ed25519_Sign priv payload)).
  unfold wallet.SignWithPriv, wallet.VerifySignature.
  rewrite Hpub, Hpriv, Hlpub, Hlpriv, hex_round_trip, Hok.
  split; reflexivity.
Qed.

Lemma SignWithPriv_VerifySignature_witness :
  exists signature,
    wallet.SignWithPriv (ext := external0) zero_key "payload" = Ok signature /\
    wallet.VerifySignature (ext := external0) zero_pub "payload" signature = Ok true.
Proof.
  apply (SignWithPriv_VerifySignature (ext := external0) zero_pub zero_key
           (Go.bytes (repeat 0 32)) (Go.bytes (repeat 0 64)) "payload").
  - apply hex_round_trip.
  - apply hex_round_trip.
  - reflexivity.
  - reflexivity.
  - intros msg. reflexivity.
Defined.


Lemma fromHexChar_is_hex (c : ascii) :
  is_Some (Go.fromHexChar c) <-> api.is_hex c = true.
Proof.
  unfold Go.fromHexChar, api.is_hex. cbv zeta.
  destruct ((48 <=? Go.code c) && (Go.code c <=? 57)); [cbn; split; eauto |].
  destruct ((97 <=? Go.code c) && (Go.code c <=? 102)); [cbn; split; eauto |].
  destruct ((65 <=? Go.code c) && (Go.code c <=? 70)); cbn; split; eauto.
  - intros [x Hx]. discriminate.
  - discriminate.
Qed.

Lemma hex_DecodeString_Some (n : nat) (s : string) :
  (String.length s <= n)%nat ->
  (is_Some (Go.hex_DecodeString s) <->
   forallb api.is_hex (list_ascii_of_string s) = true /\
   Nat.even (String.length s) = true) /\
  (forall r, Go.hex_DecodeString s = Some r ->
     String.length s = (2 * String.length r)%nat).
Proof.
  revert s. induction n as [| n IH]; intros s Hn.
  - destruct s; [| cbn in Hn; lia]. cbn. split; [split; eauto |].
    intros r [= <-]. reflexivity.
  - destruct s as [| a [| b s]].
    + cbn. split; [split; eauto |]. intros r [= <-]. reflexivity.
    + cbn. split; [| discriminate]. split.
      * intros [x Hx]. discriminate.
      * intros [_ H]. discriminate.
    + destruct (IH s) as [IH1 IH2]; [cbn in Hn; lia |].
      cbn [Go.hex_DecodeString list_ascii_of_string forallb String.length Nat.even].
      pose proof (fromHexChar_is_hex a) as Ha.
      pose proof (fromHexChar_is_hex b) as Hb.
      destruct (Go.fromHexChar a) as [x |].
      2:{ split; [| discriminate]. split.
          - intros [? ?]. discriminate.
          - intros [H _]. apply andb_true_iff in H as [H _].
            apply Ha in H as [? ?]. discriminate. }
      destruct (Go.fromHexChar b) as [y |].
      2:{ split; [| discriminate]. split.
          - intros [? ?]. discriminate.
          - intros [H _]. apply andb_true_iff in H as [_ H].
            apply andb_true_iff in H as [H _].
            apply Hb in H as [? ?]. discriminate. }
      destruct (Go.hex_DecodeString s) as [r |].
      * split.
        -- split; [| eauto]. intros _.
           rewrite (proj1 Ha), (proj1 Hb) by eauto. cbn.
           apply IH1. eauto.
        -- intros r' [= <-]. cbn [String.length].
           rewrite (IH2 r eq_refl). lia.
      * split; [| discriminate]. split.
        -- intros [? ?]. discriminate.
        -- intros [H1 H2]. apply andb_true_iff in H1 as [_ H1].
           apply andb_true_iff in H1 as [_ H1].
           destruct (proj2 IH1 (conj H1 H2)) as [? ?]. discriminate.
Qed.

(** X3.  [isHexString] and [hex.DecodeString] agree: a string passes
    [isHexString] and has an even length exactly when it is not empty and
    decodes; so a stored key of 128 characters that passes the test of
    [handleSend] is signed with as it is, without error. *)
Theorem isHexString_decodes {ext : External} (s : string) :
  (api.isHexString s = true /\ Nat.even (String.length s) = true <->
   s <> EmptyString /\ is_Some (Go.hex_DecodeString s)) /\
  (api.isHexString s = true -> String.length s = 128%nat ->
   forall payload, exists signature, wallet.SignWithPriv s payload = Ok signature).
Proof.
  destruct (hex_DecodeString_Some (String.length s) s (le_n _)) as [H1 H2].
  assert (Hne : (0 <? String.length s)%nat = true <-> s <> EmptyString).
  { destruct s; cbn; split; try done. }
  unfold api.isHexString. split; [split |].
  - intros [H He]. apply andb_true_iff in H as [Hf Hl].
    split; [by apply Hne | apply H1; by split].
  - intros [Hs Hd]. apply H1 in Hd as [Hf He].
    split; [| exact He]. apply andb_true_iff. split; [exact Hf | by apply Hne].
  - intros H Hl payload. apply andb_true_iff in H as [Hf _].
    destruct (proj2 H1) as [priv Hpriv]; [split; [exact Hf | by rewrite Hl] |].
    unfold wallet.SignWithPriv. rewrite Hpriv.
    assert (Hp : Go.len priv = wallet.PrivateKeySize).
    { unfold Go.len, wallet.PrivateKeySize. apply H2 in Hpriv. lia. }
    rewrite Hp. cbn. eauto.
Qed.

Lemma append_cons (c : ascii) (s1 s2 : string) :
  String c s1 +:+ s2 = String c (s1 +:+ s2).
Proof. reflexivity. Qed.

Lemma append_assoc (a b c : string) : (a +:+ b) +:+ c = a +:+ (b +:+ c).
Proof.
  induction a as [| x a IH]; [reflexivity |].
  rewrite !append_cons. f_equal. exact IH.
Qed.

Lemma append_empty_r (a : string) : a +:+ EmptyString = a.
Proof.
  induction a as [| x a IH]; [reflexivity |].
  rewrite append_cons. f_equal. exact IH.
Qed.

Lemma append_length (s1 s2 : string) :
  String.length (s1 +:+ s2) = (String.length s1 + String.length s2)%nat.
Proof.
  induction s1 as [| c s1 IH]; [reflexivity |].
  rewrite append_cons. cbn [String.length]. rewrite IH. reflexivity.
Qed.

Lemma substring_0_append (s1 s2 : string) :
  String.substring 0 (String.length s1) (s1 +:+ s2) = s1.
Proof.
  induction s1 as [| c s1 IH]; [destruct s2; reflexivity |].
  rewrite append_cons. cbn [String.length String.substring]. f_equal. exact IH.
Qed.

Lemma substring_0_all (s : string) :
  String.substring 0 (String.length s) s = s.
Proof.
  induction s as [| c s IH]; [reflexivity |]. cbn. by rewrite IH.
Qed.

Lemma substring_0_substring (n m : nat) (s : string) :
  (n <= m)%nat ->
  String.substring 0 n (String.substring 0 m s) = String.substring 0 n s.
Proof.
  revert m s. induction n as [| n IH]; intros m s Hnm.
  - destruct (String.substring 0 m s), s; reflexivity.
  - destruct m as [| m]; [lia |]. destruct s as [| c s]; [reflexivity |].
    cbn. rewrite IH by lia. reflexivity.
Qed.

Lemma deriveKey_length (passphrase : string) :
  String.length (crypto.deriveKey passphrase) = 32%nat.
Proof.
  unfold crypto.deriveKey.
  destruct (Nat.ltb_spec (String.length passphrase) 32) as [Hl | Hl].
  - rewrite append_length, bytes_length, repeat_length. lia.
  - by apply substring_0_length.
Qed.

(** X4.  [deriveKey] always returns 32 bytes, the size of an AES-256 key;
    the key starts with the first 32 bytes of the passphrase, so that two
    passphrases with the same first 32 bytes give the same key, and so
    does a passphrase and the same passphrase followed by zero bytes. *)
Theorem deriveKey_32 (passphrase : string) :
  String.length (crypto.deriveKey passphrase) = 32%nat /\
  String.substring 0 (Nat.min 32 (String.length passphrase)) (crypto.deriveKey passphrase) =
    String.substring 0 32 passphrase /\
  (forall other,
     String.substring 0 32 other = String.substring 0 32 passphrase ->
     (32 <= String.length passphrase)%nat -> (32 <= String.length other)%nat ->
     crypto.deriveKey other = crypto.deriveKey passphrase) /\
  (forall k, (String.length passphrase + k <= 32)%nat ->
     crypto.deriveKey (passphrase +:+ Go.bytes (repeat 0 k)) = crypto.deriveKey passphrase).
Proof.
  split; [apply deriveKey_length |]. unfold crypto.deriveKey. split; [| split].
  - destruct (Nat.ltb_spec (String.length passphrase) 32) as [Hl | Hl].
    + rewrite Nat.min_r by lia. rewrite substring_0_append.
      assert (H : forall n s, (String.length s <= n)%nat -> String.substring 0 n s = s).
      { induction n as [| n IH]; intros [| c s] Hs; cbn in *; try reflexivity; try lia.
        rewrite IH by lia. reflexivity. }
      symmetry. apply H. lia.
    + rewrite Nat.min_l by lia. by apply substring_0_substring.
  - intros other Heq Hl Hl'.
    destruct (Nat.ltb_spec (String.length passphrase) 32); [lia |].
    destruct (Nat.ltb_spec (String.length other) 32); [lia |]. exact Heq.
  - intros k Hk. rewrite append_length, bytes_length, repeat_length.
    destruct (Nat.ltb_spec (String.length passphrase + k) 32) as [Hl | Hl].
    + destruct (Nat.ltb_spec (String.length passphrase) 32); [| lia].
      rewrite append_assoc. f_equal. unfold Go.bytes.
      replace (32 - String.length passphrase)%nat
        with (k + (32 - (String.length passphrase + k)))%nat by lia.
      rewrite repeat_app, map_app.
      generalize (map Go.byte (repeat 0 k)) as l1.
      generalize (map Go.byte (repeat 0 (32 - (String.length passphrase + k)))) as l2.
      intros l2 l1. induction l1 as [| x l1 IH]; [reflexivity |].
      cbn [app string_of_list_ascii]. rewrite append_cons. f_equal. exact IH.
    + assert (Hk32 : (String.length passphrase + k = 32)%nat) by lia.
      destruct (Nat.ltb_spec (String.length passphrase) 32) as [Hp | Hp].
      * replace (32 - String.length passphrase)%nat with k by lia.
        rewrite <- Hk32 at 1.
        rewrite <- (repeat_length 0 k) at 1. rewrite <- (bytes_length (repeat 0 k)) at 1.
        rewrite <- append_length. apply substring_0_all.
      * assert (k = 0)%nat as -> by lia. cbn [repeat Go.bytes map string_of_list_ascii].
        rewrite append_empty_r. reflexivity.
Qed.

(** * What the block hash reads, and the chain *)

Lemma string_of_rune_invalid (n : Z) :
  not_a_rune n -> Go.string_of_rune n = Go.utf8 65533.
Proof.
  unfold not_a_rune, Go.string_of_rune. intros H.
  destruct (0 <=? n) eqn:H0; [| reflexivity].
  destruct (n <=? 1114111) eqn:H1; [| reflexivity].
  destruct ((55296 <=? n) && (n <=? 57343)) eqn:H2; [reflexivity |].
  apply andb_false_iff in H2. lia.
Qed.

Lemma hashBlock_reads (b1 b2 : Block.t) :
  Go.string_of_rune (Block.Index b1) = Go.string_of_rune (Block.Index b2) ->
  Go.string_of_rune (Block.Timestamp b1) = Go.string_of_rune (Block.Timestamp b2) ->
  map Transaction.ID (Block.Transactions b1) ≡ₚ map Transaction.ID (Block.Transactions b2) ->
  Block.PreviousHash b1 = Block.PreviousHash b2 ->
  Go.string_of_rune (Block.Nonce b1) = Go.string_of_rune (Block.Nonce b2) ->
  hashBlock b1 = hashBlock b2.
Proof.
  intros Hi Ht Htx Hp Hn. unfold hashBlock. cbv zeta.
  rewrite Hi, Ht, Hp, Hn, (sort_Strings_order_irrelevant _ _ Htx). reflexivity.
Qed.

(** X5.  The hash and the Merkle root of a block read the transactions
    through their identifiers only: replacing the transactions by others
    with the same identifiers, whatever their amounts, parties, inputs,
    outputs and signatures, changes neither. *)
Theorem hashBlock_reads_ids_only (b : Block.t) (txs : list Transaction.t) :
  map Transaction.ID txs = map Transaction.ID (Block.Transactions b) ->
  hashBlock
    (Block.mk (Block.Index b) (Block.Timestamp b) txs (Block.PreviousHash b)
       (Block.Nonce b) (Block.Hash b) (Block.MerkleRoot b)) = hashBlock b /\
  computeMerkle txs = computeMerkle (Block.Transactions b).
Proof.
  intros Hids. split.
  - apply hashBlock_reads; cbn; try reflexivity. by rewrite Hids.
  - by apply computeMerkle_ids.
Qed.

Lemma hashBlock_reads_ids_only_witness :
  hashBlock (Block.mk 1 2 [inflate spend_ten] "0" 3 "" "") =
    hashBlock (Block.mk 1 2 [spend_ten] "0" 3 "" "") /\
  computeMerkle [inflate spend_ten] = computeMerkle [spend_ten].
Proof.
  exact (hashBlock_reads_ids_only (Block.mk 1 2 [spend_ten] "0" 3 "" "")
           [inflate spend_ten] eq_refl).
Defined.

(** X6.  [string(n)] of an integer that is not a code point is the
    encoding of U+FFFD, so the hash of a block does not tell two such
    timestamps apart, nor two such nonces: every time after the
    1114111th second of 1970 gives the same hash, and so does every nonce
    above 1114111. *)
Theorem hashBlock_collapses (b : Block.t) (timestamp nonce : Z) :
  not_a_rune (Block.Timestamp b) -> not_a_rune timestamp ->
  not_a_rune (Block.Nonce b) -> not_a_rune nonce ->
  hashBlock
    (Block.mk (Block.Index b) timestamp (Block.Transactions b) (Block.PreviousHash b)
       nonce (Block.Hash b) (Block.MerkleRoot b)) = hashBlock b.
Proof.
  intros Ht Ht' Hn Hn'. apply hashBlock_reads; cbn; try reflexivity.
  - by rewrite !string_of_rune_invalid.
  - by rewrite !string_of_rune_invalid.
Qed.

Lemma hashBlock_collapses_witness :
  hashBlock (Block.mk 1 1700000001 [] "0" 2000001 "" "") =
  hashBlock (Block.mk 1 1700000000 [] "0" 2000000 "" "").
Proof.
  apply (hashBlock_collapses (Block.mk 1 1700000000 [] "0" 2000000 "" "")
           1700000001 2000001); unfold not_a_rune; cbn; lia.
Defined.

Lemma int64_small (x : Z) : - 2 ^ 63 <= x < 2 ^ 63 -> Go.int64 x = x.
Proof.
  intros Hx. unfold Go.int64. rewrite Z.mod_small; lia.
Qed.

Lemma nonce_at_exact (nonceStart : Z) (k : nat) :
  - 2 ^ 63 <= nonceStart -> nonceStart + Z.of_nat k < 2 ^ 63 ->
  nonce_at nonceStart k = nonceStart + Z.of_nat k.
Proof.
  intros Hlo. induction k as [| k IH]; intros Hhi.
  - unfold nonce_at. cbn. lia.
  - unfold nonce_at in *. rewrite Nat.iter_succ, IH by lia.
    rewrite int64_small; lia.
Qed.

(** X7.  A search that starts above 1114111 makes no progress: all the
    nonces it tries give the same hash, so [Mine] seals the block with the
    first nonce when that one conforms, and otherwise runs through all
    its iterations and seals a block that does not meet the difficulty. *)
Theorem Mine_search_above_code_points (nonceStart : Z) (minerWalletID : string)
    (now : Z) (bc : Blockchain) :
  Chain bc <> [] ->
  1114111 < nonceStart -> nonceStart + maxIterations <= 2 ^ 63 ->
  exists b bc',
    Mine nonceStart minerWalletID now bc = Ok (b, bc') /\
    ((Block.Nonce b = nonceStart /\
      Go.HasPrefix (Block.Hash b) (DifficultyPref bc) = true) \/
     (Block.Nonce b = nonceStart + maxIterations - 1 /\
      Go.HasPrefix (Block.Hash b) (DifficultyPref bc) = false)).
Proof.
  intros Hchain Hlo Hhi.
  destruct (Mine_spec nonceStart minerWalletID now bc Hchain)
    as (b & HM & _ & _ & _ & _ & _ & _ & Hs).
  cbv zeta in Hs. exists b. eexists. split; [exact HM |].
  assert (Hat : forall j, (j < Z.to_nat maxIterations)%nat ->
                nonce_at nonceStart j = nonceStart + Z.of_nat j).
  { intros j Hj. apply nonce_at_exact; unfold maxIterations in *; lia. }
  assert (Hsame : forall j, (j < Z.to_nat maxIterations)%nat ->
            conforming (DifficultyPref bc) (candidate minerWalletID now bc)
              (nonce_at nonceStart j) =
            conforming (DifficultyPref bc) (candidate minerWalletID now bc) nonceStart).
  { intros j Hj. unfold conforming. f_equal.
    apply hashBlock_reads; cbn [Block.with_Nonce Block.Index Block.Timestamp
      Block.Transactions Block.PreviousHash Block.Nonce]; try reflexivity.
    rewrite !string_of_rune_invalid; [reflexivity | |];
      unfold not_a_rune; [| rewrite (Hat j Hj)]; lia. }
  destruct Hs as [(k & Hk & Hbefore & Hconf & Hnonce & Hpre) | (Hall & Hnonce & Hpre)].
  - left. split; [| exact Hpre].
    destruct k as [| k]; [rewrite Hnonce; unfold nonce_at; reflexivity |].
    exfalso. specialize (Hbefore 0%nat ltac:(lia)).
    rewrite Hsame in Hconf by lia. unfold nonce_at in Hbefore. cbn in Hbefore.
    congruence.
  - right. split; [| exact Hpre].
    rewrite Hnonce, Hat; unfold maxIterations in *; lia.
Qed.

Lemma Mine_search_above_code_points_witness :
  exists b bc',
    Mine 1114112 "miner" 1 (NewBlockchain 0) = Ok (b, bc') /\
    ((Block.Nonce b = 1114112 /\
      Go.HasPrefix (Block.Hash b) (DifficultyPref (NewBlockchain 0)) = true) \/
     (Block.Nonce b = 1114112 + maxIterations - 1 /\
      Go.HasPrefix (Block.Hash b) (DifficultyPref (NewBlockchain 0)) = false)).
Proof.
  apply (Mine_search_above_code_points 1114112 "miner" 1 (NewBlockchain 0)).
  - discriminate.
  - lia.
  - unfold maxIterations. lia.
Defined.

Lemma linked_snoc (chain : list Block.t) (prev b : Block.t) :
  linked chain ->
  last chain = Some prev ->
  Block.Index b = Z.of_nat (length chain) ->
  Block.Hash b = hashBlock b ->
  Block.MerkleRoot b = computeMerkle (Block.Transactions b) ->
  Block.PreviousHash b = Block.Hash prev ->
  (exists reward rest,
     Block.Transactions b = reward :: rest /\
     Transaction.Inputs reward = [] /\
     Transaction.Amount reward = MiningReward) ->
  linked (chain ++ [b]).
Proof.
  intros Hl Hlast Hi Hh Hm Hp Hr i b' Hb'.
  destruct (decide (i < length chain)%nat) as [Hlt | Hge].
  - rewrite lookup_app_l in Hb' by exact Hlt.
    destruct (Hl i b' Hb') as (H1 & H2 & H3 & H4).
    split; [exact H1 |]. split; [exact H2 |]. split; [exact H3 |].
    destruct i as [| j]; [exact H4 |].
    destruct H4 as [(p & Hp1 & Hp2) H5]. split; [| exact H5].
    exists p. split; [| exact Hp2]. rewrite lookup_app_l; [exact Hp1 |]. lia.
  - rewrite lookup_app_r in Hb' by lia.
    destruct (i - length chain)%nat as [| n] eqn:Hn; [| destruct n; discriminate].
    cbn in Hb'. injection Hb' as <-.
    assert (i = length chain) as -> by lia.
    split; [exact Hi |]. split; [exact Hh |]. split; [exact Hm |].
    rewrite last_lookup in Hlast.
    destruct (length chain) as [| j] eqn:Hlen; [destruct chain; discriminate |].
    split; [| exact Hr]. exists prev. split; [| exact Hp].
    rewrite lookup_app_l by lia. exact Hlast.
Qed.

(** X8.  The chain of every ledger built by the operations of
    [Blockchain] is linked: it starts with a genesis block without
    transactions and with previous hash 0; every block has its position as
    index, the hash and the Merkle root of its own contents, and the hash
    of the block before it as previous hash; every block after the
    genesis starts with a reward of 50 that has no inputs. *)
Theorem reachable_linked (bc : Blockchain) :
  reachable bc -> linked (Chain bc) /\ Chain bc <> [].
Proof.
  intros Hr. split; [| by apply reachable_Chain].
  induction Hr as [now | tx bc Hr IH | nonceStart miner now bc b bc' Hr IH HM
                   | walletID now bc Hr IH].
  - intros i b Hb. destruct i as [| i]; [| discriminate].
    cbn in Hb. injection Hb as <-.
    split; [reflexivity |]. split.
    + cbn [Block.Hash Block.with_Hash]. symmetry. apply hashBlock_with_Hash.
    + split; [reflexivity |]. split; reflexivity.
  - exact IH.
  - pose proof (reachable_Chain bc Hr) as Hne.
    destruct (Mine_spec nonceStart miner now bc Hne)
      as (b0 & HM0 & Hi & _ & Htx & Hp & Hm & Hh & _).
    rewrite HM0 in HM. injection HM as <- <-. cbn [Chain].
    destruct (last (Chain bc)) as [prev |] eqn:Hlast; [| discriminate].
    cbn in Hp. injection Hp as Hp.
    apply (linked_snoc _ prev); try done.
    eexists _, _. split; [exact Htx |]. split; reflexivity.
  - exact IH.
Qed.

Lemma reachable_linked_witness :
  linked (Chain (NewBlockchain 0)) /\ Chain (NewBlockchain 0) <> [].
Proof.
  apply (reachable_linked (NewBlockchain 0) (reachable_New 0)).
Defined.

(** * The outputs across a commit *)

Lemma store_lookup_cases (txid : string) (idx : Z) (outs : list UTXO.t)
    (m : gmap string UTXO.t) (k : string) (u : UTXO.t) :
  store txid idx outs m !! k = Some u ->
  m !! k = Some u \/
  exists (i : nat) (out : UTXO.t),
    outs !! i = Some out /\ k = utxoKey txid (idx + Z.of_nat i) /\
    u = UTXO.with_ID k out.
Proof.
  revert idx m. induction outs as [| out outs IH]; intros idx m Hu.
  - left. exact Hu.
  - cbn [store] in Hu. destruct (IH _ _ Hu) as [Hm | (i & out' & Hi & Hk & Hu')].
    + destruct (decide (k = utxoKey txid idx)) as [-> | Hne].
      * rewrite lookup_insert_eq in Hm. injection Hm as <-.
        right. exists 0%nat, out. split; [reflexivity |].
        split; [f_equal; lia | reflexivity].
      * rewrite lookup_insert_ne in Hm by done. left. exact Hm.
    + right. exists (S i), out'. split; [exact Hi |].
      split; [rewrite Hk; f_equal; lia | exact Hu'].
Qed.

Lemma store_is_Some (txid : string) (idx : Z) (outs : list UTXO.t)
    (m : gmap string UTXO.t) (k : string) :
  is_Some (m !! k) -> is_Some (store txid idx outs m !! k).
Proof.
  revert idx m. induction outs as [| out outs IH]; intros idx m Hk; [exact Hk |].
  cbn [store]. apply IH.
  destruct (decide (k = utxoKey txid idx)) as [-> | Hne].
  - rewrite lookup_insert_eq. eauto.
  - rewrite lookup_insert_ne by done. exact Hk.
Qed.

Lemma spend_all_is_Some (inputs : list UTXORef.t) (m : gmap string UTXO.t) (k : string) :
  is_Some (m !! k) -> is_Some (fold_left spend inputs m !! k).
Proof.
  intros [u Hu]. rewrite spend_all_lookup, Hu.
  destruct (decide (k ∈ map key_of inputs)); cbn; eauto.
Qed.

Lemma commit_is_Some (txs : list Transaction.t) (m : gmap string UTXO.t) (k : string) :
  is_Some (m !! k) -> is_Some (commit txs m !! k).
Proof.
  unfold commit. revert m. induction txs as [| tx txs IH]; intros m Hk; [exact Hk |].
  cbn [fold_left]. apply IH. unfold commit_tx.
  by apply store_is_Some, spend_all_is_Some.
Qed.

Lemma content_with_Spent (b : bool) (u : UTXO.t) :
  content (UTXO.with_Spent b u) = content u.
Proof. by destruct u. Qed.

Lemma content_with_ID (id : string) (u : UTXO.t) :
  content (UTXO.with_ID id u) = content u.
Proof. by destruct u. Qed.

Lemma commit_lookup_cases (txs : list Transaction.t) (m : gmap string UTXO.t)
    (k : string) (u : UTXO.t) :
  commit txs m !! k = Some u ->
  (exists u0, m !! k = Some u0 /\ content u = content u0) \/
  (exists tx (i : nat) out,
     tx ∈ txs /\ Transaction.Outputs tx !! i = Some out /\
     k = utxoKey (Transaction.ID tx) (Z.of_nat i) /\ content u = content out).
Proof.
  unfold commit. revert m u. induction txs as [| tx txs IH] using rev_ind; intros m u Hu.
  - left. exists u. split; [exact Hu | reflexivity].
  - rewrite fold_left_app in Hu. cbn [fold_left] in Hu. unfold commit_tx in Hu at 1.
    apply store_lookup_cases in Hu as [Hu | (i & out & Hi & Hk & Hu)].
    + rewrite spend_all_lookup in Hu.
      assert (Hex : exists u1, fold_left commit_tx txs m !! k = Some u1 /\
                              content u = content u1).
      { destruct (decide (k ∈ map key_of (Transaction.Inputs tx))).
        - destruct (fold_left commit_tx txs m !! k) as [u1 |]; [| discriminate].
          cbn in Hu. injection Hu as <-. exists u1.
          split; [reflexivity | apply content_with_Spent].
        - exists u. split; [exact Hu | reflexivity]. }
      destruct Hex as (u1 & Hu1 & Hc).
      destruct (IH _ _ Hu1) as [(u0 & H0 & Hc0) | (tx' & i & out & Hin & Hi & Hk & Hc0)].
      * left. exists u0. split; [exact H0 | congruence].
      * right. exists tx', i, out. split; [apply elem_of_app; by left |].
        split; [exact Hi |]. split; [exact Hk | congruence].
    + right. exists tx, i, out.
      split; [apply elem_of_app; right; apply elem_of_cons; by left |].
      split; [exact Hi |]. split; [rewrite Hk; f_equal; lia |].
      rewrite Hu. apply content_with_ID.
Qed.

(** X9.  [Mine] deletes no output: every key of the map before is a key
    of the map after.  An entry whose key the block does not write is left
    as it was, except that it is marked spent when a pending transaction
    names it as an input, so the mark is not removed from such an entry.
    An entry whose key the block writes is replaced, whether it was spent
    or not, by an output of the block stored under that key: the entry
    after has the owner, the amount, the origin and the index of that
    output. *)
Theorem Mine_keeps_outputs (nonceStart : Z) (minerWalletID : string) (now : Z)
    (bc : Blockchain) (b : Block.t) (bc' : Blockchain) (key : string) (utxo : UTXO.t) :
  Mine nonceStart minerWalletID now bc = Ok (b, bc') ->
  UTXOs bc !! key = Some utxo ->
  is_Some (UTXOs bc' !! key) /\
  (key ∉ output_keys (Block.Transactions b) ->
   UTXOs bc' !! key =
     Some (if decide (key ∈ input_keys (Pending bc))
           then UTXO.with_Spent true utxo else utxo) /\
   (UTXO.Spent utxo = true -> UTXOs bc' !! key = Some utxo)) /\
  (key ∈ output_keys (Block.Transactions b) ->
   exists tx (i : nat) out utxo',
     tx ∈ Block.Transactions b /\
     Transaction.Outputs tx !! i = Some out /\
     key = utxoKey (Transaction.ID tx) (Z.of_nat i) /\
     UTXOs bc' !! key = Some utxo' /\
     UTXO.Owner utxo' = UTXO.Owner out /\
     UTXO.Amount utxo' = UTXO.Amount out /\
     UTXO.OriginTx utxo' = UTXO.OriginTx out /\
     UTXO.Index utxo' = UTXO.Index out).
Proof.
  intros HM Hu.
  assert (Hne : Chain bc <> []).
  { intros Hnil. unfold Mine in HM. rewrite Hnil in HM. discriminate. }
  destruct (Mine_spec nonceStart minerWalletID now bc Hne)
    as (b0 & HM0 & _ & _ & Htx & _).
  rewrite HM0 in HM. injection HM as <- <-. cbn [UTXOs]. split; [| split].
  - apply commit_is_Some. eauto.
  - intros Hout. rewrite commit_lookup by exact Hout.
    rewrite Htx, coinbase_input_keys, Hu. cbn [fmap option_fmap option_map].
    split; [by destruct (decide (key ∈ input_keys (Pending bc))) |].
    intros Hs. destruct (decide (key ∈ input_keys (Pending bc))); [| reflexivity].
    f_equal. destruct utxo. cbn in Hs. subst. reflexivity.
  - intros Hout.
    destruct (commit_lookup_overwritten (Block.Transactions b0) (UTXOs bc) key Hout)
      as (tx & i & out & u' & Hin & Hi & Hk & Hl & Hc).
    exists tx, i, out, u'. unfold content in Hc. injection Hc as H1 H2 H3 H4.
    repeat (split; [assumption |]). assumption.
Qed.

Lemma Mine_keeps_outputs_witness :
  exists b bc',
    Mine 0 "alice" 1 (mkBlockchain (Chain (NewBlockchain 0)) [] scenario_utxos "00000")
      = Ok (b, bc') /\
    is_Some (UTXOs bc' !! "t1:0").
Proof.
  destruct (Mine_spec 0 "alice" 1
              (mkBlockchain (Chain (NewBlockchain 0)) [] scenario_utxos "00000"))
    as (b & HM & _); [discriminate |].
  eexists _, _. split; [exact HM |].
  apply (Mine_keeps_outputs _ _ _ _ _ _ "t1:0"
           (UTXO.mk "t1:0" "alice" 30 "t1" 0 false) HM).
  reflexivity.
Defined.

Lemma CreateTransaction_shape {ext : External} (env : Env) (bc : Blockchain)
    (ws : wallet.Store) (senderID receiverID : string) (amount : Z)
    (note pubKey privKey : string) (tx : Transaction.t) :
  CreateTransaction env bc ws senderID receiverID amount note pubKey privKey = Ok tx ->
  exists selected total signature,
    SelectUTXOs (runtime env) bc senderID amount = Ok (selected, total) /\
    is_Some (wallet.Get senderID ws) /\ is_Some (wallet.Get receiverID ws) /\
    wallet.SignWithPriv privKey
      (wallet.MarshalPayload senderID receiverID amount (Unix env) note) = Ok signature /\
    tx = Transaction.mk ("tx-" +:+ Go.fmt_d (UnixNano env)) senderID receiverID amount
           note (Unix env) pubKey signature (inputs_of selected)
           (outputs_of ("tx-" +:+ Go.fmt_d (UnixNano env)) receiverID senderID amount total)
           "transfer".
Proof.
  unfold CreateTransaction. intros H.
  destruct (wallet.Get senderID ws) as [ws1 |]; [| discriminate].
  destruct (wallet.Get receiverID ws) as [ws2 |]; [| discriminate].
  destruct (SelectUTXOs (runtime env) bc senderID amount) as [[selected total] | |];
    [| discriminate | discriminate].
  cbn [mbind result_bind] in H.
  destruct (wallet.SignWithPriv privKey _) as [signature | |] eqn:Hs;
    [| discriminate | discriminate].
  injection H as <-. exists selected, total, signature.
  split; [reflexivity |]. split; [eauto |]. split; [eauto |]. split; reflexivity.
Qed.

Lemma CreateZakatTransaction_shape (env : Env) (bc : Blockchain) (walletID : string)
    (zakatAmount : Z) (tx : Transaction.t) :
  CreateZakatTransaction env bc walletID zakatAmount = Ok tx ->
  exists selected total,
    SelectUTXOs (runtime env) bc walletID zakatAmount = Ok (selected, total) /\
    tx = Transaction.mk ("zakat-" +:+ Go.fmt_d (UnixNano env)) walletID "ZAKAT_POOL"
           zakatAmount "Monthly Zakat Deduction (2.5%)" (Unix env) "system" "system"
           (inputs_of selected)
           (outputs_of ("zakat-" +:+ Go.fmt_d (UnixNano env)) "ZAKAT_POOL" walletID
              zakatAmount total)
           "zakat_deduction".
Proof.
  unfold CreateZakatTransaction. intros H.
  destruct (SelectUTXOs (runtime env) bc walletID zakatAmount) as [[selected total] | |];
    [| discriminate | discriminate].
  cbn [mbind result_bind] in H. injection H as <-.
  exists selected, total. split; reflexivity.
Qed.

Lemma outputs_of_well_formed (txID receiver sender : string) (amount total : Z)
    (i : nat) (out : UTXO.t) :
  outputs_of txID receiver sender amount total !! i = Some out ->
  UTXO.OriginTx out = txID /\ UTXO.Index out = Z.of_nat i.
Proof.
  unfold outputs_of. cbv zeta.
  destruct (0 <? Go.uint64 (total - amount)).
  - destruct i as [| [| i]]; cbn; intros [= <-]; split; reflexivity.
  - destruct i as [| i]; cbn; [| discriminate]. intros [= <-]. split; reflexivity.
Qed.

Lemma coinbaseTx_well_formed (index now : Z) (miner : string) :
  well_formed (coinbaseTx index now miner).
Proof.
  intros i out. destruct i as [| i]; cbn; [| discriminate].
  intros [= <-]. split; reflexivity.
Qed.

Lemma utxoKey_0 (txid : string) : utxoKey txid 0 = txid +:+ ":0".
Proof. reflexivity. Qed.

(** X10.  In every ledger built by the faucet, by transfers and levies
    made by [CreateTransaction] and [CreateZakatTransaction], and by
    [Mine], every output is stored under the key made of its own origin
    and index, the key by which the inputs of a transaction refer to it;
    and the outputs of every pending transaction name that transaction
    and their position. *)
Theorem built_well_keyed {ext : External} (bc : Blockchain) :
  built bc ->
  well_keyed (UTXOs bc) /\ Forall well_formed (Pending bc) /\ Chain bc <> [].
Proof.
  intros Hb.
  induction Hb as [now | walletID now bc Hb IH
                   | env ws senderID receiverID amount note pubKey privKey tx bc Hb IH HC
                   | env walletID zakatAmount tx bc Hb IH HC
                   | nonceStart miner now bc b bc' Hb IH HM].
  - split; [| split; [constructor | discriminate]].
    intros key utxo Hu. cbn in Hu. rewrite lookup_empty in Hu. discriminate.
  - destruct IH as (IH1 & IH2 & IH3). split; [| split; [exact IH2 | exact IH3]].
    intros key utxo Hu. cbn [CreateFaucetUTXO snd UTXOs] in Hu.
    destruct (decide (key = faucetOrigin walletID now +:+ ":0")) as [-> | Hne].
    + rewrite lookup_insert_eq in Hu. injection Hu as <-.
      cbn [UTXO.OriginTx UTXO.Index]. symmetry. apply utxoKey_0.
    + rewrite lookup_insert_ne in Hu by done. by apply IH1.
  - destruct IH as (IH1 & IH2 & IH3). split; [exact IH1 |]. split; [| exact IH3].
    cbn [AddPending Pending]. apply Forall_app. split; [exact IH2 |].
    constructor; [| constructor].
    apply CreateTransaction_shape in HC as (selected & total & signature & _ & _ & _ & _ & ->).
    intros i out Hi. cbn [Transaction.Outputs Transaction.ID] in *.
    by apply outputs_of_well_formed in Hi.
  - destruct IH as (IH1 & IH2 & IH3). split; [exact IH1 |]. split; [| exact IH3].
    cbn [AddPending Pending]. apply Forall_app. split; [exact IH2 |].
    constructor; [| constructor].
    apply CreateZakatTransaction_shape in HC as (selected & total & _ & ->).
    intros i out Hi. cbn [Transaction.Outputs Transaction.ID] in *.
    by apply outputs_of_well_formed in Hi.
  - destruct IH as (IH1 & IH2 & IH3).
    destruct (Mine_spec nonceStart miner now bc IH3) as (b0 & HM0 & _ & _ & Htx & _).
    rewrite HM0 in HM. injection HM as <- <-. cbn [UTXOs Pending Chain].
    split; [| split; [constructor | by destruct (Chain bc)]].
    intros key utxo Hu.
    apply commit_lookup_cases in Hu
      as [(u0 & H0 & Hc) | (tx & i & out & Hin & Hi & Hk & Hc)].
    + unfold content in Hc. injection Hc as _ _ -> ->. by apply IH1.
    + unfold content in Hc. injection Hc as _ _ -> ->.
      assert (Hwf : well_formed tx).
      { rewrite Htx in Hin. apply elem_of_cons in Hin as [-> | Hin].
        - apply coinbaseTx_well_formed.
        - rewrite Forall_forall in IH2. apply IH2. exact Hin. }
      destruct (Hwf i out Hi) as [-> ->]. exact Hk.
Qed.

Lemma built_well_keyed_witness :
  well_keyed (UTXOs (CreateFaucetUTXO "alice" 0 (NewBlockchain 0)).2) /\
  Forall well_formed (Pending (CreateFaucetUTXO "alice" 0 (NewBlockchain 0)).2) /\
  Chain (CreateFaucetUTXO "alice" 0 (NewBlockchain 0)).2 <> [].
Proof.
  apply (built_well_keyed (ext := external0)).
  apply built_Faucet, built_New.
Defined.

(** * Transfers and levies as they are created *)

Lemma unspent_of_elem (walletID : string) (bc : Blockchain) (u : UTXO.t) :
  u ∈ unspent_of walletID bc ->
  UTXO.Owner u = walletID /\ UTXO.Spent u = false /\
  exists key, UTXOs bc !! key = Some u.
Proof.
  unfold unspent_of. intros Hu. apply list_elem_of_In, filter_In in Hu as [Hin Ho].
  unfold owned in Ho. apply andb_true_iff in Ho as [Ho Hs].
  apply String.eqb_eq in Ho. apply negb_true_iff in Hs.
  split; [exact Ho |]. split; [exact Hs |].
  apply list_elem_of_In, list_elem_of_fmap in Hin as ([key u'] & -> & Hin).
  exists key. by apply elem_of_map_to_list in Hin.
Qed.

Lemma SelectUTXOs_selected (rt : Go.Runtime) (bc : Blockchain) (walletID : string)
    (amount : Z) (selected : list UTXO.t) (total : Z) :
  Go.lawful rt ->
  SelectUTXOs rt bc walletID amount = Ok (selected, total) ->
  total = running_total 0 selected /\ amount <= total /\ 0 <= total < 2 ^ 64 /\
  forall u, u ∈ selected ->
    UTXO.Owner u = walletID /\ UTXO.Spent u = false /\
    exists key, UTXOs bc !! key = Some u.
Proof.
  intros Hrt Hsel.
  destruct (SelectUTXOs_Ok _ _ _ _ _ _ Hsel) as (H1 & H2 & H3).
  split; [exact H1 |]. split; [exact H2 |]. split; [exact H3 |].
  destruct (SelectUTXOs_spec rt bc walletID amount) as (sel & rest & Hav & _ & _ & Hres).
  rewrite Hsel in Hres.
  destruct (running_total 0 sel <? amount); [discriminate |]. injection Hres as -> _.
  intros u Hu. apply unspent_of_elem.
  destruct (available_spec rt bc walletID Hrt) as [Hp _].
  rewrite <- Hp, Hav. apply elem_of_app. by left.
Qed.

Lemma input_total_inputs_of (m : gmap string UTXO.t) (selected : list UTXO.t) :
  (forall u, u ∈ selected ->
     m !! utxoKey (UTXO.OriginTx u) (UTXO.Index u) = Some u) ->
  input_total m (inputs_of selected) = running_total 0 selected.
Proof.
  unfold input_total, running_total, inputs_of.
  set (f := fun (total : Z) (input : UTXORef.t) => _).
  set (g := fun (total : Z) (utxo : UTXO.t) => _).
  assert (H : forall start,
            (forall u, u ∈ selected ->
               m !! utxoKey (UTXO.OriginTx u) (UTXO.Index u) = Some u) ->
            fold_left f
              (map (fun utxo => UTXORef.mk (UTXO.OriginTx utxo) (UTXO.Index utxo)) selected)
              start = fold_left g selected start).
  { induction selected as [| u selected IH]; intros start Hm; [reflexivity |].
    cbn [map fold_left]. rewrite IH.
    - f_equal. unfold f, g. cbn [UTXORef.TxID UTXORef.Index].
      rewrite (Hm u) by (apply elem_of_cons; by left). reflexivity.
    - intros u' Hu'. apply Hm. apply elem_of_cons. by right. }
  apply H.
Qed.

Lemma outputs_of_total (txID receiver sender : string) (amount total : Z) :
  0 <= amount <= total -> total < 2 ^ 64 ->
  total_of (outputs_of txID receiver sender amount total) = total /\
  output_total (outputs_of txID receiver sender amount total) = total.
Proof.
  intros Ha Ht. rewrite output_total_running, running_total_0.
  assert (Hsum : total_of (outputs_of txID receiver sender amount total) = total).
  { unfold outputs_of, total_of. cbv zeta.
    rewrite (uint64_small (total - amount)) by lia.
    destruct (Z.ltb_spec 0 (total - amount)); cbn; lia. }
  rewrite Hsum. split; [reflexivity | apply uint64_small; lia].
Qed.

Lemma hex_DecodeString_system : Go.hex_DecodeString "system" = None.
Proof. reflexivity. Qed.

Lemma created_transfer_valid {ext : External} (env : Env) (bc : Blockchain)
    (ws : wallet.Store) (senderID receiverID : string) (amount : Z)
    (note pubKey privKey pub priv : string) (tx : Transaction.t) :
  Go.lawful (runtime env) ->
  well_keyed (UTXOs bc) ->
  0 <= amount ->
  Go.hex_DecodeString pubKey = Some pub ->
  Go.len pub = wallet.PublicKeySize ->
  Go.hex_DecodeString privKey = Some priv ->
  ed25519_correct pub priv ->
  wallet.WalletIDFromPub pubKey = Ok senderID ->
  CreateTransaction env bc ws senderID receiverID amount note pubKey privKey = Ok tx ->
  ValidateTransaction bc tx = Ok tt.
Proof.
  intros Hrt Hwk Ham Hpub Hlen Hpriv Hed Hid HC.
  apply CreateTransaction_shape in HC
    as (selected & total & signature & Hsel & _ & _ & Hsig & ->).
  destruct (SelectUTXOs_selected _ _ _ _ _ _ Hrt Hsel) as (Ht & Hle & Hrange & Hin).
  assert (Hkey : forall u, u ∈ selected ->
            UTXOs bc !! utxoKey (UTXO.OriginTx u) (UTXO.Index u) = Some u).
  { intros u Hu. destruct (Hin u Hu) as (_ & _ & key & Hk).
    rewrite <- (Hwk key u Hk). exact Hk. }
  apply ValidateTransaction_Ok.
  cbn [Transaction.PubKey Transaction.SenderID Transaction.ReceiverID Transaction.Amount
       Transaction.Timestamp Transaction.Note Transaction.Signature Transaction.Inputs
       Transaction.Outputs].
  split; [| split; [exact Hid | split]].
  - unfold wallet.SignWithPriv in Hsig. rewrite Hpriv in Hsig.
    destruct (negb (Go.len priv =? wallet.PrivateKeySize)); [discriminate |].
    injection Hsig as <-.
    unfold wallet.VerifySignature. rewrite Hpub, hex_round_trip, Hlen, Hed. reflexivity.
  - intros input Hinput. unfold inputs_of in Hinput.
    apply list_elem_of_fmap in Hinput as (u & -> & Hu).
    exists u. unfold key_of. cbn [UTXORef.TxID UTXORef.Index].
    destruct (Hin u Hu) as (Ho & Hs & _). split; [by apply Hkey |]. by split.
  - rewrite (input_total_inputs_of _ _ Hkey), <- Ht.
    symmetry. apply outputs_of_total; lia.
Qed.

(** X11.  A transfer made by [CreateTransaction] passes
    [ValidateTransaction] on the ledger it was made from: when the
    outputs of the ledger are stored under their own keys, the public key
    is the 32-byte key of the sender's identifier and the private key
    signs for it, the transaction that is returned is accepted. *)
Theorem CreateTransaction_validates {ext : External} (env : Env) (bc : Blockchain)
    (ws : wallet.Store) (senderID receiverID : string) (amount : Z)
    (note pubKey privKey pub priv : string) (tx : Transaction.t) :
  Go.lawful (runtime env) ->
  well_keyed (UTXOs bc) ->
  0 <= amount ->
  Go.hex_DecodeString pubKey = Some pub ->
  Go.len pub = wallet.PublicKeySize ->
  Go.hex_DecodeString privKey = Some priv ->
  ed25519_correct pub priv ->
  wallet.WalletIDFromPub pubKey = Ok senderID ->
  CreateTransaction env bc ws senderID receiverID amount note pubKey privKey = Ok tx ->
  ValidateTransaction bc tx = Ok tt.
Proof.
  apply created_transfer_valid.
Qed.

Lemma CreateTransaction_validates_witness :
  exists tx,
    CreateTransaction (ext := external0) env0 ten
      (wallet.Save (wallet.Build_Wallet zero_wallet "" "" "" "" "")
         (wallet.Save (wallet.Build_Wallet "bob" "" "" "" "" "") wallet.NewStore))
      zero_wallet "bob" 4 "" zero_pub zero_key = Ok tx /\
    ValidateTransaction (ext := external0) ten tx = Ok tt.
Proof.
  eexists. split; [vm_compute; reflexivity |].
  apply (CreateTransaction_validates (ext := external0) env0 ten
           (wallet.Save (wallet.Build_Wallet zero_wallet "" "" "" "" "")
              (wallet.Save (wallet.Build_Wallet "bob" "" "" "" "" "") wallet.NewStore))
           zero_wallet "bob" 4 "" zero_pub zero_key
           (Go.bytes (repeat 0 32)) (Go.bytes (repeat 0 64))).
  - apply runtime0_lawful.
  - intros key utxo Hu. unfold ten in Hu. cbn [UTXOs] in Hu.
    apply lookup_insert_Some in Hu as [[<- <-] | [_ Hu]]; [reflexivity |].
    rewrite lookup_empty in Hu. discriminate.
  - lia.
  - apply hex_round_trip.
  - reflexivity.
  - apply hex_round_trip.
  - intros msg. reflexivity.
  - vm_compute. reflexivity.
  - vm_compute. reflexivity.
Defined.

Lemma outputs_of_shape (txID receiver sender : string) (amount total : Z) :
  0 <= amount <= total -> total < 2 ^ 64 ->
  exists change,
    outputs_of txID receiver sender amount total =
      UTXO.mk "" receiver amount txID 0 false :: change /\
    (forall out, out ∈ change ->
       UTXO.Owner out = sender /\ UTXO.Amount out = total - amount /\ 0 < UTXO.Amount out) /\
    (amount < total -> change <> []).
Proof.
  intros Ha Ht. unfold outputs_of. cbv zeta.
  rewrite (uint64_small (total - amount)) by lia.
  destruct (Z.ltb_spec 0 (total - amount)) as [Hc | Hc].
  - eexists. split; [reflexivity |]. split; [| discriminate].
    intros out Hout. apply list_elem_of_singleton in Hout as ->. cbn.
    split; [reflexivity | lia].
  - exists []. split; [reflexivity |]. split; [| lia].
    intros out Hout. by apply elem_of_nil in Hout.
Qed.

(** X12.  A transfer made by [CreateTransaction] conserves value: its
    inputs are the outputs that [SelectUTXOs] selected, each owned by the
    sender and unspent; its first output gives the amount to the
    receiver, any further output gives change to the sender, and the
    outputs add up to the [uint64] total of the selected outputs. *)
Theorem CreateTransaction_conserves {ext : External} (env : Env) (bc : Blockchain)
    (ws : wallet.Store) (senderID receiverID : string) (amount : Z)
    (note pubKey privKey : string) (tx : Transaction.t) :
  Go.lawful (runtime env) ->
  0 <= amount ->
  CreateTransaction env bc ws senderID receiverID amount note pubKey privKey = Ok tx ->
  exists selected change,
    Transaction.Inputs tx = inputs_of selected /\
    (forall u, u ∈ selected ->
       UTXO.Owner u = senderID /\ UTXO.Spent u = false /\
       exists key, UTXOs bc !! key = Some u) /\
    Transaction.Outputs tx =
      UTXO.mk "" receiverID amount (Transaction.ID tx) 0 false :: change /\
    (forall out, out ∈ change -> UTXO.Owner out = senderID /\ 0 < UTXO.Amount out) /\
    total_of (Transaction.Outputs tx) = Go.uint64 (total_of selected).
Proof.
  intros Hrt Ham HC.
  apply CreateTransaction_shape in HC
    as (selected & total & signature & Hsel & _ & _ & _ & ->).
  destruct (SelectUTXOs_selected _ _ _ _ _ _ Hrt Hsel) as (Ht & Hle & Hrange & Hin).
  cbn [Transaction.Inputs Transaction.Outputs Transaction.ID].
  destruct (outputs_of_shape ("tx-" +:+ Go.fmt_d (UnixNano env)) receiverID senderID
              amount total) as (change & Hout & Hchange & _); [lia | lia |].
  exists selected, change. split; [reflexivity |]. split; [exact Hin |].
  split; [exact Hout |]. split.
  - intros out Ho. destruct (Hchange out Ho) as (H1 & _ & H3). by split.
  - rewrite <- running_total_0, <- Ht. apply outputs_of_total; lia.
Qed.

Lemma CreateTransaction_conserves_witness :
  exists tx selected change,
    CreateTransaction (ext := external0) env0 scenario scenario_wallets
      "alice" "bob" 65 "" "" zero_key = Ok tx /\
    Transaction.Inputs tx = inputs_of selected /\
    Transaction.Outputs tx =
      UTXO.mk "" "bob" 65 (Transaction.ID tx) 0 false :: change /\
    total_of (Transaction.Outputs tx) = Go.uint64 (total_of selected).
Proof.
  eexists.
  destruct (CreateTransaction_conserves (ext := external0) env0 scenario scenario_wallets
              "alice" "bob" 65 "" "" zero_key _ runtime0_lawful ltac:(lia) eq_refl)
    as (selected & change & H1 & _ & H2 & _ & H3).
  exists selected, change. split; [reflexivity |]. split; [exact H1 |].
  split; [exact H2 | exact H3].
Defined.

(** X13.  The transactions the system makes itself never pass
    [ValidateTransaction]: a reward carries the public key SYSTEM and a
    levy the public key system, neither of which is hexadecimal, so the
    validation of either ends with the error of the signature check, on
    every ledger.  A levy made by [CreateZakatTransaction] conserves
    value all the same: its inputs are the outputs that [SelectUTXOs]
    returned for the wallet and the amount on that ledger, each of them,
    under a lawful runtime, stored in the ledger, owned by the wallet and
    unspent; its first output gives the amount to ZAKAT_POOL, any further
    output gives change to the wallet, and the outputs add up to the
    [uint64] total of the selected outputs, which is the total that
    [SelectUTXOs] returned. *)
Theorem system_transactions_not_validated {ext : External} (bc : Blockchain) :
  (forall index now miner,
     ValidateTransaction bc (coinbaseTx index now miner) =
       Err (ErrSignatureVerification ErrHexDecode)) /\
  (forall env ledger walletID zakatAmount tx,
     CreateZakatTransaction env ledger walletID zakatAmount = Ok tx ->
     ValidateTransaction bc tx = Err (ErrSignatureVerification ErrHexDecode) /\
     exists selected total,
       SelectUTXOs (runtime env) ledger walletID zakatAmount = Ok (selected, total) /\
       Transaction.Inputs tx = inputs_of selected /\
       total = Go.uint64 (total_of selected) /\
       zakatAmount <= total /\
       (Go.lawful (runtime env) ->
        forall u, u ∈ selected ->
          UTXO.Owner u = walletID /\ UTXO.Spent u = false /\
          exists key, UTXOs ledger !! key = Some u) /\
       (0 <= zakatAmount ->
        (exists change,
           Transaction.Outputs tx =
             UTXO.mk "" "ZAKAT_POOL" zakatAmount (Transaction.ID tx) 0 false :: change /\
           (forall out, out ∈ change ->
              UTXO.Owner out = walletID /\ UTXO.Amount out = total - zakatAmount /\
              0 < UTXO.Amount out)) /\
        total_of (Transaction.Outputs tx) = total)).
Proof.
  split.
  - intros index now miner. reflexivity.
  - intros env ledger walletID zakatAmount tx HC.
    apply CreateZakatTransaction_shape in HC as (selected & total & Hsel & ->).
    split; [reflexivity |].
    destruct (SelectUTXOs_Ok _ _ _ _ _ _ Hsel) as (Ht & Hle & Hrange).
    exists selected, total. split; [exact Hsel |]. split; [reflexivity |].
    split; [rewrite <- running_total_0; exact Ht |]. split; [exact Hle |]. split.
    + intros Hrt. by destruct (SelectUTXOs_selected _ _ _ _ _ _ Hrt Hsel) as (_ & _ & _ & Hin).
    + intros Ham. cbn [Transaction.Outputs Transaction.ID]. split.
      * destruct (outputs_of_shape ("zakat-" +:+ Go.fmt_d (UnixNano env)) "ZAKAT_POOL"
                    walletID zakatAmount total) as (change & Hout & Hchange & _);
          [lia | lia |].
        exists change. split; [exact Hout | exact Hchange].
      * apply outputs_of_total; lia.
Qed.

Lemma accumulate_0 (avail : list UTXO.t) : accumulate 0 avail [] 0 = ([], 0).
Proof. destruct avail; reflexivity. Qed.

(** X14.  A transfer of 0 needs no funds: [SelectUTXOs] selects nothing
    for the amount 0, whatever the wallet holds, so [CreateTransaction]
    between two wallets of the store, with a private key of 64 bytes,
    returns a transaction without inputs whose only output gives 0 to the
    receiver. *)
Theorem CreateTransaction_zero_amount {ext : External} (env : Env) (bc : Blockchain)
    (ws : wallet.Store) (senderID receiverID note pubKey privKey priv : string) :
  is_Some (wallet.Get senderID ws) ->
  is_Some (wallet.Get receiverID ws) ->
  Go.hex_DecodeString privKey = Some priv ->
  Go.len priv = wallet.PrivateKeySize ->
  SelectUTXOs (runtime env) bc senderID 0 = Ok ([], 0) /\
  exists tx,
    CreateTransaction env bc ws senderID receiverID 0 note pubKey privKey = Ok tx /\
    Transaction.Inputs tx = [] /\
    Transaction.Outputs tx = [UTXO.mk "" receiverID 0 (Transaction.ID tx) 0 false].
Proof.
  intros [w1 H1] [w2 H2] Hpriv Hlen.
  assert (Hsel : SelectUTXOs (runtime env) bc senderID 0 = Ok ([], 0)).
  { rewrite SelectUTXOs_unfold, accumulate_0. reflexivity. }
  split; [exact Hsel |].
  unfold CreateTransaction. rewrite H1, H2, Hsel. cbn [mbind result_bind].
  unfold wallet.SignWithPriv. rewrite Hpriv, Hlen. cbn [negb Z.eqb].
  eexists. split; [reflexivity |]. split; reflexivity.
Qed.

Lemma CreateTransaction_zero_amount_witness :
  SelectUTXOs (runtime env0) (NewBlockchain 0) "alice" 0 = Ok ([], 0) /\
  exists tx,
    CreateTransaction (ext := external0) env0 (NewBlockchain 0) scenario_wallets
      "alice" "bob" 0 "" "" zero_key = Ok tx /\
    Transaction.Inputs tx = [] /\
    Transaction.Outputs tx = [UTXO.mk "" "bob" 0 (Transaction.ID tx) 0 false].
Proof.
  apply (CreateTransaction_zero_amount (ext := external0) env0 (NewBlockchain 0)
           scenario_wallets "alice" "bob" "" "" zero_key (Go.bytes (repeat 0 64))).
  - vm_compute. eauto.
  - vm_compute. eauto.
  - apply hex_round_trip.
  - reflexivity.
Defined.

(** * The tick of the levy *)

Lemma within_interval_now (now : Z) : within_interval now now = true.
Proof.
  unfold within_interval, Go.Time_Sub. rewrite Z.sub_diag. vm_compute. reflexivity.
Qed.

Lemma GetBalance_UTXOs (walletID : string) (bc1 bc2 : Blockchain) :
  UTXOs bc1 = UTXOs bc2 -> GetBalance walletID bc1 = GetBalance walletID bc2.
Proof. unfold GetBalance. by intros ->. Qed.

Lemma unspent_of_UTXOs (walletID : string) (bc1 bc2 : Blockchain) :
  UTXOs bc1 = UTXOs bc2 -> unspent_of walletID bc1 = unspent_of walletID bc2.
Proof. unfold unspent_of. by intros ->. Qed.

Lemma process_wallet_levy (now : Z) (env : Env) (w : wallet.Wallet)
    (zs zs' : ZakatService) :
  process_wallet now env w zs = Ok zs' ->
  zs' = zs \/
  exists tx,
    zs' = mkZakatService (AddPending tx (bc zs)) (ws zs)
            (<[wallet.WalletID w := now]> (lastProcessed zs)) (nisabThreshold zs) /\
    Transaction.SenderID tx = wallet.WalletID w /\
    justified now zs tx.
Proof.
  unfold process_wallet. set (id := wallet.WalletID w).
  destruct (String.eqb id "ZAKAT_POOL") eqn:Hz; [intros [= <-]; by left |].
  destruct (String.eqb id "COINBASE") eqn:Hc; [intros [= <-]; by left |].
  cbn [orb].
  apply String.eqb_neq in Hz, Hc.
  destruct (match lastProcessed zs !! id with Some _ => _ | None => _ end) eqn:Hrec;
    [intros [= <-]; by left |].
  destruct (Z.ltb_spec (GetBalance id (bc zs)) (nisabThreshold zs)) as [Hlt | Hge].
  { intros H. left. by apply logged_Ok in H. }
  destruct (Z.eqb_spec (zakat_of (GetBalance id (bc zs))) 0) as [H0 | H0];
    [intros [= <-]; by left |].
  destruct (CreateZakatTransaction env (bc zs) id _) as [tx | e |] eqn:Htx; [| | done].
  - intros H. right. exists tx.
    assert (Hlen : (16 <= String.length id)%nat).
    { unfold logged, Go.slice_to in H.
      destruct (Nat.leb_spec 16 (String.length id)); [done | discriminate]. }
    apply logged_Ok in H. split; [exact H |].
    apply CreateZakatTransaction_shape in Htx as (selected & total & _ & ->).
    split; [reflexivity |].
    unfold justified, due. cbn [Transaction.SenderID Transaction.Amount
      Transaction.ReceiverID Transaction.Type_].
    split; [| done].
    split; [exact Hz |]. split; [exact Hc |].
    intros last Hlast. fold id in Hrec. by rewrite Hlast in Hrec.
  - intros H. left. by apply logged_Ok in H.
Qed.

Lemma justified_step (now : Z) (zs : ZakatService) (tx0 tx : Transaction.t) (id : string) :
  justified now
    (mkZakatService (AddPending tx0 (bc zs)) (ws zs) (<[id := now]> (lastProcessed zs))
       (nisabThreshold zs)) tx ->
  Transaction.SenderID tx <> id /\ justified now zs tx.
Proof.
  unfold justified, due. cbn [lastProcessed nisabThreshold bc].
  rewrite (GetBalance_UTXOs _ (AddPending tx0 (bc zs)) (bc zs)) by reflexivity.
  intros ((Hz & Hc & Hrec) & Hrest).
  assert (Hne : Transaction.SenderID tx <> id).
  { intros Heq. specialize (Hrec now). rewrite Heq, lookup_insert_eq in Hrec.
    specialize (Hrec eq_refl). rewrite within_interval_now in Hrec. discriminate. }
  split; [exact Hne |]. split; [| exact Hrest].
  split; [exact Hz |]. split; [exact Hc |].
  intros last Hlast. apply Hrec. by rewrite lookup_insert_ne.
Qed.

Lemma process_wallets_levies (now : Z) (envs : nat -> Env) (i : nat)
    (wallets : list wallet.Wallet) (zs zs' : ZakatService) :
  process_wallets now envs i wallets zs = Ok zs' ->
  exists levies,
    bc zs' = add_levies levies (bc zs) /\
    ws zs' = ws zs /\
    nisabThreshold zs' = nisabThreshold zs /\
    NoDup (map Transaction.SenderID levies) /\
    (forall tx, tx ∈ levies ->
       justified now zs tx /\
       (exists w, w ∈ wallets /\ wallet.WalletID w = Transaction.SenderID tx) /\
       lastProcessed zs' !! Transaction.SenderID tx = Some now) /\
    (forall id, id ∉ map Transaction.SenderID levies ->
       lastProcessed zs' !! id = lastProcessed zs !! id).
Proof.
  revert i zs. induction wallets as [| w wallets IH]; intros i zs; cbn [process_wallets].
  - intros [= <-]. exists []. unfold add_levies. rewrite app_nil_r.
    split; [by destruct (bc zs) |]. split; [reflexivity |]. split; [reflexivity |].
    split; [constructor |]. split; [| reflexivity].
    intros tx Htx. by apply elem_of_nil in Htx.
  - destruct (process_wallet now (envs i) w zs) as [zs1 | e |] eqn:Hw;
      cbn [mbind result_bind]; try done.
    intros Hrest.
    destruct (IH _ _ Hrest) as (levies & Hbc & Hws & Hth & Hnd & Hlev & Hlast).
    destruct (process_wallet_levy _ _ _ _ _ Hw) as [-> | (tx & -> & Hsender & Hj)].
    + exists levies. split; [exact Hbc |]. split; [exact Hws |]. split; [exact Hth |].
      split; [exact Hnd |]. split; [| exact Hlast].
      intros tx Htx. destruct (Hlev tx Htx) as (H1 & (w' & Hw' & Hid) & H3).
      split; [exact H1 |]. split; [| exact H3].
      exists w'. split; [apply elem_of_cons; by right | exact Hid].
    + cbn [bc ws nisabThreshold lastProcessed] in *.
      assert (Hfresh : Transaction.SenderID tx ∉ map Transaction.SenderID levies).
      { intros Hin. apply list_elem_of_fmap in Hin as (tx' & Heq & Hin).
        destruct (Hlev tx' Hin) as (Hj' & _).
        apply justified_step in Hj' as [Hne _]. rewrite Hsender in Heq. congruence. }
      exists (tx :: levies). split; [| split; [exact Hws | split; [exact Hth | split; [| split]]]].
      * rewrite Hbc. unfold add_levies, AddPending. cbn [Chain Pending UTXOs DifficultyPref].
        by rewrite <- app_assoc.
      * cbn [map]. constructor; [| exact Hnd].
        intros Hin. apply Hfresh. by apply list_elem_of_In.
      * intros tx' [-> | Hin]%elem_of_cons.
        -- split; [exact Hj |]. split.
           ++ exists w. split; [apply elem_of_cons; by left | by rewrite Hsender].
           ++ rewrite (Hlast _ Hfresh), Hsender. apply lookup_insert_eq.
        -- destruct (Hlev tx' Hin) as (Hj' & (w' & Hw' & Hid) & H3).
           apply justified_step in Hj' as [_ Hj']. split; [exact Hj' |].
           split; [| exact H3]. exists w'. split; [apply elem_of_cons; by right | exact Hid].
      * intros id Hid. cbn [map] in Hid. rewrite not_elem_of_cons in Hid.
        destruct Hid as [Hne Hid]. rewrite (Hlast id Hid).
        apply lookup_insert_ne. rewrite <- Hsender. congruence.
Qed.

Lemma ProcessMonthlyZakat_Ok (rt : Go.Runtime) (now : Z) (envs : nat -> Env)
    (mineNow : Z) (zs zs' : ZakatService) :
  ProcessMonthlyZakat rt now envs mineNow zs = Ok zs' ->
  exists zs1 levies,
    process_wallets now envs 0 (Go.range rt (ws zs)).*2 zs = Ok zs1 /\
    bc zs1 = add_levies levies (bc zs) /\
    lastProcessed zs' = lastProcessed zs1 /\
    ws zs' = ws zs /\ nisabThreshold zs' = nisabThreshold zs /\
    ((Pending (bc zs) ++ levies = [] /\ bc zs' = bc zs) \/
     (Pending (bc zs) ++ levies <> [] /\
      exists b,
        Mine 0 "ZAKAT_POOL" mineNow (add_levies levies (bc zs)) = Ok (b, bc zs') /\
        Chain (bc zs') = Chain (bc zs) ++ [b] /\
        Block.Transactions b =
          coinbaseTx (Z.of_nat (length (Chain (bc zs)))) mineNow "ZAKAT_POOL" ::
          Pending (bc zs) ++ levies)).
Proof.
  intros Htick. unfold ProcessMonthlyZakat in Htick. cbv zeta in Htick.
  destruct (process_wallets now envs 0 (Go.range rt (ws zs)).*2 zs) as [zs1 | e |] eqn:Hloop;
    cbn [mbind result_bind] in Htick; try done.
  destruct (process_wallets_levies _ _ _ _ _ _ Hloop)
    as (levies & Hbc & Hws & Hth & _).
  exists zs1, levies. split; [reflexivity |]. split; [exact Hbc |].
  assert (Hfinal : lastProcessed zs' = lastProcessed zs1 /\ ws zs' = ws zs1 /\
                   nisabThreshold zs' = nisabThreshold zs1).
  { destruct (0 <? length (GetPending (bc zs1)))%nat.
    - destruct (Mine 0 "ZAKAT_POOL" mineNow (bc zs1)) as [mined | e |];
        cbn [mbind result_bind] in Htick; try done.
      by injection Htick as <-.
    - by injection Htick as <-. }
  destruct Hfinal as (Hl & Hw & Ht). rewrite Hw, Ht.
  split; [exact Hl |]. split; [exact Hws |]. split; [exact Hth |].
  unfold GetPending in Htick. rewrite Hbc in Htick.
  destruct (Nat.ltb_spec 0 (length (Pending (add_levies levies (bc zs))))) as [Hpos | Hzero].
  - right. split.
    { cbn [add_levies Pending] in Hpos. intros Hnil. rewrite Hnil in Hpos. cbn in Hpos. lia. }
    destruct (Mine 0 "ZAKAT_POOL" mineNow (add_levies levies (bc zs))) as [[b bc'] | e |] eqn:HM;
      cbn [mbind result_bind] in Htick; try done.
    injection Htick as <-. cbn [bc snd]. exists b. split; [reflexivity |].
    assert (Hchain : Chain (add_levies levies (bc zs)) <> []).
    { intros Hnil. unfold Mine in HM. rewrite Hnil in HM. discriminate. }
    destruct (Mine_spec 0 "ZAKAT_POOL" mineNow _ Hchain) as (b0 & HM0 & _ & _ & Htx & _).
    rewrite HM0 in HM. injection HM as <- <-. split; [reflexivity | exact Htx].
  - left. injection Htick as <-.
    cbn [add_levies Pending] in Hzero.
    assert (Hnil : Pending (bc zs) ++ levies = []).
    { destruct (Pending (bc zs) ++ levies); [reflexivity | cbn in Hzero; lia]. }
    split; [exact Hnil |]. rewrite Hbc.
    apply app_eq_nil in Hnil as [_ ->]. unfold add_levies. rewrite app_nil_r.
    by destruct (bc zs).
Qed.

Lemma add_levies_inj (levies1 levies2 : list Transaction.t) (bc : Blockchain) :
  add_levies levies1 bc = add_levies levies2 bc -> levies1 = levies2.
Proof.
  unfold add_levies. intros [= H]. by apply app_inv_head in H.
Qed.

(** X15.  What a tick of [ProcessMonthlyZakat] levies.  When it returns,
    the levies it added are justified on the ledger it started from: the
    sender of each is a wallet of the store that is not a system wallet,
    was not levied within the interval and holds at least the threshold;
    the amount is the levy of its balance before the tick and is not 0;
    no wallet is levied twice; the time of the tick is recorded for the
    wallets levied and for no other.  The levies are sealed, after the
    transactions that were pending, in one block mined for ZAKAT_POOL. *)
Theorem ProcessMonthlyZakat_levies (rt : Go.Runtime) (now : Z) (envs : nat -> Env)
    (mineNow : Z) (zs zs' : ZakatService) :
  Go.lawful rt ->
  ProcessMonthlyZakat rt now envs mineNow zs = Ok zs' ->
  exists levies,
    NoDup (map Transaction.SenderID levies) /\
    (forall tx, tx ∈ levies ->
       justified now zs tx /\
       (exists key w, ws zs !! key = Some w /\ wallet.WalletID w = Transaction.SenderID tx) /\
       lastProcessed zs' !! Transaction.SenderID tx = Some now) /\
    (forall id, id ∉ map Transaction.SenderID levies ->
       lastProcessed zs' !! id = lastProcessed zs !! id) /\
    ws zs' = ws zs /\ nisabThreshold zs' = nisabThreshold zs /\
    ((Pending (bc zs) ++ levies = [] /\ bc zs' = bc zs) \/
     (Pending (bc zs) ++ levies <> [] /\
      exists b,
        Mine 0 "ZAKAT_POOL" mineNow (add_levies levies (bc zs)) = Ok (b, bc zs') /\
        Chain (bc zs') = Chain (bc zs) ++ [b] /\
        Block.Transactions b =
          coinbaseTx (Z.of_nat (length (Chain (bc zs)))) mineNow "ZAKAT_POOL" ::
          Pending (bc zs) ++ levies)).
Proof.
  intros Hrt Htick.
  destruct (ProcessMonthlyZakat_Ok _ _ _ _ _ _ Htick)
    as (zs1 & levies & Hloop & Hbc & Hl & Hws & Hth & Hseal).
  destruct (process_wallets_levies _ _ _ _ _ _ Hloop)
    as (levies' & Hbc' & _ & _ & Hnd & Hlev & Hlast).
  rewrite Hbc in Hbc'. apply add_levies_inj in Hbc' as <-.
  exists levies. rewrite Hl.
  split; [exact Hnd |]. split.
  { intros tx Htx. destruct (Hlev tx Htx) as (H1 & (w & Hin & Hid) & H3).
    split; [exact H1 |]. split; [| exact H3].
    apply list_elem_of_fmap in Hin as ([key w'] & -> & Hin).
    rewrite (Go.range_Permutation rt Hrt) in Hin.
    apply elem_of_map_to_list in Hin. exists key, w'. by split. }
  split; [exact Hlast |]. split; [exact Hws |]. split; [exact Hth | exact Hseal].
Qed.

Lemma ProcessMonthlyZakat_levies_witness :
  exists zs' levies,
    ProcessMonthlyZakat Go.runtime0 0 (fun _ => env0) 1 (easy_service 1000) = Ok zs' /\
    NoDup (map Transaction.SenderID levies) /\
    (forall tx, tx ∈ levies -> justified 0 (easy_service 1000) tx).
Proof.
  assert (H : exists zs',
            ProcessMonthlyZakat Go.runtime0 0 (fun _ => env0) 1 (easy_service 1000) = Ok zs')
    by (eexists; vm_compute; reflexivity).
  destruct H as [zs' H]. exists zs'.
  destruct (ProcessMonthlyZakat_levies Go.runtime0 0 (fun _ => env0) 1
              (easy_service 1000) zs' runtime0_lawful H)
    as (levies & Hnd & Hlev & _).
  exists levies. split; [exact H |]. split; [exact Hnd |].
  intros tx Htx. apply (Hlev tx Htx).
Defined.

Lemma process_wallet_long (now : Z) (env : Env) (w : wallet.Wallet) (zs : ZakatService) :
  (16 <= String.length (wallet.WalletID w))%nat ->
  exists zs', process_wallet now env w zs = Ok zs'.
Proof.
  intros Hlen. unfold process_wallet. set (id := wallet.WalletID w) in *.
  destruct (String.eqb id "ZAKAT_POOL" || String.eqb id "COINBASE"); [eauto |].
  destruct (match lastProcessed zs !! id with Some _ => _ | None => _ end); [eauto |].
  destruct (GetBalance id (bc zs) <? nisabThreshold zs);
    [rewrite logged_long by exact Hlen; eauto |].
  destruct (zakat_of (GetBalance id (bc zs)) =? 0); [eauto |].
  destruct (CreateZakatTransaction env (bc zs) id _) as [tx | e |] eqn:Htx.
  - rewrite logged_long by exact Hlen. eauto.
  - rewrite logged_long by exact Hlen. eauto.
  - by apply CreateZakatTransaction_not_Panic in Htx.
Qed.

Lemma process_wallets_long (now : Z) (envs : nat -> Env) (i : nat)
    (wallets : list wallet.Wallet) (zs : ZakatService) :
  (forall w, w ∈ wallets -> (16 <= String.length (wallet.WalletID w))%nat) ->
  exists zs', process_wallets now envs i wallets zs = Ok zs'.
Proof.
  revert i zs. induction wallets as [| w wallets IH]; intros i zs Hlen;
    cbn [process_wallets]; [eauto |].
  destruct (process_wallet_long now (envs i) w zs) as [zs1 ->];
    [apply Hlen, elem_of_cons; by left |].
  cbn [mbind result_bind]. apply IH. intros w' Hw'. apply Hlen, elem_of_cons. by right.
Qed.

(** X16.  [ProcessMonthlyZakat] returns, without panic, when the chain
    has a block and every identifier in the store has at least 16 bytes,
    as the identifiers made by [WalletIDFromPub] have. *)
Theorem ProcessMonthlyZakat_returns (rt : Go.Runtime) (now : Z) (envs : nat -> Env)
    (mineNow : Z) (zs : ZakatService) :
  Go.lawful rt ->
  Chain (bc zs) <> [] ->
  (forall key w, ws zs !! key = Some w -> (16 <= String.length (wallet.WalletID w))%nat) ->
  exists zs', ProcessMonthlyZakat rt now envs mineNow zs = Ok zs'.
Proof.
  intros Hrt Hchain Hlen. unfold ProcessMonthlyZakat. cbv zeta.
  destruct (process_wallets_long now envs 0 (Go.range rt (ws zs)).*2 zs) as [zs1 Hloop].
  { intros w Hw. apply list_elem_of_fmap in Hw as ([key w'] & -> & Hin).
    rewrite (Go.range_Permutation rt Hrt) in Hin. apply elem_of_map_to_list in Hin.
    by apply (Hlen key). }
  rewrite Hloop. cbn [mbind result_bind].
  destruct (0 <? length (GetPending (bc zs1)))%nat; [| eauto].
  destruct (process_wallets_levies _ _ _ _ _ _ Hloop) as (levies & Hbc & _).
  destruct (Mine_spec 0 "ZAKAT_POOL" mineNow (bc zs1)) as (b & -> & _).
  { rewrite Hbc. exact Hchain. }
  cbn [mbind result_bind]. eauto.
Qed.

Lemma ProcessMonthlyZakat_returns_witness :
  exists zs', ProcessMonthlyZakat Go.runtime0 0 (fun _ => env0) 1 (easy_service 1000) = Ok zs'.
Proof.
  apply (ProcessMonthlyZakat_returns Go.runtime0 0 (fun _ => env0) 1 (easy_service 1000)).
  - apply runtime0_lawful.
  - discriminate.
  - intros key w Hw. unfold easy_service, NewZakatService, wallet.Save in Hw.
    cbn [ws wallet.WalletID] in Hw.
    apply lookup_insert_Some in Hw as [[_ <-] | [_ Hw]]; [cbn; lia |].
    exfalso. revert Hw. unfold wallet.NewStore.
    exact (lookup_empty_Some (M := gmap string) key w).
Defined.

Lemma process_wallets_Panic (now : Z) (envs : nat -> Env) (i : nat)
    (wallets : list wallet.Wallet) (zs : ZakatService) (w : wallet.Wallet) :
  w ∈ wallets ->
  wallet.WalletID w <> "ZAKAT_POOL" -> wallet.WalletID w <> "COINBASE" ->
  lastProcessed zs !! wallet.WalletID w = None ->
  GetBalance (wallet.WalletID w) (bc zs) < nisabThreshold zs ->
  (String.length (wallet.WalletID w) < 16)%nat ->
  process_wallets now envs i wallets zs = Panic.
Proof.
  intros Hin Hz Hc Hrec Hlt Hlen. revert i zs Hrec Hlt.
  induction wallets as [| w0 wallets IH]; intros i zs Hrec Hlt;
    [by apply elem_of_nil in Hin |].
  cbn [process_wallets].
  destruct (process_wallet now (envs i) w0 zs) as [zs1 | e |] eqn:Hw0;
    cbn [mbind result_bind]; [| | reflexivity].
  - apply elem_of_cons in Hin as [<- | Hin].
    + exfalso. unfold process_wallet in Hw0.
      apply String.eqb_neq in Hz, Hc. rewrite Hz, Hc, Hrec in Hw0. cbn [orb] in Hw0.
      destruct (Z.ltb_spec (GetBalance (wallet.WalletID w) (bc zs)) (nisabThreshold zs));
        [| lia].
      unfold logged, Go.slice_to in Hw0.
      destruct (Nat.leb_spec 16 (String.length (wallet.WalletID w))); [lia | discriminate].
    + destruct (process_wallet_levy _ _ _ _ _ Hw0) as [-> | (tx & -> & Hsender & Hj)].
      * by apply IH.
      * apply IH; [exact Hin | |].
        -- cbn [lastProcessed]. rewrite lookup_insert_ne; [exact Hrec |].
           intros Heq. destruct Hj as (_ & Hge & _).
           rewrite Hsender, Heq in Hge. lia.
        -- cbn [bc nisabThreshold].
           by rewrite (GetBalance_UTXOs _ (AddPending tx (bc zs)) (bc zs)).
  - exfalso. unfold process_wallet in Hw0.
    destruct (_ || _); [discriminate |].
    destruct (match lastProcessed zs !! _ with Some _ => _ | None => _ end); [discriminate |].
    destruct (_ <? _).
    { destruct (logged_cases (wallet.WalletID w0) zs) as [H | H]; rewrite H in Hw0;
        discriminate. }
    destruct (_ =? _); [discriminate |].
    destruct (CreateZakatTransaction _ _ _ _) as [tx | e' |]; [| | discriminate].
    + destruct (logged_cases (wallet.WalletID w0)
                  (mkZakatService (AddPending tx (bc zs)) (ws zs)
                     (<[wallet.WalletID w0 := now]> (lastProcessed zs)) (nisabThreshold zs)))
        as [H | H]; rewrite H in Hw0; discriminate.
    + destruct (logged_cases (wallet.WalletID w0) zs) as [H | H]; rewrite H in Hw0;
        discriminate.
Qed.

(** X17.  [ProcessMonthlyZakat] panics when the store holds a wallet
    that is below the threshold, was never levied, is not a system wallet
    and has an identifier shorter than 16 bytes: the log line of the
    threshold slices the identifier at 16.  Nothing is levied or mined
    in that tick. *)
Theorem ProcessMonthlyZakat_short_id_panics (rt : Go.Runtime) (now : Z)
    (envs : nat -> Env) (mineNow : Z) (zs : ZakatService) (key : string)
    (w : wallet.Wallet) :
  Go.lawful rt ->
  ws zs !! key = Some w ->
  wallet.WalletID w <> "ZAKAT_POOL" -> wallet.WalletID w <> "COINBASE" ->
  lastProcessed zs !! wallet.WalletID w = None ->
  GetBalance (wallet.WalletID w) (bc zs) < nisabThreshold zs ->
  (String.length (wallet.WalletID w) < 16)%nat ->
  ProcessMonthlyZakat rt now envs mineNow zs = Panic.
Proof.
  intros Hrt Hw Hz Hc Hrec Hlt Hlen. unfold ProcessMonthlyZakat. cbv zeta.
  rewrite (process_wallets_Panic now envs 0 _ zs w); try done.
  apply list_elem_of_fmap. exists (key, w). split; [reflexivity |].
  rewrite (Go.range_Permutation rt Hrt). by apply elem_of_map_to_list.
Qed.

Lemma ProcessMonthlyZakat_short_id_panics_witness :
  ProcessMonthlyZakat Go.runtime0 0 (fun _ => env0) 1 short_service = Panic.
Proof.
  apply (ProcessMonthlyZakat_short_id_panics Go.runtime0 0 (fun _ => env0) 1
           short_service "alice" (wallet.Build_Wallet "alice" "" "" "" "" "")).
  - apply runtime0_lawful.
  - reflexivity.
  - discriminate.
  - discriminate.
  - reflexivity.
  - vm_compute. reflexivity.
  - cbn. lia.
Defined.

Lemma holds_funds_balance (id : string) (bc : Blockchain) :
  holds_funds id bc ->
  GetBalance id bc = total_of (unspent_of id bc) /\
  40 <= GetBalance id bc < 2 ^ 52 /\
  zakat_of (GetBalance id bc) = GetBalance id bc / 40 /\
  0 < GetBalance id bc / 40 <= GetBalance id bc.
Proof.
  intros [Hpos Hrange].
  assert (Hb : GetBalance id bc = total_of (unspent_of id bc)).
  { rewrite GetBalance_unspent. apply uint64_small. lia. }
  split; [exact Hb |]. rewrite Hb. split; [exact Hrange |].
  split; [apply zakat_of_floor; lia |].
  split.
  - apply Z.div_str_pos. lia.
  - apply Z.div_le_upper_bound; lia.
Qed.

Lemma CreateZakatTransaction_funded (env : Env) (bc : Blockchain) (id : string) :
  Go.lawful (runtime env) ->
  holds_funds id bc ->
  exists tx,
    CreateZakatTransaction env bc id (zakat_of (GetBalance id bc)) = Ok tx /\
    Transaction.SenderID tx = id /\
    Transaction.ReceiverID tx = "ZAKAT_POOL" /\
    Transaction.Amount tx = GetBalance id bc / 40.
Proof.
  intros Hrt Hf. destruct (holds_funds_balance id bc Hf) as (Hb & Hr & Hz & Hq).
  destruct Hf as [Hpos Hrange].
  destruct (SelectUTXOs_sufficient (runtime env) bc id (GetBalance id bc / 40) Hrt Hpos)
    as (selected & total & Hsel & _); [rewrite <- Hb; lia |].
  rewrite Hz. unfold CreateZakatTransaction. rewrite Hsel. cbn [mbind result_bind].
  eexists. split; [reflexivity |]. split; [reflexivity |]. split; reflexivity.
Qed.

Lemma process_wallet_eligible (now : Z) (env : Env) (w : wallet.Wallet) (zs : ZakatService) :
  Go.lawful (runtime env) ->
  due now zs (wallet.WalletID w) ->
  nisabThreshold zs <= GetBalance (wallet.WalletID w) (bc zs) ->
  holds_funds (wallet.WalletID w) (bc zs) ->
  exists tx,
    process_wallet now env w zs =
      logged (wallet.WalletID w)
        (mkZakatService (AddPending tx (bc zs)) (ws zs)
           (<[wallet.WalletID w := now]> (lastProcessed zs)) (nisabThreshold zs)) /\
    Transaction.SenderID tx = wallet.WalletID w.
Proof.
  intros Hrt (Hz & Hc & Hrec) Hge Hf. unfold process_wallet.
  set (id := wallet.WalletID w) in *.
  apply String.eqb_neq in Hz, Hc. rewrite Hz, Hc. cbn [orb].
  assert (Hr : match lastProcessed zs !! id with
               | Some last => within_interval now last
               | None => false
               end = false).
  { destruct (lastProcessed zs !! id) as [last |]; [by apply Hrec | reflexivity]. }
  rewrite Hr.
  destruct (Z.ltb_spec (GetBalance id (bc zs)) (nisabThreshold zs)); [lia |].
  destruct (holds_funds_balance id (bc zs) Hf) as (_ & _ & Hzk & Hq).
  destruct (Z.eqb_spec (zakat_of (GetBalance id (bc zs))) 0) as [H0 | H0]; [lia |].
  destruct (CreateZakatTransaction_funded env (bc zs) id Hrt Hf) as (tx & -> & Hs & _).
  exists tx. split; [reflexivity | exact Hs].
Qed.

Lemma process_wallets_complete (now : Z) (envs : nat -> Env) (i : nat)
    (wallets : list wallet.Wallet) (zs zs' : ZakatService) (levies : list Transaction.t)
    (w : wallet.Wallet) :
  (forall j, Go.lawful (runtime (envs j))) ->
  process_wallets now envs i wallets zs = Ok zs' ->
  bc zs' = add_levies levies (bc zs) ->
  w ∈ wallets ->
  due now zs (wallet.WalletID w) ->
  nisabThreshold zs <= GetBalance (wallet.WalletID w) (bc zs) ->
  holds_funds (wallet.WalletID w) (bc zs) ->
  exists tx, tx ∈ levies /\ Transaction.SenderID tx = wallet.WalletID w.
Proof.
  intros Hrt. revert i zs levies.
  induction wallets as [| w0 wallets IH]; intros i zs levies Hloop Hbc Hin Hdue Hge Hf;
    [by apply elem_of_nil in Hin |].
  cbn [process_wallets] in Hloop.
  destruct (process_wallet now (envs i) w0 zs) as [zs1 | e |] eqn:Hw0;
    cbn [mbind result_bind] in Hloop; try done.
  destruct (process_wallets_levies _ _ _ _ _ _ Hloop) as (levies1 & Hbc1 & _).
  assert (Hstep : forall tx0,
            zs1 = mkZakatService (AddPending tx0 (bc zs)) (ws zs)
                    (<[wallet.WalletID w0 := now]> (lastProcessed zs)) (nisabThreshold zs) ->
            levies = tx0 :: levies1).
  { intros tx0 ->. cbn [bc] in Hbc1. rewrite Hbc1 in Hbc.
    unfold add_levies, AddPending in Hbc. cbn [Chain Pending UTXOs DifficultyPref] in Hbc.
    injection Hbc as Hbc. rewrite <- app_assoc in Hbc. by apply app_inv_head in Hbc. }
  apply elem_of_cons in Hin as [<- | Hin].
  - destruct (process_wallet_eligible now (envs i) w zs (Hrt i) Hdue Hge Hf)
      as (tx & Hpw & Hs).
    rewrite Hpw in Hw0. apply logged_Ok in Hw0.
    exists tx. split; [| exact Hs]. rewrite (Hstep tx Hw0). apply elem_of_cons. by left.
  - destruct (process_wallet_levy _ _ _ _ _ Hw0) as [-> | (tx0 & Hzs1 & Hsender & Hj)].
    + apply (IH _ _ _ Hloop Hbc Hin Hdue Hge Hf).
    + rewrite (Hstep tx0 Hzs1).
      destruct (decide (wallet.WalletID w0 = wallet.WalletID w)) as [Heq | Hne].
      * exists tx0. split; [apply elem_of_cons; by left | congruence].
      * subst zs1. cbn [bc] in *.
        destruct (IH _ _ levies1 Hloop Hbc1 Hin) as (tx & Htx & Hs).
        -- destruct Hdue as (Hz & Hc & Hrec). split; [exact Hz |]. split; [exact Hc |].
           intros last Hlast. cbn [lastProcessed] in Hlast.
           rewrite lookup_insert_ne in Hlast by exact Hne. by apply Hrec.
        -- cbn [nisabThreshold bc].
           by rewrite (GetBalance_UTXOs _ (AddPending tx0 (bc zs)) (bc zs)).
        -- unfold holds_funds. cbn [bc].
           by rewrite (unspent_of_UTXOs _ (AddPending tx0 (bc zs)) (bc zs)).
        -- exists tx. split; [apply elem_of_cons; by right | exact Hs].
Qed.

(** X18.  A tick of [ProcessMonthlyZakat] that returns levies every
    wallet that is due.  A wallet of the store that is not a system
    wallet, was not levied within the interval, and holds at least the
    threshold, between 40 and 2^52, is levied one fortieth of its balance,
    rounded down: the block that the tick seals holds a levy from it of
    that amount to ZAKAT_POOL, and the time of the tick is recorded for
    it. *)
Theorem ProcessMonthlyZakat_levies_due (rt : Go.Runtime) (now : Z) (envs : nat -> Env)
    (mineNow : Z) (zs zs' : ZakatService) (key : string) (w : wallet.Wallet) :
  Go.lawful rt ->
  (forall j, Go.lawful (runtime (envs j))) ->
  ws zs !! key = Some w ->
  due now zs (wallet.WalletID w) ->
  nisabThreshold zs <= GetBalance (wallet.WalletID w) (bc zs) ->
  holds_funds (wallet.WalletID w) (bc zs) ->
  ProcessMonthlyZakat rt now envs mineNow zs = Ok zs' ->
  exists b tx,
    last (Chain (bc zs')) = Some b /\
    tx ∈ Block.Transactions b /\
    Transaction.SenderID tx = wallet.WalletID w /\
    Transaction.ReceiverID tx = "ZAKAT_POOL" /\
    Transaction.Amount tx = GetBalance (wallet.WalletID w) (bc zs) / 40 /\
    lastProcessed zs' !! wallet.WalletID w = Some now.
Proof.
  intros Hrt Henvs Hw Hdue Hge Hf Htick.
  destruct (ProcessMonthlyZakat_Ok _ _ _ _ _ _ Htick)
    as (zs1 & levies & Hloop & Hbc & Hl & _ & _ & Hseal).
  destruct (process_wallets_levies _ _ _ _ _ _ Hloop)
    as (levies' & Hbc' & _ & _ & _ & Hlev & _).
  rewrite Hbc in Hbc'. apply add_levies_inj in Hbc' as <-.
  destruct (process_wallets_complete now envs 0 _ zs zs1 levies w Henvs Hloop Hbc)
    as (tx & Htx & Hs); try done.
  { apply list_elem_of_fmap. exists (key, w). split; [reflexivity |].
    rewrite (Go.range_Permutation rt Hrt). by apply elem_of_map_to_list. }
  destruct (Hlev tx Htx) as ((_ & _ & Ham & _ & Hrcv & _) & _ & Hlast).
  destruct Hseal as [[Hnil _] | [_ (b & _ & Hchain & Hb)]].
  { apply app_eq_nil in Hnil as [_ ->]. by apply elem_of_nil in Htx. }
  exists b, tx. split; [rewrite Hchain; apply last_snoc |].
  split.
  { rewrite Hb. apply elem_of_cons. right. apply elem_of_app. by right. }
  split; [exact Hs |]. split; [exact Hrcv |].
  destruct (holds_funds_balance _ _ Hf) as (_ & _ & Hz & _).
  split; [rewrite Ham, Hs; exact Hz |].
  rewrite Hl, <- Hs. exact Hlast.
Qed.

Lemma ProcessMonthlyZakat_levies_due_witness :
  exists zs' b tx,
    ProcessMonthlyZakat Go.runtime0 0 (fun _ => env0) 1 (easy_service 1000) = Ok zs' /\
    last (Chain (bc zs')) = Some b /\
    tx ∈ Block.Transactions b /\
    Transaction.SenderID tx = wallet40 /\
    Transaction.Amount tx = GetBalance wallet40 (bc (easy_service 1000)) / 40.
Proof.
  assert (H : exists zs',
            ProcessMonthlyZakat Go.runtime0 0 (fun _ => env0) 1 (easy_service 1000) = Ok zs')
    by (eexists; vm_compute; reflexivity).
  destruct H as [zs' H]. exists zs'.
  destruct (ProcessMonthlyZakat_levies_due Go.runtime0 0 (fun _ => env0) 1
              (easy_service 1000) zs' wallet40 (wallet.Build_Wallet wallet40 "" "" "" "" "")
              runtime0_lawful (fun _ => runtime0_lawful))
    as (b & tx & H1 & H2 & H3 & _ & H4 & _).
  - reflexivity.
  - split; [discriminate |]. split; [discriminate |]. intros last Hlast. discriminate.
  - vm_compute. discriminate.
  - split.
    + intros u Hu. vm_compute in Hu. apply list_elem_of_singleton in Hu as ->. cbn. lia.
    + vm_compute. split; [discriminate | reflexivity].
  - exact H.
  - exists b, tx. split; [exact H |]. split; [exact H1 |]. split; [exact H2 |].
    split; [exact H3 | exact H4].
Defined.

(** * The service without threshold (services/zakat_service.go) *)

Lemma v1_process_wallets_pool (envs : nat -> Env) (i : nat)
    (wallets : list wallet.Wallet) (bc : Blockchain) :
  exists levies, zakat_service.process_wallets envs i wallets bc = add_levies levies bc.
Proof.
  revert i bc. induction wallets as [| w wallets IH]; intros i bc;
    cbn [zakat_service.process_wallets].
  - exists []. unfold add_levies. rewrite app_nil_r. by destruct bc.
  - destruct (IH (S i) (zakat_service.process_wallet (envs i) w bc)) as [levies ->].
    unfold zakat_service.process_wallet.
    destruct (String.eqb _ _); [by exists levies |].
    destruct (_ =? 0); [by exists levies |].
    destruct (_ =? 0); [by exists levies |].
    destruct (CreateZakatTransaction _ _ _ _) as [tx | e |]; try by exists levies.
    exists (tx :: levies). unfold add_levies, AddPending.
    cbn [Chain Pending UTXOs DifficultyPref]. by rewrite <- app_assoc.
Qed.

(** X19.  The service of services/zakat_service.go has no threshold and
    no interval.  Every wallet but ZAKAT_POOL that holds between 40 and
    2^52 is levied one fortieth of its balance, rounded down, in every
    tick, whatever it holds below 500 and whenever it was levied last;
    and a tick returns, without panic, on every ledger with a block. *)
Theorem zakat_service_levies_every_tick (env : Env) (w : wallet.Wallet) (bc : Blockchain) :
  wallet.WalletID w <> "ZAKAT_POOL" ->
  Go.lawful (runtime env) ->
  holds_funds (wallet.WalletID w) bc ->
  (exists tx,
     zakat_service.process_wallet env w bc = AddPending tx bc /\
     Transaction.SenderID tx = wallet.WalletID w /\
     Transaction.ReceiverID tx = "ZAKAT_POOL" /\
     Transaction.Amount tx = GetBalance (wallet.WalletID w) bc / 40 /\
     forall env', Go.lawful (runtime env') ->
       exists tx',
         zakat_service.process_wallet env' w (AddPending tx bc) =
           AddPending tx' (AddPending tx bc) /\
         Transaction.Amount tx' = Transaction.Amount tx) /\
  (forall rt envs mineNow ws, Chain bc <> [] ->
     exists bc', zakat_service.ProcessMonthlyZakat rt envs mineNow ws bc = Ok bc').
Proof.
  intros Hz Hrt Hf. split.
  - assert (Hstep : forall env0 bc0,
              Go.lawful (runtime env0) -> UTXOs bc0 = UTXOs bc ->
              exists tx,
                zakat_service.process_wallet env0 w bc0 = AddPending tx bc0 /\
                Transaction.SenderID tx = wallet.WalletID w /\
                Transaction.ReceiverID tx = "ZAKAT_POOL" /\
                Transaction.Amount tx = GetBalance (wallet.WalletID w) bc / 40).
    { intros env0 bc0 Hrt0 Hsame.
      assert (Hf0 : holds_funds (wallet.WalletID w) bc0).
      { unfold holds_funds. by rewrite (unspent_of_UTXOs _ bc0 bc). }
      destruct (holds_funds_balance _ _ Hf0) as (_ & Hr & Hzk & Hq).
      unfold zakat_service.process_wallet.
      apply String.eqb_neq in Hz. rewrite Hz.
      destruct (Z.eqb_spec (GetBalance (wallet.WalletID w) bc0) 0) as [H0 | H0]; [lia |].
      fold (zakat_of (GetBalance (wallet.WalletID w) bc0)).
      destruct (Z.eqb_spec (zakat_of (GetBalance (wallet.WalletID w) bc0)) 0) as [H1 | H1];
        [lia |].
      destruct (CreateZakatTransaction_funded env0 bc0 _ Hrt0 Hf0) as (tx & -> & H2 & H3 & H4).
      exists tx. split; [reflexivity |]. split; [exact H2 |]. split; [exact H3 |].
      by rewrite H4, (GetBalance_UTXOs _ bc0 bc). }
    destruct (Hstep env bc Hrt eq_refl) as (tx & H1 & H2 & H3 & H4).
    exists tx. split; [exact H1 |]. split; [exact H2 |]. split; [exact H3 |].
    split; [exact H4 |].
    intros env' Hrt'. destruct (Hstep env' (AddPending tx bc) Hrt' eq_refl)
      as (tx' & H1' & _ & _ & H4').
    exists tx'. split; [exact H1' | congruence].
  - intros rt envs mineNow ws Hchain. unfold zakat_service.ProcessMonthlyZakat. cbv zeta.
    destruct (v1_process_wallets_pool envs 0 (Go.range rt ws).*2 bc) as [levies ->].
    destruct (0 <? length (GetPending (add_levies levies bc)))%nat; [| eauto].
    destruct (Mine_spec 0 "ZAKAT_POOL" mineNow (add_levies levies bc) Hchain) as (b & -> & _).
    cbn [mbind result_bind]. eauto.
Qed.

Lemma zakat_service_levies_every_tick_witness :
  exists tx,
    zakat_service.process_wallet env0 (wallet.Build_Wallet wallet40 "" "" "" "" "")
      (holding 400) = AddPending tx (holding 400) /\
    Transaction.Amount tx = GetBalance wallet40 (holding 400) / 40.
Proof.
  destruct (zakat_service_levies_every_tick env0
              (wallet.Build_Wallet wallet40 "" "" "" "" "") (holding 400))
    as [(tx & H1 & _ & _ & H2 & _) _].
  - discriminate.
  - apply runtime0_lawful.
  - split.
    + intros u Hu. vm_compute in Hu. apply list_elem_of_singleton in Hu as ->. cbn. lia.
    + vm_compute. split; [discriminate | reflexivity].
  - exists tx. split; [exact H1 | exact H2].
Defined.

(** * Balances across a sealed block *)

Lemma counts_spent (walletID : string) (u : UTXO.t) :
  counts walletID (Some (UTXO.with_Spent true u)) = 0.
Proof.
  unfold counts, owned. destruct u. cbn. by rewrite andb_false_r.
Qed.

Lemma worth_spend_all (walletID : string) (inputs : list UTXORef.t)
    (m : gmap string UTXO.t) :
  NoDup (map key_of inputs) ->
  worth walletID (fold_left spend inputs m) =
  worth walletID m -
  foldr Z.add 0 (map (fun input => counts walletID (m !! key_of input)) inputs).
Proof.
  revert m. induction inputs as [| input inputs IH]; intros m Hnd; [cbn; lia |].
  cbn [map] in Hnd. apply NoDup_cons in Hnd as [Hnotin Hnd].
  cbn [fold_left map foldr]. rewrite (IH _ Hnd).
  assert (Hsame : map (fun input0 => counts walletID (spend m input !! key_of input0)) inputs =
                  map (fun input0 => counts walletID (m !! key_of input0)) inputs).
  { apply map_ext_in. intros input0 Hin. rewrite spend_lookup.
    destruct (decide (key_of input0 = key_of input)) as [Heq | Hne]; [| reflexivity].
    exfalso. apply Hnotin. rewrite <- Heq. apply list_elem_of_fmap.
    exists input0. split; [reflexivity | by apply list_elem_of_In]. }
  rewrite Hsame.
  assert (Hone : worth walletID (spend m input) =
                 worth walletID m - counts walletID (m !! key_of input)).
  { unfold spend. fold (key_of input).
    destruct (m !! key_of input) as [ut |] eqn:Hut.
    - rewrite worth_insert, Hut, counts_spent. lia.
    - cbn. lia. }
  rewrite Hone. lia.
Qed.

Lemma append_inj_l (s a b : string) : s +:+ a = s +:+ b -> a = b.
Proof.
  induction s as [| c s IH]; [done |].
  rewrite !append_cons. intros [= H]. by apply IH.
Qed.

Lemma utxoKey_0_1 (txid : string) : utxoKey txid 0 <> utxoKey txid (0 + 1).
Proof.
  unfold utxoKey. intros H. apply append_inj_l in H. discriminate.
Qed.

Lemma counts_fresh_output (walletID id owner origin : string) (amount index : Z) :
  counts walletID (Some (UTXO.with_ID id (UTXO.mk "" owner amount origin index false))) =
  share walletID owner amount.
Proof.
  unfold counts, owned, share. cbn. rewrite andb_true_r, (String.eqb_sym owner walletID).
  reflexivity.
Qed.

(** X20.  The reward of an empty block: when no transaction is pending
    and the key of the reward is not in the map, [Mine] raises the balance
    of the miner by 50, in [uint64], and leaves every other balance as it
    was. *)
Theorem Mine_reward (nonceStart : Z) (minerWalletID : string) (now : Z)
    (bc : Blockchain) :
  Chain bc <> [] ->
  Pending bc = [] ->
  UTXOs bc !! utxoKey (coinbaseID (Z.of_nat (length (Chain bc))) now) 0 = None ->
  exists b bc',
    Mine nonceStart minerWalletID now bc = Ok (b, bc') /\
    forall walletID,
      GetBalance walletID bc' =
      Go.uint64 (GetBalance walletID bc + share walletID minerWalletID 50).
Proof.
  intros Hchain Hpool Hfresh.
  destruct (Mine_spec nonceStart minerWalletID now bc Hchain)
    as (b & HM & _ & _ & Htx & _).
  exists b. eexists. split; [exact HM |].
  intros walletID. rewrite !GetBalance_worth. cbn [UTXOs].
  rewrite Htx, Hpool. unfold commit, commit_tx. cbn [fold_left coinbaseTx
    Transaction.Inputs Transaction.Outputs Transaction.ID store].
  rewrite worth_insert_fresh by exact Hfresh.
  rewrite counts_fresh_output. unfold MiningReward.
  rewrite uint64_add_l. reflexivity.
Qed.

Lemma Mine_reward_witness :
  exists b bc',
    Mine 0 "miner" 1 (NewBlockchain 0) = Ok (b, bc') /\
    forall walletID,
      GetBalance walletID bc' =
      Go.uint64 (GetBalance walletID (NewBlockchain 0) + share walletID "miner" 50).
Proof.
  apply (Mine_reward 0 "miner" 1 (NewBlockchain 0)).
  - discriminate.
  - reflexivity.
  - reflexivity.
Defined.

Lemma NoDup_map_filter {A B : Type} (key : A -> B) (keep : A -> bool) (l : list A) :
  NoDup (map key l) -> NoDup (map key (List.filter keep l)).
Proof.
  induction l as [| x l IH]; intros Hnd; [constructor |].
  cbn [map] in Hnd. apply NoDup_cons in Hnd as [Hx Hnd].
  cbn [List.filter]. destruct (keep x); [| by apply IH].
  cbn [map]. apply NoDup_cons. split; [| by apply IH].
  intros Hin. apply Hx. apply list_elem_of_fmap in Hin as (y & -> & Hy).
  apply list_elem_of_fmap. exists y. split; [reflexivity |].
  apply list_elem_of_In. apply list_elem_of_In, filter_In in Hy as [Hy _]. exact Hy.
Qed.

Lemma keys_of_values {A : Type} (kf : A -> string) (l : list (string * A)) :
  (forall k u, (k, u) ∈ l -> kf u = k) -> map kf l.*2 = l.*1.
Proof.
  induction l as [| [k u] l IH]; intros H; [reflexivity |].
  cbn [fmap list_fmap map fst snd]. f_equal.
  - apply H. apply elem_of_cons. by left.
  - apply IH. intros k' u' Hin. apply H. apply elem_of_cons. by right.
Qed.

Lemma well_keyed_NoDup (m : gmap string UTXO.t) :
  well_keyed m ->
  NoDup (map (fun u => utxoKey (UTXO.OriginTx u) (UTXO.Index u)) (map_to_list m).*2).
Proof.
  intros Hwk. rewrite keys_of_values.
  - apply NoDup_fst_map_to_list.
  - intros k u Hin. apply elem_of_map_to_list in Hin. symmetry. by apply Hwk.
Qed.

Lemma selected_NoDup (rt : Go.Runtime) (bc : Blockchain) (walletID : string)
    (amount : Z) (selected : list UTXO.t) (total : Z) :
  Go.lawful rt ->
  well_keyed (UTXOs bc) ->
  SelectUTXOs rt bc walletID amount = Ok (selected, total) ->
  NoDup (map key_of (inputs_of selected)).
Proof.
  intros Hrt Hwk Hsel.
  destruct (SelectUTXOs_spec rt bc walletID amount) as (sel & rest & Hav & _ & _ & Hres).
  rewrite Hsel in Hres.
  destruct (running_total 0 sel <? amount); [discriminate |]. injection Hres as <- _.
  destruct (available_spec rt bc walletID Hrt) as [Hp _].
  pose proof (NoDup_map_filter (fun u => utxoKey (UTXO.OriginTx u) (UTXO.Index u))
                (owned walletID) _ (well_keyed_NoDup _ Hwk)) as Hnd.
  fold (unspent_of walletID bc) in Hnd.
  assert (Hperm : map (fun u => utxoKey (UTXO.OriginTx u) (UTXO.Index u))
                    (selected ++ rest) ≡ₚ
                  map (fun u => utxoKey (UTXO.OriginTx u) (UTXO.Index u))
                    (unspent_of walletID bc)).
  { rewrite <- Hav. apply (fmap_Permutation _ _ _ Hp). }
  rewrite <- Hperm, map_app in Hnd. apply NoDup_app in Hnd as [Hnd _].
  unfold inputs_of. rewrite map_map. exact Hnd.
Qed.

Lemma spent_sum (walletID senderID : string) (m : gmap string UTXO.t)
    (selected : list UTXO.t) :
  (forall u, u ∈ selected ->
     m !! utxoKey (UTXO.OriginTx u) (UTXO.Index u) = Some u /\
     UTXO.Owner u = senderID /\ UTXO.Spent u = false) ->
  foldr Z.add 0 (map (fun input => counts walletID (m !! key_of input)) (inputs_of selected)) =
  share walletID senderID (total_of selected).
Proof.
  unfold share, total_of. induction selected as [| u selected IH]; intros H.
  - cbn. by destruct (String.eqb walletID senderID).
  - cbn [inputs_of map foldr]. fold (inputs_of selected). rewrite IH.
    2:{ intros u' Hu'. apply H. apply elem_of_cons. by right. }
    destruct (H u) as (Hm & Ho & Hs); [apply elem_of_cons; by left |].
    unfold key_of. cbn [UTXORef.TxID UTXORef.Index]. rewrite Hm.
    unfold counts, owned. rewrite Ho, Hs, (String.eqb_sym senderID walletID).
    cbn [negb]. rewrite andb_true_r.
    destruct (String.eqb walletID senderID); lia.
Qed.

Lemma tx_key_not_coinbase (a b : string) (i j : Z) :
  utxoKey ("tx-" +:+ a) i <> utxoKey ("coinbase-" +:+ b) j.
Proof.
  unfold utxoKey. intros H.
  change ("tx-" +:+ a) with (String "t" (String "x" (String "-" a))) in H.
  change ("coinbase-" +:+ b) with (String "c" ("oinbase-" +:+ b)) in H.
  rewrite !append_cons in H. discriminate.
Qed.

(** X21.  A transfer, sealed.  When a transfer made by
    [CreateTransaction] on a ledger whose outputs are stored under their
    own keys is the only pending transaction, and the keys of its outputs
    and of the reward are not in the map, the block that [Mine] seals
    moves the amount: every balance afterwards is the balance before,
    less the amount for the sender, plus the amount for the receiver,
    plus 50 for the miner, in [uint64]. *)
Theorem transfer_sealed {ext : External} (env : Env) (bc : Blockchain)
    (ws : wallet.Store) (senderID receiverID : string) (amount : Z)
    (note pubKey privKey : string) (tx : Transaction.t)
    (nonceStart : Z) (minerWalletID : string) (now : Z) (b : Block.t) (bc' : Blockchain) :
  Go.lawful (runtime env) ->
  well_keyed (UTXOs bc) ->
  0 <= amount ->
  Pending bc = [] ->
  CreateTransaction env bc ws senderID receiverID amount note pubKey privKey = Ok tx ->
  UTXOs bc !! utxoKey (Transaction.ID tx) 0 = None ->
  UTXOs bc !! utxoKey (Transaction.ID tx) 1 = None ->
  UTXOs bc !! utxoKey (coinbaseID (Z.of_nat (length (Chain bc))) now) 0 = None ->
  Mine nonceStart minerWalletID now (AddPending tx bc) = Ok (b, bc') ->
  forall walletID,
    GetBalance walletID bc' =
    Go.uint64 (GetBalance walletID bc - share walletID senderID amount
               + share walletID receiverID amount + share walletID minerWalletID 50).
Proof.
  intros Hrt Hwk Ham Hpool HC Hk0 Hk1 Hkc HM walletID.
  apply CreateTransaction_shape in HC
    as (selected & total & signature & Hsel & _ & _ & _ & ->).
  cbn [Transaction.ID] in Hk0, Hk1.
  destruct (SelectUTXOs_selected _ _ _ _ _ _ Hrt Hsel) as (Ht & Hle & Hrange & Hin).
  pose proof (selected_NoDup _ _ _ _ _ _ Hrt Hwk Hsel) as Hnd.
  assert (Hchain : Chain (AddPending (Transaction.mk ("tx-" +:+ Go.fmt_d (UnixNano env))
                     senderID receiverID amount note (Unix env) pubKey signature
                     (inputs_of selected)
                     (outputs_of ("tx-" +:+ Go.fmt_d (UnixNano env)) receiverID senderID
                        amount total) "transfer") bc) <> []).
  { intros Hnil. unfold Mine in HM. rewrite Hnil in HM. discriminate. }
  destruct (Mine_spec nonceStart minerWalletID now _ Hchain) as (b0 & HM0 & _ & _ & Htx & _).
  rewrite HM0 in HM. injection HM as <- <-.
  rewrite !GetBalance_worth. cbn [UTXOs AddPending Chain Pending] in *.
  rewrite Htx, Hpool. cbn [app].
  set (txid := "tx-" +:+ Go.fmt_d (UnixNano env)) in *.
  set (kc := utxoKey (coinbaseID (Z.of_nat (length (Chain bc))) now) 0) in *.
  set (m := UTXOs bc) in *.
  unfold commit. cbn [fold_left]. unfold commit_tx at 2.
  cbn [coinbaseTx Transaction.Inputs Transaction.Outputs Transaction.ID store fold_left].
  fold kc.
  set (m0 := <[kc := _]> m).
  unfold commit_tx. cbn [Transaction.Inputs Transaction.Outputs Transaction.ID].
  set (ms := fold_left spend (inputs_of selected) m0).
  assert (Hm0 : forall k, k <> kc -> m0 !! k = m !! k).
  { intros k Hk. unfold m0. by rewrite lookup_insert_ne. }
  assert (Hkey : forall u, u ∈ selected ->
            m0 !! utxoKey (UTXO.OriginTx u) (UTXO.Index u) = Some u /\
            UTXO.Owner u = senderID /\ UTXO.Spent u = false).
  { intros u Hu. destruct (Hin u Hu) as (Ho & Hs & key & Hk).
    split; [| by split]. rewrite <- (Hwk key u Hk). rewrite Hm0; [exact Hk |].
    intros Heq. rewrite Heq, Hkc in Hk. discriminate. }
  assert (Hms : forall k, m0 !! k = None -> ms !! k = None).
  { intros k Hk. unfold ms. rewrite spend_all_lookup, Hk.
    by destruct (decide (k ∈ map key_of (inputs_of selected))). }
  assert (Hk0c : utxoKey txid 0 <> kc) by apply tx_key_not_coinbase.
  assert (Hk1c : utxoKey txid (0 + 1) <> kc) by apply tx_key_not_coinbase.
  assert (Hms0 : ms !! utxoKey txid 0 = None).
  { apply Hms. rewrite Hm0 by exact Hk0c. exact Hk0. }
  assert (Hms1 : ms !! utxoKey txid (0 + 1) = None).
  { apply Hms. rewrite Hm0 by exact Hk1c. exact Hk1. }
  assert (Wms : worth walletID ms =
                worth walletID m + share walletID minerWalletID 50
                - share walletID senderID (total_of selected)).
  { unfold ms. rewrite (worth_spend_all _ _ _ Hnd), (spent_sum _ senderID _ _ Hkey).
    unfold m0. rewrite worth_insert_fresh by exact Hkc.
    rewrite counts_fresh_output. reflexivity. }
  assert (HT : total_of selected = total + (total_of selected / 2 ^ 64) * 2 ^ 64).
  { rewrite Ht, running_total_0. unfold Go.uint64.
    pose proof (Z.div_mod (total_of selected) (2 ^ 64) ltac:(lia)). lia. }
  assert (HW : worth walletID m =
               Go.uint64 (worth walletID m) + (worth walletID m / 2 ^ 64) * 2 ^ 64).
  { unfold Go.uint64. pose proof (Z.div_mod (worth walletID m) (2 ^ 64) ltac:(lia)). lia. }
  set (qT := total_of selected / 2 ^ 64) in *.
  set (qW := worth walletID m / 2 ^ 64) in *.
  unfold outputs_of. cbv zeta. rewrite (uint64_small (total - amount)) by lia.
  destruct (Z.ltb_spec 0 (total - amount)) as [Hc | Hc].
  - cbn [app store].
    rewrite worth_insert_fresh by (rewrite lookup_insert_ne by apply utxoKey_0_1; exact Hms1).
    rewrite worth_insert_fresh by exact Hms0.
    rewrite !counts_fresh_output, Wms.
    unfold share in *.
    destruct (String.eqb walletID senderID), (String.eqb walletID receiverID),
      (String.eqb walletID minerWalletID);
      first [apply (uint64_congr _ _ (qW - qT)); lia | apply (uint64_congr _ _ qW); lia].
  - cbn [store].
    rewrite worth_insert_fresh by exact Hms0.
    rewrite !counts_fresh_output, Wms.
    unfold share in *.
    destruct (String.eqb walletID senderID), (String.eqb walletID receiverID),
      (String.eqb walletID minerWalletID);
      first [apply (uint64_congr _ _ (qW - qT)); lia | apply (uint64_congr _ _ qW); lia].
Qed.

Lemma easy_well_keyed (amount : Z) : well_keyed (UTXOs (easy amount)).
Proof.
  intros key utxo Hu. unfold easy in Hu. cbn [UTXOs] in Hu.
  apply lookup_insert_Some in Hu as [[<- <-] | [_ Hu]]; [reflexivity |].
  rewrite lookup_empty in Hu. discriminate.
Qed.

Lemma transfer_sealed_witness :
  exists tx b bc',
    CreateTransaction (ext := external0) env0 (easy 1000) easy_wallets
      wallet40 "bob" 300 "" "" zero_key = Ok tx /\
    Mine 0 "miner" 1 (AddPending tx (easy 1000)) = Ok (b, bc') /\
    forall walletID,
      GetBalance walletID bc' =
      Go.uint64 (GetBalance walletID (easy 1000) - share walletID wallet40 300
                 + share walletID "bob" 300 + share walletID "miner" 50).
Proof.
  eexists _, _, _.
  split; [vm_compute; reflexivity |].
  split; [vm_compute; reflexivity |].
  eapply (transfer_sealed (ext := external0) env0 (easy 1000) easy_wallets
            wallet40 "bob" 300 "" "" zero_key _ 0 "miner" 1).
  - apply runtime0_lawful.
  - apply easy_well_keyed.
  - lia.
  - reflexivity.
  - vm_compute. reflexivity.
  - reflexivity.
  - reflexivity.
  - reflexivity.
  - vm_compute. reflexivity.
Defined.

(** * The encryption of the private key, and the handlers *)

Lemma substring_append_r (s1 s2 : string) :
  String.substring (String.length s1) (String.length s2) (s1 +:+ s2) = s2.
Proof.
  induction s1 as [| c s1 IH]; [apply substring_0_all |].
  rewrite append_cons. cbn [String.length String.substring]. exact IH.
Qed.

Lemma aes_NewCipher_deriveKey (passphrase : string) :
  crypto.aes_NewCipher (crypto.deriveKey passphrase) = true.
Proof.
  unfold crypto.aes_NewCipher. cbv zeta. rewrite deriveKey_length. reflexivity.
Qed.

Lemma encrypt_decrypt {cipher : crypto.Cipher} (nonce plaintext passphrase : string) :
  cipher_correct ->
  String.length nonce = crypto.NonceSize ->
  exists encrypted,
    crypto.EncryptPrivateKey nonce plaintext passphrase = inr encrypted /\
    forall other,
      crypto.deriveKey other = crypto.deriveKey passphrase ->
      crypto.DecryptPrivateKey encrypted other = inr plaintext.
Proof.
  intros [Hopen Hb64] Hnonce.
  unfold crypto.EncryptPrivateKey. cbv zeta.
  rewrite aes_NewCipher_deriveKey. cbn [negb].
  eexists. split; [reflexivity |].
  intros other Hother. unfold crypto.DecryptPrivateKey. cbv zeta.
  rewrite Hb64, Hother, aes_NewCipher_deriveKey. cbn [negb].
  set (sealed := crypto.gcm_Seal (crypto.deriveKey passphrase) nonce plaintext).
  rewrite <- Hnonce, append_length.
  replace (String.length nonce + String.length sealed - String.length nonce)%nat
    with (String.length sealed) by lia.
  destruct (Nat.ltb_spec (String.length nonce + String.length sealed)
              (String.length nonce)) as [Hlt | _]; [lia |].
  rewrite substring_0_append, substring_append_r. unfold sealed. rewrite Hopen.
  reflexivity.
Qed.

(** X22.  [EncryptPrivateKey] never fails, since the key that
    [deriveKey] makes has a size that AES accepts; what it returns, with a
    nonce of 12 bytes, is decrypted by [DecryptPrivateKey] to the text
    that was encrypted, under the same passphrase and under every
    passphrase from which [deriveKey] makes the same key, when the cipher
    opens what it seals and base64 decodes what it encodes. *)
Theorem DecryptPrivateKey_EncryptPrivateKey {cipher : crypto.Cipher}
    (nonce plaintext passphrase : string) :
  cipher_correct ->
  String.length nonce = crypto.NonceSize ->
  exists encrypted,
    crypto.EncryptPrivateKey nonce plaintext passphrase = inr encrypted /\
    crypto.DecryptPrivateKey encrypted passphrase = inr plaintext /\
    (forall other,
       crypto.deriveKey other = crypto.deriveKey passphrase ->
       crypto.DecryptPrivateKey encrypted other = inr plaintext) /\
    forall nonce' plaintext' passphrase',
      exists encrypted',
        crypto.EncryptPrivateKey nonce' plaintext' passphrase' = inr encrypted'.
Proof.
  intros Hc Hnonce.
  destruct (encrypt_decrypt nonce plaintext passphrase Hc Hnonce) as (encrypted & He & Hd).
  exists encrypted. split; [exact He |]. split; [by apply Hd |]. split; [exact Hd |].
  intros nonce' plaintext' passphrase'. unfold crypto.EncryptPrivateKey. cbv zeta.
  rewrite aes_NewCipher_deriveKey. cbn [negb]. eauto.
Qed.

Lemma DecryptPrivateKey_EncryptPrivateKey_witness :
  exists encrypted,
    crypto.EncryptPrivateKey (cipher := cipher0) "123456789012" zero_key "passphrase"
      = inr encrypted /\
    crypto.DecryptPrivateKey (cipher := cipher0) encrypted "passphrase" = inr zero_key.
Proof.
  destruct (DecryptPrivateKey_EncryptPrivateKey (cipher := cipher0)
              "123456789012" zero_key "passphrase")
    as (encrypted & H1 & H2 & _).
  - split; reflexivity.
  - reflexivity.
  - exists encrypted. split; [exact H1 | exact H2].
Defined.

(** X23.  [handleCreateWallet] registers whoever sends an email and a
    hexadecimal public key, whether or not the wallet is in the store
    already.  The answer is 200; the wallet is saved, over what the store
    held for it, under the identifier of 40 characters that
    [WalletIDFromPub] makes; the private key that is stored decrypts to
    the one that was sent; and the faucet grants 1000 to the wallet, when
    its key is not in the map, and changes no other balance. *)
Theorem handleCreateWallet_registers {cipher : crypto.Cipher}
    (getenv nonce : string) (now : Z) (req : api.CreateWalletRequest)
    (ws : wallet.Store) (bc : Blockchain) (pub : string) :
  api.Email req <> EmptyString ->
  Go.hex_DecodeString (api.Public req) = Some pub ->
  exists id encrypted,
    wallet.WalletIDFromPub (api.Public req) = Ok id /\
    String.length id = 40%nat /\
    api.handleCreateWallet getenv nonce now req ws bc =
      (200,
       <[id := wallet.Build_Wallet id (api.Public req) encrypted (api.Name req)
                 (api.Email req) (api.CNIC req)]> ws,
       (CreateFaucetUTXO id now bc).2) /\
    (cipher_correct -> String.length nonce = crypto.NonceSize ->
     keystore.DecryptPrivateKey getenv encrypted = inr (api.Private req)) /\
    (UTXOs bc !! (faucetOrigin id now +:+ ":0") = None ->
     forall walletID,
       GetBalance walletID (CreateFaucetUTXO id now bc).2 =
       Go.uint64 (GetBalance walletID bc + share walletID id 1000)).
Proof.
  intros Hemail Hpub.
  pose proof (WalletIDFromPub_id (api.Public req)) as Hid. rewrite Hpub in Hid.
  destruct Hid as (id & Hid & Hlen & _).
  unfold api.handleCreateWallet, keystore.CreateFromPub, crypto.EncryptPrivateKey.
  cbv zeta. apply String.eqb_neq in Hemail. rewrite Hemail, Hid.
  rewrite aes_NewCipher_deriveKey. cbn [negb].
  eexists id, _. split; [reflexivity |]. split; [exact Hlen |].
  split; [reflexivity |]. split.
  - intros Hc Hnonce. unfold keystore.DecryptPrivateKey.
    destruct (encrypt_decrypt nonce (api.Private req) (keystore.encryptionKey getenv)
                Hc Hnonce) as (encrypted & He & Hd).
    unfold crypto.EncryptPrivateKey in He. cbv zeta in He.
    rewrite aes_NewCipher_deriveKey in He. cbn [negb] in He. injection He as <-.
    by apply Hd.
  - intros Hfresh walletID. unfold CreateFaucetUTXO. cbn [snd].
    rewrite GetBalance_insert_fresh by exact Hfresh.
    unfold owned, share. cbn [UTXO.Owner UTXO.Spent UTXO.Amount negb FaucetAmount].
    rewrite andb_true_r, (String.eqb_sym id walletID). reflexivity.
Qed.

Lemma handleCreateWallet_registers_witness :
  exists id encrypted,
    wallet.WalletIDFromPub zero_pub = Ok id /\
    api.handleCreateWallet (cipher := cipher0) "" "123456789012" 7
      (api.Build_CreateWalletRequest zero_pub zero_key "Alice" "alice@example.org" "")
      easy_wallets (NewBlockchain 0) =
      (200,
       <[id := wallet.Build_Wallet id zero_pub encrypted "Alice" "alice@example.org" ""]>
         easy_wallets,
       (CreateFaucetUTXO id 7 (NewBlockchain 0)).2).
Proof.
  destruct (handleCreateWallet_registers (cipher := cipher0)
              "" "123456789012" 7
              (api.Build_CreateWalletRequest zero_pub zero_key "Alice" "alice@example.org" "")
              easy_wallets (NewBlockchain 0) (Go.bytes (repeat 0 32)))
    as (id & encrypted & H1 & _ & H2 & _).
  - discriminate.
  - apply hex_round_trip.
  - exists id, encrypted. split; [exact H1 | exact H2].
Defined.

(** X24.  [handleSend] changes nothing but the pool, and the pool only
    by a transaction that passed [ValidateTransaction]: when it answers
    200 the ledger after is the ledger before with one more pending
    transaction, made by [CreateTransaction] for the sender, the receiver
    and the amount of the request and accepted on the ledger before; when
    it answers anything else the ledger is as it was. *)
Theorem handleSend_adds_validated {ext : External} {cipher : crypto.Cipher}
    (getenv : string) (env : Env) (req : api.SendRequest) (ws : wallet.Store)
    (bc : Blockchain) (status : Z) (bc' : Blockchain) :
  api.handleSend getenv env req ws bc = Ok (status, bc') ->
  (status = 200 /\
   exists tx,
     bc' = AddPending tx bc /\
     ValidateTransaction bc tx = Ok tt /\
     Transaction.SenderID tx = api.SenderID req /\
     Transaction.ReceiverID tx = api.ReceiverID req /\
     Transaction.Amount tx = api.Amount req /\
     is_Some (wallet.Get (api.SenderID req) ws) /\
     is_Some (wallet.Get (api.ReceiverID req) ws)) \/
  ((status = 400 \/ status = 404) /\ bc' = bc).
Proof.
  unfold api.handleSend. cbv zeta.
  destruct (wallet.Get (api.SenderID req) ws) as [sender |] eqn:Hs.
  2:{ intros [= <- <-]. right. split; [by right | reflexivity]. }
  destruct (if (128 <? Go.len (api.PrivateKey req)) || negb (api.isHexString (api.PrivateKey req))
            then keystore.DecryptPrivateKey getenv (api.PrivateKey req)
            else inr (api.PrivateKey req)) as [f | privateKey].
  { intros [= <- <-]. right. split; [by left | reflexivity]. }
  destruct (CreateTransaction env bc ws _ _ _ _ _ _) as [tx | e |] eqn:HC.
  2:{ intros [= <- <-]. right. split; [by left | reflexivity]. }
  2:{ discriminate. }
  destruct (ValidateTransaction bc tx) as [[] | e |] eqn:HV.
  2:{ intros [= <- <-]. right. split; [by left | reflexivity]. }
  2:{ discriminate. }
  intros [= <- <-]. left. split; [reflexivity |]. exists tx.
  split; [reflexivity |]. split; [exact HV |].
  apply CreateTransaction_shape in HC
    as (selected & total & signature & _ & _ & Hr & _ & ->).
  cbn [Transaction.SenderID Transaction.ReceiverID Transaction.Amount].
  split; [reflexivity |]. split; [reflexivity |]. split; [reflexivity |].
  split; [eauto | exact Hr].
Qed.

Lemma handleSend_adds_validated_witness :
  exists tx,
    api.handleSend (ext := external0) (cipher := cipher0) "" env0
      (api.Build_SendRequest zero_wallet "bob" 4 "" zero_key) zero_wallets ten
    = Ok (200, AddPending tx ten) /\
    ValidateTransaction (ext := external0) ten tx = Ok tt.
Proof.
  assert (H : exists bc',
            api.handleSend (ext := external0) (cipher := cipher0) "" env0
              (api.Build_SendRequest zero_wallet "bob" 4 "" zero_key) zero_wallets ten
            = Ok (200, bc'))
    by (eexists; vm_compute; reflexivity).
  destruct H as [bc' H].
  destruct (handleSend_adds_validated (ext := external0) (cipher := cipher0) "" env0
              (api.Build_SendRequest zero_wallet "bob" 4 "" zero_key) zero_wallets ten
              200 bc' H) as [[_ (tx & Hbc & HV & _)] | [[Hs | Hs] _]];
    [| discriminate Hs | discriminate Hs].
  exists tx. split; [rewrite H, Hbc; reflexivity | exact HV].
Defined.

Lemma hex_key_is_used (privHex priv : string) :
  Go.hex_DecodeString privHex = Some priv ->
  Go.len priv = wallet.PrivateKeySize ->
  (128 <? Go.len privHex) || negb (api.isHexString privHex) = false.
Proof.
  intros Hd Hl.
  destruct (hex_DecodeString_Some (String.length privHex) privHex (le_n _)) as [H1 H2].
  pose proof (H2 priv Hd) as Hlen.
  unfold Go.len, wallet.PrivateKeySize in *.
  destruct (proj1 H1 (ex_intro _ priv Hd)) as [Hf He].
  unfold api.isHexString. rewrite Hf. cbn [andb].
  destruct (Z.ltb_spec 128 (Z.of_nat (String.length privHex))); [lia |].
  destruct (Nat.ltb_spec 0 (String.length privHex)); [reflexivity | lia].
Qed.

(** X25.  [handleSend] accepts a transfer that is funded and signed with
    the key of the sender.  When the sender's wallet holds the 32-byte
    public key of its identifier, the request carries the private key for
    it in hexadecimal, the receiver is in the store, the outputs of the
    ledger are stored under their own keys and those of the sender add up
    to at least the amount, the answer is 200 and the transfer is
    pending. *)
Theorem handleSend_accepts {ext : External} {cipher : crypto.Cipher}
    (getenv : string) (env : Env) (req : api.SendRequest) (ws : wallet.Store)
    (bc : Blockchain) (sender : wallet.Wallet) (pub priv : string) :
  Go.lawful (runtime env) ->
  well_keyed (UTXOs bc) ->
  wallet.Get (api.SenderID req) ws = Some sender ->
  is_Some (wallet.Get (api.ReceiverID req) ws) ->
  Go.hex_DecodeString (wallet.PublicKey sender) = Some pub ->
  Go.len pub = wallet.PublicKeySize ->
  wallet.WalletIDFromPub (wallet.PublicKey sender) = Ok (api.SenderID req) ->
  Go.hex_DecodeString (api.PrivateKey req) = Some priv ->
  Go.len priv = wallet.PrivateKeySize ->
  ed25519_correct pub priv ->
  (forall u, u ∈ unspent_of (api.SenderID req) bc -> 0 <= UTXO.Amount u) ->
  0 <= api.Amount req <= total_of (unspent_of (api.SenderID req) bc) ->
  total_of (unspent_of (api.SenderID req) bc) < 2 ^ 64 ->
  exists tx,
    api.handleSend getenv env req ws bc = Ok (200, AddPending tx bc) /\
    Transaction.SenderID tx = api.SenderID req /\
    Transaction.ReceiverID tx = api.ReceiverID req /\
    Transaction.Amount tx = api.Amount req.
Proof.
  intros Hrt Hwk Hs [receiver Hr] Hpub Hlpub Hid Hpriv Hlpriv Hed Hpos Ham Hmax.
  unfold api.handleSend. cbv zeta. rewrite Hs.
  rewrite (hex_key_is_used _ _ Hpriv Hlpriv).
  destruct (SelectUTXOs_sufficient (runtime env) bc (api.SenderID req) (api.Amount req)
              Hrt Hpos (conj (proj2 Ham) Hmax)) as (selected & total & Hsel & _).
  assert (HC : exists tx,
            CreateTransaction env bc ws (api.SenderID req) (api.ReceiverID req)
              (api.Amount req) (api.Note req) (wallet.PublicKey sender)
              (api.PrivateKey req) = Ok tx /\
            Transaction.SenderID tx = api.SenderID req /\
            Transaction.ReceiverID tx = api.ReceiverID req /\
            Transaction.Amount tx = api.Amount req).
  { unfold CreateTransaction. rewrite Hs, Hr, Hsel. cbn [mbind result_bind].
    unfold wallet.SignWithPriv. rewrite Hpriv, Hlpriv. cbn [negb Z.eqb].
    eexists. split; [reflexivity |]. split; [reflexivity |]. split; reflexivity. }
  destruct HC as (tx & HC & H1 & H2 & H3). rewrite HC.
  rewrite (created_transfer_valid env bc ws _ _ _ _ _ _ pub priv tx
             Hrt Hwk (proj1 Ham) Hpub Hlpub Hpriv Hed Hid HC).
  exists tx. split; [reflexivity |]. split; [exact H1 |]. split; [exact H2 | exact H3].
Qed.

Lemma handleSend_accepts_witness :
  exists tx,
    api.handleSend (ext := external0) (cipher := cipher0) "" env0
      (api.Build_SendRequest zero_wallet "bob" 4 "" zero_key) zero_wallets ten
    = Ok (200, AddPending tx ten) /\
    Transaction.Amount tx = 4.
Proof.
  destruct (handleSend_accepts (ext := external0) (cipher := cipher0) "" env0
              (api.Build_SendRequest zero_wallet "bob" 4 "" zero_key) zero_wallets ten
              (wallet.Build_Wallet zero_wallet zero_pub "" "" "" "")
              (Go.bytes (repeat 0 32)) (Go.bytes (repeat 0 64)))
    as (tx & H1 & _ & _ & H2).
  - apply runtime0_lawful.
  - intros key utxo Hu. unfold ten in Hu. cbn [UTXOs] in Hu.
    apply lookup_insert_Some in Hu as [[<- <-] | [_ Hu]]; [reflexivity |].
    rewrite lookup_empty in Hu. discriminate.
  - reflexivity.
  - vm_compute. eauto.
  - apply hex_round_trip.
  - reflexivity.
  - vm_compute. reflexivity.
  - apply hex_round_trip.
  - reflexivity.
  - intros msg. reflexivity.
  - intros u Hu. vm_compute in Hu. apply list_elem_of_singleton in Hu as ->. cbn. lia.
  - vm_compute. split; discriminate.
  - vm_compute. reflexivity.
  - exists tx. split; [exact H1 | exact H2].
Defined.

(** * The shape of the hashes, and the validation *)

Lemma hexdigest_digest (s : string) : digest (SHA256.hexdigest s).
Proof.
  split; [apply hexdigest_length |].
  unfold SHA256.hexdigest. apply hex_EncodeToString_digits.
Qed.

Lemma merkle_level_digest (hashes : list string) :
  Forall digest hashes -> Forall digest (merkle_level hashes).
Proof.
  revert hashes. fix IH 1. intros [| a [| b rest]] H; cbn [merkle_level].
  - constructor.
  - exact H.
  - constructor; [apply hexdigest_digest |].
    apply IH. inversion H as [| ? ? _ H']. inversion H' as [| ? ? _ H'']. exact H''.
Qed.

Lemma merkle_level_length (hashes : list string) :
  (length (merkle_level hashes) <= length hashes)%nat /\
  (hashes <> [] -> merkle_level hashes <> []) /\
  ((1 < length hashes)%nat -> (length (merkle_level hashes) < length hashes)%nat).
Proof.
  revert hashes. fix IH 1. intros [| a [| b rest]]; cbn [merkle_level length].
  - split; [lia |]. split; [done | lia].
  - split; [lia |]. split; [done | lia].
  - destruct (IH rest) as (H1 & _ & _). split; [lia |]. split; [done | lia].
Qed.

Lemma merkle_loop_step (hashes : list string) :
  merkle_loop hashes =
  if decide (1 < length hashes)%nat then merkle_loop (merkle_level hashes) else hashes.
Proof.
  rewrite merkle_loop_equation_1. simpl.
  destruct (decide (1 < length hashes)%nat); reflexivity.
Qed.

Lemma merkle_loop_digest (n : nat) (hashes : list string) :
  (length hashes <= n)%nat -> hashes <> [] -> Forall digest hashes ->
  exists h, merkle_loop hashes = [h] /\ digest h.
Proof.
  revert hashes. induction n as [| n IH]; intros hashes Hn Hne Hd.
  - destruct hashes; [done | cbn in Hn; lia].
  - pose proof (merkle_loop_step hashes) as Hu.
    destruct (decide (1 < length hashes)%nat) as [Hlt | Hge].
    + destruct (merkle_level_length hashes) as (_ & H2 & H3).
      destruct (IH (merkle_level hashes)) as (h & Hh & Hdh);
        [specialize (H3 Hlt); lia | by apply H2 | by apply merkle_level_digest |].
      exists h. split; [exact (eq_trans Hu Hh) | exact Hdh].
    + destruct hashes as [| h [| h' rest]]; [done | | cbn in Hge; lia].
      exists h. split; [exact Hu |]. by inversion Hd.
Qed.

(** X26.  The hashes have one shape.  The hash of a block is 64
    lowercase hexadecimal digits, whatever the block; so is the Merkle
    root of every list of transactions but the empty one, whose root is
    the empty string; and the hash of the block that [Mine] returns is
    never empty. *)
Theorem hashes_are_digests (txs : list Transaction.t) :
  (forall b, digest (hashBlock b)) /\
  (txs = [] -> computeMerkle txs = EmptyString) /\
  (txs <> [] -> digest (computeMerkle txs)) /\
  (forall nonceStart miner now bc b bc',
     Mine nonceStart miner now bc = Ok (b, bc') ->
     digest (Block.Hash b) /\ Block.Hash b <> EmptyString).
Proof.
  split; [| split; [| split]].
  - intros b. unfold hashBlock. apply hexdigest_digest.
  - intros ->. reflexivity.
  - intros Hne. unfold computeMerkle.
    destruct (decide (length txs = 0%nat)) as [H0 | _];
      [destruct txs; [done | discriminate] |].
    cbv zeta.
    destruct (merkle_loop_digest (length txs)
                (map (fun t => SHA256.hexdigest (Transaction.ID t)) txs))
      as (h & -> & Hh).
    + by rewrite length_map.
    + destruct txs; [done | discriminate].
    + apply Forall_forall. intros h Hh. apply list_elem_of_fmap in Hh as (t & -> & _).
      apply hexdigest_digest.
    + exact Hh.
  - intros nonceStart miner now bc b bc' HM.
    assert (Hne : Chain bc <> []).
    { intros Hnil. unfold Mine in HM. rewrite Hnil in HM. discriminate. }
    destruct (Mine_spec nonceStart miner now bc Hne) as (b0 & HM0 & _ & _ & _ & _ & _ & Hh & _).
    rewrite HM0 in HM. injection HM as <- _. rewrite Hh.
    assert (Hd : digest (hashBlock b0)) by (unfold hashBlock; apply hexdigest_digest).
    split; [exact Hd |]. intros Hempty. destruct Hd as [Hl _].
    rewrite Hempty in Hl. discriminate.
Qed.

(** X27.  When [ValidateTransaction] accepts.  It returns [nil] exactly
    when the signature verifies for the payload of the transaction, the
    identifier made from the public key is the sender, every input is in
    the map, unspent and owned by the sender, and the [uint64] total of
    the inputs is the [uint64] total of the outputs. *)
Theorem ValidateTransaction_accepts_iff {ext : External} (bc : Blockchain)
    (tx : Transaction.t) :
  ValidateTransaction bc tx = Ok tt <->
  wallet.VerifySignature (Transaction.PubKey tx)
    (wallet.MarshalPayload (Transaction.SenderID tx) (Transaction.ReceiverID tx)
       (Transaction.Amount tx) (Transaction.Timestamp tx) (Transaction.Note tx))
    (Transaction.Signature tx) = Ok true /\
  wallet.WalletIDFromPub (Transaction.PubKey tx) = Ok (Transaction.SenderID tx) /\
  (forall input, input ∈ Transaction.Inputs tx ->
     exists utxo,
       UTXOs bc !! utxoKey (UTXORef.TxID input) (UTXORef.Index input) = Some utxo /\
       UTXO.Spent utxo = false /\ UTXO.Owner utxo = Transaction.SenderID tx) /\
  Go.uint64 (foldr Z.add 0
               (map (fun input =>
                       default 0 (UTXO.Amount <$>
                         UTXOs bc !! utxoKey (UTXORef.TxID input) (UTXORef.Index input)))
                  (Transaction.Inputs tx))) =
  Go.uint64 (total_of (Transaction.Outputs tx)).
Proof.
  rewrite ValidateTransaction_Ok.
  assert (Hin : forall inputs start,
            fold_left
              (fun total input =>
                 Go.uint64 (total + default 0 (UTXO.Amount <$>
                   UTXOs bc !! utxoKey (UTXORef.TxID input) (UTXORef.Index input))))
              inputs (Go.uint64 start) =
            Go.uint64 (start + foldr Z.add 0
              (map (fun input =>
                      default 0 (UTXO.Amount <$>
                        UTXOs bc !! utxoKey (UTXORef.TxID input) (UTXORef.Index input)))
                 inputs))).
  { induction inputs as [| input inputs IH]; intros start.
    - cbn. by rewrite Z.add_0_r.
    - cbn [fold_left map foldr]. rewrite uint64_add_l, IH. f_equal. lia. }
  assert (Hit : input_total (UTXOs bc) (Transaction.Inputs tx) =
                Go.uint64 (foldr Z.add 0
                  (map (fun input =>
                          default 0 (UTXO.Amount <$>
                            UTXOs bc !! utxoKey (UTXORef.TxID input) (UTXORef.Index input)))
                     (Transaction.Inputs tx)))).
  { unfold input_total. exact (Hin (Transaction.Inputs tx) 0). }
  rewrite Hit, output_total_running, running_total_0.
  unfold key_of. reflexivity.
Qed.

(** X28.  When [ValidateTransaction] panics.  It panics exactly when the
    public key and the signature of the transaction are hexadecimal and
    the key does not have 32 bytes: [ed25519.Verify] is called with the
    key as it was decoded. *)
Theorem ValidateTransaction_panics_iff {ext : External} (bc : Blockchain)
    (tx : Transaction.t) :
  ValidateTransaction bc tx = Panic <->
  exists pub sig,
    Go.hex_DecodeString (Transaction.PubKey tx) = Some pub /\
    Go.hex_DecodeString (Transaction.Signature tx) = Some sig /\
    Go.len pub <> 32.
Proof.
  unfold ValidateTransaction, wallet.VerifySignature, wallet.PublicKeySize. cbv zeta.
  destruct (Go.hex_DecodeString (Transaction.PubKey tx)) as [pub |] eqn:Hpub.
  2:{ split; [discriminate | intros (? & ? & ? & _); discriminate]. }
  destruct (Go.hex_DecodeString (Transaction.Signature tx)) as [sig |] eqn:Hsig.
  2:{ split; [discriminate | intros (? & ? & _ & ? & _); discriminate]. }
  destruct (Z.eqb_spec (Go.len pub) 32) as [Hl | Hl].
  2:{ split; [intros _; by exists pub, sig | reflexivity]. }
  split; [| intros (pub' & sig' & [= <-] & _ & Hne); done].
  intros H. exfalso.
  destruct (ed25519_Verify _ _ _); [| discriminate].
  unfold wallet.WalletIDFromPub in H. rewrite Hpub in H. cbn [mbind result_bind] in H.
  destruct (negb _); [discriminate |].
  destruct (check_inputs _ _ _) as [[] | e |] eqn:Hc; cbn [mbind result_bind] in H.
  - destruct (negb _); discriminate.
  - discriminate.
  - by apply check_inputs_not_Panic in Hc.
Qed.

(** X29.  [GetBalance] does not depend on the order in which the map is
    visited: for every order, the loop returns the sum of the amounts of
    the outputs that the wallet owns and that are not spent, in
    [uint64]. *)
Theorem GetBalance_any_order (walletID : string) (bc : Blockchain)
    (visit : list (string * UTXO.t)) :
  visit ≡ₚ map_to_list (UTXOs bc) ->
  balance_over walletID visit = GetBalance walletID bc /\
  GetBalance walletID bc = Go.uint64 (total_of (unspent_of walletID bc)) /\
  (forall u, u ∈ unspent_of walletID bc <->
     UTXO.Owner u = walletID /\ UTXO.Spent u = false /\
     exists key, UTXOs bc !! key = Some u).
Proof.
  intros Hp. split; [by apply balance_over_Permutation |].
  split; [apply GetBalance_unspent |].
  intros u. split; [apply unspent_of_elem |].
  intros (Ho & Hs & key & Hk). unfold unspent_of.
  apply list_elem_of_In, filter_In. split.
  - apply list_elem_of_In, list_elem_of_fmap. exists (key, u). split; [reflexivity |].
    by apply elem_of_map_to_list.
  - unfold owned. rewrite Ho, Hs, String.eqb_refl. reflexivity.
Qed.

Lemma GetBalance_any_order_witness :
  balance_over "alice" (rev (map_to_list (UTXOs scenario))) = GetBalance "alice" scenario /\
  GetBalance "alice" scenario = Go.uint64 (total_of (unspent_of "alice" scenario)).
Proof.
  destruct (GetBalance_any_order "alice" scenario (rev (map_to_list (UTXOs scenario))))
    as (H1 & H2 & _).
  - symmetry. apply Permutation_rev.
  - split; [exact H1 | exact H2].
Defined.

(** X30.  What the signature does not cover.  [ValidateTransaction]
    checks the signature over the sender, the receiver, the amount, the
    time and the note, and the outputs only through their total.  So when
    it accepts a transaction it accepts every transaction with the same
    parties, amount, note, time, key, signature and inputs, whatever its
    identifier, its type and its outputs, as long as the outputs have the
    same [uint64] total: in particular one whose single output gives the
    whole total of the inputs to any owner. *)
Theorem ValidateTransaction_outputs_unbound {ext : External} (bc : Blockchain)
    (tx : Transaction.t) :
  ValidateTransaction bc tx = Ok tt ->
  (forall id outputs type_,
     output_total outputs = output_total (Transaction.Outputs tx) ->
     ValidateTransaction bc (rewritten id outputs type_ tx) = Ok tt) /\
  (forall id owner type_,
     ValidateTransaction bc
       (rewritten id
          [UTXO.mk "" owner (input_total (UTXOs bc) (Transaction.Inputs tx)) id 0 false]
          type_ tx) = Ok tt).
Proof.
  intros HV. apply ValidateTransaction_Ok in HV as (Hsig & Hid & Hin & Htot).
  assert (H : forall id outputs type_,
            output_total outputs = output_total (Transaction.Outputs tx) ->
            ValidateTransaction bc (rewritten id outputs type_ tx) = Ok tt).
  { intros id outputs type_ Hout. apply ValidateTransaction_Ok.
    unfold rewritten. cbn [Transaction.PubKey Transaction.SenderID Transaction.ReceiverID
      Transaction.Amount Transaction.Timestamp Transaction.Note Transaction.Signature
      Transaction.Inputs Transaction.Outputs].
    split; [exact Hsig |]. split; [exact Hid |]. split; [exact Hin |]. congruence. }
  split; [exact H |].
  intros id owner type_. apply H. rewrite <- Htot.
  unfold output_total. cbn [fold_left UTXO.Amount]. apply uint64_small.
  unfold input_total.
  assert (Hr : forall inputs start, 0 <= start < 2 ^ 64 ->
            0 <= fold_left
                   (fun total input =>
                      Go.uint64 (total + default 0 (UTXO.Amount <$>
                        UTXOs bc !! utxoKey (UTXORef.TxID input) (UTXORef.Index input))))
                   inputs start < 2 ^ 64).
  { induction inputs as [| input inputs IH]; intros start Hs; [exact Hs |].
    cbn [fold_left]. apply IH. apply uint64_range. }
  apply Hr. lia.
Qed.

Lemma ValidateTransaction_outputs_unbound_witness :
  ValidateTransaction (ext := external0) ten
    (rewritten "tx-2"
       [UTXO.mk "" "mallory" (input_total (UTXOs ten) (Transaction.Inputs spend_ten)) "tx-2" 0
          false]
       "transfer" spend_ten) = Ok tt.
Proof.
  apply (ValidateTransaction_outputs_unbound (ext := external0) ten spend_ten).
  vm_compute. reflexivity.
Defined.
